(** * The article normalisation and enrichment pipeline of
      [insurance_news_agent.py] and the loader of
      [insurance_news_dashboard.py], embedded in Rocq

    The development follows the Python source function by function and keeps
    its names.  Python values are the inductive type [pyval]; a call that may
    raise returns a [result]; the one function that mutates its arguments,
    [enrich_articles_with_research_references], runs over an explicit store
    of objects.  What the source obtains from outside the repository, and
    cannot be reproduced here, is a field of the record [Env]: the named
    entities of spaCy, the completion of the language model, the current
    date, the character-reference table of [html.unescape], [repr], and the
    two limits of the interpreter [json.loads] can run into: the digits
    [int] takes and the room for nested arrays and objects.  The search
    tool is an argument of the two functions that call it,
    [get_enriched_articles] and [main]; what they show and print is the
    list of their notices and prints.

    Text is a [string] of 8-bit characters.  The character classes of [re]
    and [str] (whitespace, digits, word characters, printable characters),
    [str.lower] and NFKD normalisation are the ones Python has on ASCII text:
    there the model is exact, and the statements below that depend on these
    classes are about ASCII strings. *)

From Stdlib Require Import String Ascii ZArith Lia Bool.
From stdpp Require Import base list option.

Open Scope string_scope.

Set Warnings "-register-all".

(** ** Exceptions and results *)

Inductive exn : Type :=
  | TypeError
  | AttributeError
  | KeyError
  | ValueError
  | OtherError (name : string).

Inductive result (A : Type) : Type :=
  | Ok (a : A)
  | Raise (e : exn).

Arguments Ok {A} a.
Arguments Raise {A} e.

Definition bind {A B : Type} (m : result A) (k : A -> result B) : result B :=
  match m with
  | Ok a => k a
  | Raise e => Raise e
  end.

Notation "'do' x <- m ; k" := (bind m (fun x => k))
  (at level 10, x name, m at level 100, k at level 200, only parsing).

Definition raises {A : Type} (m : result A) : Prop := exists e, m = Raise e.

(** ** Python values *)

(** A float is kept as the decimal [m * 10 ^ e] its literal denotes. *)
Inductive pyfloat : Type :=
  | FDec (m e : Z)
  | FNaN
  | FInf (negative : bool).

(** A [dict] is the list of its items in insertion order. *)
Inductive pyval : Type :=
  | PNone
  | PBool (b : bool)
  | PInt (z : Z)
  | PFloat (f : pyfloat)
  | PStr (s : string)
  | PList (l : list pyval)
  | PDict (d : list (string * pyval)).

Definition pydict : Type := list (string * pyval).

(** [m * 10 ^ e] rounds to the binary64 zero when it is at most [2 ^ -1075],
    half of the least subnormal. *)
Definition float_is_zero (f : pyfloat) : bool :=
  match f with
  | FDec m e =>
      if (m =? 0)%Z then true
      else if (0 <=? e)%Z then false
      else (Z.abs m * 2 ^ 1075 <=? 10 ^ (- e))%Z
  | FNaN => false
  | FInf _ => false
  end.

(** [bool(v)] *)
Definition truthy (v : pyval) : bool :=
  match v with
  | PNone => false
  | PBool b => b
  | PInt z => negb (z =? 0)%Z
  | PFloat f => negb (float_is_zero f)
  | PStr s => negb (s =? "")
  | PList l => match l with [] => false | _ => true end
  | PDict d => match d with [] => false | _ => true end
  end.

Definition is_none (v : pyval) : bool :=
  match v with PNone => true | _ => false end.

Definition is_str (v : pyval) : bool :=
  match v with PStr _ => true | _ => false end.

(** ** Dictionaries *)

Fixpoint dict_get (d : pydict) (k : string) : option pyval :=
  match d with
  | [] => None
  | (k', v) :: d' => if k' =? k then Some v else dict_get d' k
  end.

(** [d[k] = v]: an existing key keeps its place, a new one goes last. *)
Fixpoint dict_set (d : pydict) (k : string) (v : pyval) : pydict :=
  match d with
  | [] => [(k, v)]
  | (k', v') :: d' =>
      if k' =? k then (k', v) :: d' else (k', v') :: dict_set d' k v
  end.

Definition dict_keys (d : pydict) : list string := map fst d.

(** [obj.get(k, default)]: only a dict has the method. *)
Definition py_get (obj : pyval) (k : string) (default : pyval) : result pyval :=
  match obj with
  | PDict d => Ok (match dict_get d k with Some v => v | None => default end)
  | _ => Raise AttributeError
  end.

(** [obj[k]] for a string [k]. *)
Definition py_getitem (obj : pyval) (k : string) : result pyval :=
  match obj with
  | PDict d => match dict_get d k with Some v => Ok v | None => Raise KeyError end
  | _ => Raise TypeError
  end.

(** [obj[k] = v] for a string [k]. *)
Definition py_setitem (obj : pyval) (k : string) (v : pyval) : result pyval :=
  match obj with
  | PDict d => Ok (PDict (dict_set d k v))
  | _ => Raise TypeError
  end.

(** ** Strings *)

(** [needle in hay] on two strings. *)
Fixpoint contains (needle hay : string) : bool :=
  String.prefix needle hay
  || match hay with
     | EmptyString => false
     | String _ hay' => contains needle hay'
     end.

(** [needle in container] for a string [needle]. *)
Definition py_in (needle : string) (container : pyval) : result bool :=
  match container with
  | PStr s => Ok (contains needle s)
  | PList l =>
      Ok (existsb (fun v => match v with PStr s => s =? needle | _ => false end) l)
  | PDict d => Ok (existsb (fun kv => fst kv =? needle) d)
  | _ => Raise TypeError
  end.

(** ** The store *)

(** Objects live in a store and are named by their address; a list of
    articles is a list of addresses, so the same dict may be listed twice. *)
Definition loc : Type := nat.
Definition store : Type := loc -> pyval.

Definition store_set (h : store) (a : loc) (v : pyval) : store :=
  fun b => if Nat.eqb b a then v else h b.

(** ** Reference Enricher *)

Definition trusted_sources : list (string * list string) :=
  [("TNFD", ["tnfd.global"]); ("IPCC", ["ipcc.ch"]); ("Swiss Re", ["swissre.com"])].

(** [any(domain in article["url"] for domain in domains)]: the subscript is
    evaluated once per domain, and the first hit ends the scan. *)
Fixpoint any_domain_in_url (domains : list string) (article : pyval) : result bool :=
  match domains with
  | [] => Ok false
  | domain :: rest =>
      do url <- py_getitem article "url" ;
      do hit <- py_in domain url ;
      if hit then Ok true else any_domain_in_url rest article
  end.

(** The inner loop over [trusted_sources.items()], [references] being the
    list built so far. *)
Fixpoint collect_references (registry : list (string * list string))
    (article : pyval) (references : list string) : result (list string) :=
  match registry with
  | [] => Ok references
  | (org, domains) :: rest =>
      do hit <- any_domain_in_url domains article ;
      collect_references rest article (if hit then references ++ [org] else references)
  end.

(** The outer loop: the store after the articles seen so far, and the list
    [enriched] built so far.  An exception leaves the store as it is at that
    point. *)
Fixpoint enrich_loop (articles : list loc) (h : store) (enriched : list loc)
    : result (list loc) * store :=
  match articles with
  | [] => (Ok enriched, h)
  | a :: rest =>
      match collect_references trusted_sources (h a) [] with
      | Raise e => (Raise e, h)
      | Ok references =>
          let value := match references with [] => ["None"] | _ => references end in
          match py_setitem (h a) "research_references" (PList (map PStr value)) with
          | Raise e => (Raise e, h)
          | Ok article' => enrich_loop rest (store_set h a article') (enriched ++ [a])
          end
      end
  end.

Definition enrich_articles_with_research_references (articles : list loc) (h : store)
    : result (list loc) * store :=
  enrich_loop articles h [].

(** ** Characters *)

Definition code (c : ascii) : nat := nat_of_ascii c.

Definition in_range (lo hi : nat) (c : ascii) : bool :=
  ((lo <=? code c) && (code c <=? hi))%nat.

(** [0-9], which is [\d] on ASCII text. *)
Definition is_digit (c : ascii) : bool := in_range 48 57 c.

(** [\w] on ASCII text: letters, digits and the underscore. *)
Definition is_word (c : ascii) : bool :=
  in_range 97 122 c || in_range 65 90 c || is_digit c || (c =? "_")%char.

(** [\s], [str.isspace], and what [str.strip] and [str.split] take for
    blanks: tab, line feed, vertical tab, form feed, carriage return, the four
    separators 28 to 31, and the space. *)
Definition is_space (c : ascii) : bool :=
  in_range 9 13 c || in_range 28 32 c.

(** [str.isprintable] of one ASCII character: the space and the graphic
    characters. *)
Definition is_printable (c : ascii) : bool := in_range 32 126 c.

Definition digit_value (c : ascii) : Z := Z.of_nat (code c - 48).

(** The longest prefix whose characters satisfy [p], and the rest. *)
Fixpoint span (p : ascii -> bool) (s : string) : string * string :=
  match s with
  | EmptyString => ("", "")
  | String c r =>
      if p c then let '(a, b) := span p r in (String c a, b) else ("", s)
  end.

Fixpoint digits_value (acc : Z) (s : string) : Z :=
  match s with
  | EmptyString => acc
  | String c r => digits_value (10 * acc + digit_value c) r
  end.

Fixpoint string_forallb (p : ascii -> bool) (s : string) : bool :=
  match s with
  | EmptyString => true
  | String c r => p c && string_forallb p r
  end.

Fixpoint string_existsb (p : ascii -> bool) (s : string) : bool :=
  match s with
  | EmptyString => false
  | String c r => p c || string_existsb p r
  end.

Definition dquote : ascii := "034"%char.
Definition backslash : ascii := "092"%char.

(** ** [json.loads] *)

(** The decoder of the standard library, as its scanner reads a text: blanks
    are space, tab, line feed and carriage return; [NaN], [Infinity] and
    [-Infinity] are accepted; a number with a fraction or an exponent is a
    float; a repeated key keeps its first place and its last value; an escape
    above [\u007f] is stored as the UTF-8 bytes of its character.  The text is
    read from left to right, and the first failure ends the reading: a text
    that is no JSON is a [JSONDecodeError]; an integer literal with more
    digits than [sys.get_int_max_str_digits()] allows is the plain
    [ValueError] of [int]; an array or an object opened beyond the depth the
    interpreter has room for is a [RecursionError]. *)

Inductive json_error : Type :=
  | JSONDecodeError
  | IntegerTooLong
  | NestingTooDeep.

(** The exception of a failure. *)
Definition json_exn (err : json_error) : exn :=
  match err with
  | JSONDecodeError => OtherError "JSONDecodeError"
  | IntegerTooLong => ValueError
  | NestingTooDeep => OtherError "RecursionError"
  end.

Definition json_ws (c : ascii) : bool :=
  (c =? " ")%char || (c =? "009")%char || (c =? "010")%char || (c =? "013")%char.

Fixpoint skip_ws (s : string) : string :=
  match s with
  | EmptyString => ""
  | String c r => if json_ws c then skip_ws r else s
  end.

Definition hex_value (c : ascii) : option N :=
  if is_digit c then Some (N.of_nat (code c - 48))
  else if in_range 97 102 c then Some (N.of_nat (code c - 87))
  else if in_range 65 70 c then Some (N.of_nat (code c - 55))
  else None.

Definition hex4 (a b c d : ascii) : option N :=
  match hex_value a, hex_value b, hex_value c, hex_value d with
  | Some x, Some y, Some z, Some w => Some (((x * 16 + y) * 16 + z) * 16 + w)%N
  | _, _, _, _ => None
  end.

Definition byte (n : N) : ascii := ascii_of_N n.

(** The UTF-8 bytes of a code point. *)
Definition utf8 (n : N) : string :=
  (if n <? 128 then String (byte n) ""
   else if n <? 2048 then
     String (byte (192 + n / 64)) (String (byte (128 + n mod 64)) "")
   else if n <? 65536 then
     String (byte (224 + n / 4096))
       (String (byte (128 + (n / 64) mod 64)) (String (byte (128 + n mod 64)) ""))
   else
     String (byte (240 + n / 262144))
       (String (byte (128 + (n / 4096) mod 64))
          (String (byte (128 + (n / 64) mod 64)) (String (byte (128 + n mod 64)) ""))))%N.

Definition simple_escape (c : ascii) : option ascii :=
  if (c =? dquote)%char then Some dquote
  else if (c =? backslash)%char then Some backslash
  else if (c =? "/")%char then Some "/"%char
  else if (c =? "b")%char then Some "008"%char
  else if (c =? "f")%char then Some "012"%char
  else if (c =? "n")%char then Some "010"%char
  else if (c =? "r")%char then Some "013"%char
  else if (c =? "t")%char then Some "009"%char
  else None.

Definition with_prefix (p : string) (r : option (string * string)) : option (string * string) :=
  match r with
  | Some (t, rest) => Some (p ++ t, rest)
  | None => None
  end.

Definition is_high_surrogate (n : N) : bool := ((55296 <=? n) && (n <=? 56319))%N.
Definition is_low_surrogate (n : N) : bool := ((56320 <=? n) && (n <=? 57343))%N.

(** The text of a string literal after its opening quote, and what follows
    the closing quote.  A control character inside the literal is an error. *)
Fixpoint scan_string (s : string) : option (string * string) :=
  match s with
  | EmptyString => None
  | String c r =>
      if (c =? dquote)%char then Some ("", r)
      else if (c =? backslash)%char then
        match r with
        | EmptyString => None
        | String e r1 =>
            if (e =? "u")%char then
              match r1 with
              | String h1 (String h2 (String h3 (String h4 r2))) =>
                  match hex4 h1 h2 h3 h4 with
                  | None => None
                  | Some hi =>
                      match r2 with
                      | String b (String u (String l1 (String l2 (String l3 (String l4 r3))))) =>
                          match hex4 l1 l2 l3 l4 with
                          | Some lo =>
                              if is_high_surrogate hi && (b =? backslash)%char
                                 && (u =? "u")%char && is_low_surrogate lo
                              then with_prefix
                                     (utf8 (65536 + (hi - 55296) * 1024 + (lo - 56320))%N)
                                     (scan_string r3)
                              else with_prefix (utf8 hi) (scan_string r2)
                          | None => with_prefix (utf8 hi) (scan_string r2)
                          end
                      | _ => with_prefix (utf8 hi) (scan_string r2)
                      end
                  end
              | _ => None
              end
            else
              match simple_escape e with
              | Some ch => with_prefix (String ch "") (scan_string r1)
              | None => None
              end
        end
      else if (code c <? 32)%nat then None
      else with_prefix (String c "") (scan_string r)
  end.

(** The number at the head of [s], as the scanner's pattern reads it: an
    optional minus; [0], or a digit from 1 to 9 and all the digits after it;
    then, if present and complete, a point with its digits; then, if present
    and complete, an exponent ([e] or [E], an optional sign, digits).  Each
    part is read by a function that hands back what it read and the rest. *)

Definition take_minus (s : string) : bool * string :=
  match s with
  | String c r => if (c =? "-")%char then (true, r) else (false, s)
  | EmptyString => (false, s)
  end.

Definition take_integer (s : string) : string * string :=
  match s with
  | String c r =>
      if (c =? "0")%char then ("0", r)
      else if is_digit c then span is_digit s
      else ("", s)
  | EmptyString => ("", s)
  end.

Definition take_fraction (s : string) : string * string :=
  match s with
  | String c r =>
      if (c =? ".")%char then
        let '(ds, r') := span is_digit r in
        if (ds =? "") then ("", s) else (ds, r')
      else ("", s)
  | EmptyString => ("", s)
  end.

Definition take_sign (s : string) : bool * string :=
  match s with
  | String c r =>
      if (c =? "-")%char then (true, r)
      else if (c =? "+")%char then (false, r)
      else (false, s)
  | EmptyString => (false, s)
  end.

Definition take_exponent (s : string) : option Z * string :=
  match s with
  | String c r =>
      if (c =? "e")%char || (c =? "E")%char then
        let '(minus, r1) := take_sign r in
        let '(ds, r2) := span is_digit r1 in
        if (ds =? "") then (None, s)
        else (Some (if minus then (- digits_value 0 ds)%Z else digits_value 0 ds), r2)
      else (None, s)
  | EmptyString => (None, s)
  end.

(** [int(digits)] refuses more digits than [max_digits], unless
    [max_digits] is zero, which lifts the limit; it looks at the limit only
    for more than 640 digits, the least limit that can be set. *)
Definition too_many_digits (max_digits : nat) (digits : string) : bool :=
  (640 <? String.length digits)%nat
  && negb (max_digits =? 0)%nat && (max_digits <? String.length digits)%nat.

(** The number at the head of [s]: [None] when no number starts there. *)
Definition scan_number (max_digits : nat) (s : string)
    : option (json_error + pyval * string) :=
  let '(negative, s1) := take_minus s in
  let '(int_digits, s2) := take_integer s1 in
  if (int_digits =? "") then None
  else
    let '(frac_digits, s3) := take_fraction s2 in
    let '(exponent, s4) := take_exponent s3 in
    let sign (z : Z) := if negative then (- z)%Z else z in
    match frac_digits, exponent with
    | EmptyString, None =>
        if too_many_digits max_digits int_digits then Some (inl IntegerTooLong)
        else Some (inr (PInt (sign (digits_value 0 int_digits)), s4))
    | _, _ =>
        let m := digits_value 0 (int_digits ++ frac_digits) in
        let e := (match exponent with Some x => x | None => 0 end
                  - Z.of_nat (String.length frac_digits))%Z in
        Some (inr (PFloat (FDec (sign m) e), s4))
    end.

(** What comes after [p] when [s] starts with [p]. *)
Fixpoint strip_prefix (p s : string) : option string :=
  match p, s with
  | EmptyString, _ => Some s
  | String a p', String b s' => if (a =? b)%char then strip_prefix p' s' else None
  | String _ _, EmptyString => None
  end.

(** [dict(pairs)] *)
Definition dict_of_pairs (pairs : list (string * pyval)) : pydict :=
  fold_left (fun d kv => dict_set d (fst kv) (snd kv)) pairs [].

(** A keyword or a number at the head of [s], in the scanner's order. *)
Definition scan_atom (max_digits : nat) (s : string) : json_error + pyval * string :=
  match strip_prefix "null" s with Some r => inr (PNone, r) | None =>
  match strip_prefix "true" s with Some r => inr (PBool true, r) | None =>
  match strip_prefix "false" s with Some r => inr (PBool false, r) | None =>
  match scan_number max_digits s with Some res => res | None =>
  match strip_prefix "NaN" s with Some r => inr (PFloat FNaN, r) | None =>
  match strip_prefix "Infinity" s with Some r => inr (PFloat (FInf false), r) | None =>
  match strip_prefix "-Infinity" s with Some r => inr (PFloat (FInf true), r) | None =>
  inl JSONDecodeError
  end end end end end end end.

(** One value at the head of [s]; [parse_elems] reads the elements of an
    array after the first blank, [parse_members] the members of an object
    from the quote of a key.  Each call uses one unit of [fuel]; [depth] is
    the number of arrays and objects that may still be opened, one inside the
    other. *)
Fixpoint parse_value (fuel depth max_digits : nat) (s : string)
    : json_error + pyval * string :=
  match fuel with
  | O => inl JSONDecodeError
  | S fuel' =>
      match s with
      | EmptyString => inl JSONDecodeError
      | String c r =>
          if (c =? dquote)%char then
            match scan_string r with
            | Some (t, r') => inr (PStr t, r')
            | None => inl JSONDecodeError
            end
          else if (c =? "{")%char then
            match depth with
            | O => inl NestingTooDeep
            | S depth' =>
                match skip_ws r with
                | String c1 r1 =>
                    if (c1 =? "}")%char then inr (PDict [], r1)
                    else
                      match parse_members fuel' depth' max_digits (String c1 r1) with
                      | inr (pairs, r2) => inr (PDict (dict_of_pairs pairs), r2)
                      | inl err => inl err
                      end
                | EmptyString => inl JSONDecodeError
                end
            end
          else if (c =? "[")%char then
            match depth with
            | O => inl NestingTooDeep
            | S depth' =>
                match skip_ws r with
                | String c1 r1 =>
                    if (c1 =? "]")%char then inr (PList [], r1)
                    else
                      match parse_elems fuel' depth' max_digits (String c1 r1) with
                      | inr (l, r2) => inr (PList l, r2)
                      | inl err => inl err
                      end
                | EmptyString => inl JSONDecodeError
                end
            end
          else scan_atom max_digits s
      end
  end
with parse_elems (fuel depth max_digits : nat) (s : string)
    : json_error + list pyval * string :=
  match fuel with
  | O => inl JSONDecodeError
  | S fuel' =>
      match parse_value fuel' depth max_digits s with
      | inl err => inl err
      | inr (v, r) =>
          match skip_ws r with
          | String c r1 =>
              if (c =? "]")%char then inr ([v], r1)
              else if (c =? ",")%char then
                match parse_elems fuel' depth max_digits (skip_ws r1) with
                | inr (l, r2) => inr (v :: l, r2)
                | inl err => inl err
                end
              else inl JSONDecodeError
          | EmptyString => inl JSONDecodeError
          end
      end
  end
with parse_members (fuel depth max_digits : nat) (s : string)
    : json_error + list (string * pyval) * string :=
  match fuel with
  | O => inl JSONDecodeError
  | S fuel' =>
      match s with
      | EmptyString => inl JSONDecodeError
      | String q r =>
          if (q =? dquote)%char then
            match scan_string r with
            | None => inl JSONDecodeError
            | Some (k, r1) =>
                match skip_ws r1 with
                | String colon r2 =>
                    if (colon =? ":")%char then
                      match parse_value fuel' depth max_digits (skip_ws r2) with
                      | inl err => inl err
                      | inr (v, r3) =>
                          match skip_ws r3 with
                          | String c r4 =>
                              if (c =? "}")%char then inr ([(k, v)], r4)
                              else if (c =? ",")%char then
                                match parse_members fuel' depth max_digits (skip_ws r4) with
                                | inr (l, r5) => inr ((k, v) :: l, r5)
                                | inl err => inl err
                                end
                              else inl JSONDecodeError
                          | EmptyString => inl JSONDecodeError
                          end
                      end
                    else inl JSONDecodeError
                | EmptyString => inl JSONDecodeError
                end
            end
          else inl JSONDecodeError
      end
  end.

(** [json.loads(s)] for a [str], when an integer may have [max_digits]
    digits and [depth] arrays and objects may be opened one inside the other:
    the value, or the failure.  The fuel is enough for every text
    ([json_loads_fuel_suffices] below). *)
Definition json_loads (max_digits depth : nat) (s : string) : json_error + pyval :=
  match parse_value (2 * String.length s + 2) depth max_digits (skip_ws s) with
  | inr (v, r) => if (skip_ws r =? "") then inr v else inl JSONDecodeError
  | inl err => inl err
  end.

(** ** The environment *)

(** What the pipeline takes from outside the repository. *)
Record Env : Type := {
  (** [html.unescape] on a text that holds an ampersand: the substitution of
      its character references, by the table [html.entities.html5]. *)
  charref_sub : string -> string;
  (** [[(ent.text, ent.label_) for ent in nlp(text).ents]], for a text the
      recogniser accepts. *)
  nlp_ents : string -> list (string * string);
  (** [llm.invoke(prompt).content], or the exception the call raises. *)
  llm_invoke : string -> result string;
  (** [datetime.today().strftime("%Y-%m-%d")] *)
  today : string;
  (** [str(v)] for a value that is not a [str]. *)
  py_repr : pyval -> string;
  (** [sys.get_int_max_str_digits()]: 4300 unless the interpreter is told
      otherwise, and zero for no limit. *)
  int_max_str_digits : nat;
  (** The number of arrays and objects, one inside the other, [json.loads]
      has room to open before a [RecursionError], where
      [safe_parse_response] calls it and where
      [enrich_article_with_gpt_full] does. *)
  parse_depth : nat;
  reply_depth : nat
}.

(** ** Result Parser *)

(** [isinstance] and [dict.get] cannot raise, and of what [json.loads]
    raises on a [str] only the [JSONDecodeError] is caught. *)
Definition safe_parse_response (E : Env) (response : pyval) : result pyval :=
  let decoded :=
    match response with
    | PStr s => json_loads (int_max_str_digits E) (parse_depth E) s
    | _ => inr response
    end in
  match decoded with
  | inl JSONDecodeError => Ok (PList [])
  | inl err => Raise (json_exn err)
  | inr response =>
      match response with
      | PList _ => Ok response
      | PDict d => Ok (match dict_get d "results" with Some v => v | None => PList [] end)
      | _ => Ok (PList [])
      end
  end.

(** ** Text Normalizer *)

(** [html.unescape(s)] returns [s] itself when it holds no ampersand. *)
Definition html_unescape (E : Env) (s : string) : string :=
  if contains "&" s then charref_sub E s else s.

Definition tail (s : string) : string :=
  match s with
  | EmptyString => ""
  | String _ r => r
  end.

Definition is_gt (c : ascii) : bool := (c =? ">")%char.

(** A match of [<[^>]+>] starts at a [<] that is followed by a character
    other than [>] and, further on, by a [>]; [r] is the text after the [<]. *)
Definition opens_tag (r : string) : bool :=
  match r with
  | EmptyString => false
  | String c r' => negb (is_gt c) && string_existsb is_gt r'
  end.

(** [re.sub(r'<[^>]+>', ' ', text)], with [inside] set while the scan is in a
    match: the match ends at the first [>], as [[^>]+] cannot pass one. *)
Fixpoint sub_tags_from (inside : bool) (s : string) : string :=
  match s with
  | EmptyString => ""
  | String c r =>
      if inside then
        if is_gt c then sub_tags_from false r else sub_tags_from true r
      else if (c =? "<")%char && opens_tag r then String " " (sub_tags_from true r)
      else String c (sub_tags_from false r)
  end.

Definition sub_tags (s : string) : string := sub_tags_from false s.

(** A match of [http\S+] starts where the text reads [http] and one more
    character that is not a blank. *)
Definition starts_url (s : string) : bool :=
  match s with
  | String h (String t1 (String t2 (String p (String c _)))) =>
      (h =? "h")%char && (t1 =? "t")%char && (t2 =? "t")%char && (p =? "p")%char
      && negb (is_space c)
  | _ => false
  end.

(** [re.sub(r'http\S+', '', text)], with [inside] set while the scan is in a
    match: the match runs to the next blank. *)
Fixpoint sub_urls_from (inside : bool) (s : string) : string :=
  match s with
  | EmptyString => ""
  | String c r =>
      if inside then
        if is_space c then String c (sub_urls_from false r) else sub_urls_from true r
      else if starts_url s then sub_urls_from true r
      else String c (sub_urls_from false r)
  end.

Definition sub_urls (s : string) : string := sub_urls_from false s.

(** [unicodedata.normalize("NFKD", text)]: ASCII text is its own normal
    form. *)
Definition normalize_NFKD (s : string) : string := s.

(** [''.join(ch for ch in text if ch.isprintable())] *)
Fixpoint keep_printable (s : string) : string :=
  match s with
  | EmptyString => ""
  | String c r => if is_printable c then String c (keep_printable r) else keep_printable r
  end.

(** [re.sub(r'\s+', ' ', text)], with [in_run] set after a blank. *)
Fixpoint collapse_from (in_run : bool) (s : string) : string :=
  match s with
  | EmptyString => ""
  | String c r =>
      if is_space c then
        if in_run then collapse_from true r else String " " (collapse_from true r)
      else String c (collapse_from false r)
  end.

Definition collapse_spaces (s : string) : string := collapse_from false s.

Fixpoint lstrip (s : string) : string :=
  match s with
  | EmptyString => ""
  | String c r => if is_space c then lstrip r else s
  end.

Fixpoint rstrip (s : string) : string :=
  match s with
  | EmptyString => ""
  | String c r =>
      match rstrip r with
      | EmptyString => if is_space c then "" else String c ""
      | r' => String c r'
      end
  end.

(** [str.strip()] *)
Definition strip (s : string) : string := rstrip (lstrip s).

Definition clean_text (E : Env) (text : pyval) : string :=
  match text with
  | PStr text =>
      let text := html_unescape E text in
      let text := sub_tags text in
      let text := sub_urls text in
      let text := normalize_NFKD text in
      let text := keep_printable text in
      strip (collapse_spaces text)
  | _ => ""
  end.

(** ** Field Extractors *)

(** [os.path.basename] of a [str], on POSIX: what follows the last slash. *)
Definition has_slash (s : string) : bool :=
  string_existsb (fun c => (c =? "/")%char) s.

Fixpoint basename (s : string) : string :=
  if has_slash s then
    match s with
    | EmptyString => ""
    | String _ r => basename r
    end
  else s.

Definition os_path_basename (p : pyval) : result string :=
  match p with
  | PStr s => Ok (basename s)
  | _ => Raise TypeError
  end.

(** The characters [urlsplit] strips from the left of a URL: the C0 controls
    and the space. *)
Fixpoint lstrip_c0 (s : string) : string :=
  match s with
  | EmptyString => ""
  | String c r => if (code c <=? 32)%nat then lstrip_c0 r else s
  end.

(** Tab, carriage return and line feed are removed from the whole URL. *)
Fixpoint remove_unsafe (s : string) : string :=
  match s with
  | EmptyString => ""
  | String c r =>
      if (c =? "009")%char || (c =? "010")%char || (c =? "013")%char
      then remove_unsafe r else String c (remove_unsafe r)
  end.

Definition is_alpha (c : ascii) : bool := in_range 97 122 c || in_range 65 90 c.

Definition scheme_char (c : ascii) : bool :=
  is_alpha c || is_digit c || (c =? "+")%char || (c =? "-")%char || (c =? ".")%char.

(** The URL after its scheme: a first colon that is not the first character,
    after a letter and scheme characters only, ends a scheme. *)
Definition drop_scheme (url : string) : string :=
  let '(before, rest) := span (fun c => negb (c =? ":")%char) url in
  match before, rest with
  | String c0 _, String _ after =>
      if is_alpha c0 && string_forallb scheme_char before then after else url
  | _, _ => url
  end.

Definition netloc_end (c : ascii) : bool :=
  (c =? "/")%char || (c =? "?")%char || (c =? "#")%char.

(** [urlparse(url).netloc] of an ASCII [str].  A network location with one
    square bracket and not the other is refused.  Two checks of the library
    are left out: the validation of a bracketed host, and the NFKC check of a
    network location that is not ASCII; so the statements below that need
    [urlparse] to return are about ASCII URLs without a square bracket. *)
Definition urlparse_netloc (url : string) : result string :=
  let url := remove_unsafe (lstrip_c0 url) in
  match drop_scheme url with
  | String s1 (String s2 rest) =>
      if (s1 =? "/")%char && (s2 =? "/")%char then
        let netloc := fst (span (fun c => negb (netloc_end c)) rest) in
        let has_open := string_existsb (fun c => (c =? "[")%char) netloc in
        let has_close := string_existsb (fun c => (c =? "]")%char) netloc in
        if xorb has_open has_close then Raise ValueError else Ok netloc
      else Ok ""
  | _ => Ok ""
  end.

(** [s.replace("www.", "")]: every occurrence, from the left. *)
Fixpoint remove_www (s : string) : string :=
  match s with
  | EmptyString => ""
  | String c r =>
      match s with
      | String w1 (String w2 (String w3 (String dot r'))) =>
          if (w1 =? "w")%char && (w2 =? "w")%char && (w3 =? "w")%char && (dot =? ".")%char
          then remove_www r' else String c (remove_www r)
      | _ => String c (remove_www r)
      end
  end.

(** [urlparse] of a value that is not a [str] hands back bytes when the value
    is falsy, on which [replace] with [str] arguments is a [TypeError], and
    fails on the missing [decode] otherwise. *)
Definition extract_domain_as_source (url : pyval) : result string :=
  match url with
  | PStr s => do netloc <- urlparse_netloc s ; Ok (remove_www netloc)
  | _ => if truthy url then Raise AttributeError else Raise TypeError
  end.

(** [Counter(locations)]: the counts, in the order of first occurrence. *)
Fixpoint counter_add (counts : list (string * nat)) (x : string) : list (string * nat) :=
  match counts with
  | [] => [(x, 1)]
  | (y, n) :: rest => if y =? x then (y, S n) :: rest else (y, n) :: counter_add rest x
  end.

Definition counter (l : list string) : list (string * nat) :=
  fold_left counter_add l [].

(** [max] by count: a later item wins only with a greater count. *)
Fixpoint max_by_count (best : string * nat) (items : list (string * nat)) : string * nat :=
  match items with
  | [] => best
  | item :: rest =>
      max_by_count (if (snd best <? snd item)%nat then item else best) rest
  end.

Definition is_location_label (label : string) : bool :=
  (label =? "GPE") || (label =? "LOC").

(** [nlp.max_length] *)
Definition nlp_max_length : N := 1000000.

(** [nlp(text)] takes a text of at most [nlp.max_length] characters. *)
Definition nlp_accepts (text : string) : bool :=
  (N.of_nat (String.length text) <=? nlp_max_length)%N.

(** The entities of [nlp(text)], as pairs of text and label; a longer text is
    a [ValueError] (E088). *)
Definition nlp (E : Env) (text : string) : result (list (string * string)) :=
  if nlp_accepts text then Ok (nlp_ents E text) else Raise ValueError.

(** [extract_location(text)] on a text [nlp] accepts. *)
Definition extract_location (E : Env) (text : string) : string :=
  let locations := map fst (List.filter (fun ent => is_location_label (snd ent)) (nlp_ents E text)) in
  match counter locations with
  | [] => "Unknown Location"
  | first :: rest => fst (max_by_count first rest)
  end.

(** [str.lower()] on ASCII text. *)
Definition lower_char (c : ascii) : ascii :=
  if in_range 65 90 c then ascii_of_nat (code c + 32) else c.

Fixpoint lower (s : string) : string :=
  match s with
  | EmptyString => ""
  | String c r => String (lower_char c) (lower r)
  end.

Definition categories : list (string * list string) :=
  [("Climate Risk", ["climate change"]);
   ("Insurance Exposures", ["insured loss"]);
   ("InsurTech", ["insurtech"])].

Fixpoint first_category (rules : list (string * list string)) (text_lower : string) : string :=
  match rules with
  | [] => "Uncategorized"
  | (category, keywords) :: rest =>
      if existsb (fun k => contains k text_lower) keywords then category
      else first_category rest text_lower
  end.

Definition categorize_article (text : string) : string :=
  first_category categories (lower text).

(** *** Dates *)

Definition is_sep (c : ascii) : bool := (c =? "-")%char || (c =? "/")%char.

(** [(20\d{2})[-/](\d{2})[-/](\d{2})] at the head of [s]: the matched text. *)
Definition match_numeric_at (s : string) : option string :=
  match s with
  | String a (String b (String c (String d (String s1 (String m1 (String m2
      (String s2 (String d1 (String d2 _))))))))) =>
      if (a =? "2")%char && (b =? "0")%char && is_digit c && is_digit d && is_sep s1
         && is_digit m1 && is_digit m2 && is_sep s2 && is_digit d1 && is_digit d2
      then Some (substring 0 10 s)
      else None
  | _ => None
  end.

(** [ 20\d{2}] at the head of [s]. *)
Definition match_year_at (s : string) : option string :=
  match s with
  | String sp (String a (String b (String c (String d _)))) =>
      if (sp =? " ")%char && (a =? "2")%char && (b =? "0")%char && is_digit c && is_digit d
      then Some (String sp (String a (String b (String c (String d "")))))
      else None
  | _ => None
  end.

Definition append_match (p : string) (m : option string) : option string :=
  match m with
  | Some t => Some (p ++ t)
  | None => None
  end.

(** [ \w+ 20\d{2}] at the head of [s].  The greedy [\w+] takes the whole run
    of word characters; giving one back leaves a word character where the
    space must stand, so no shorter run can match. *)
Definition match_word_year_at (s : string) : option string :=
  match s with
  | String sp r =>
      if (sp =? " ")%char then
        let '(w, r') := span is_word r in
        if (w =? "") then None
        else append_match (String sp w) (match_year_at r')
      else None
  | EmptyString => None
  end.

(** [(\d{1,2} \w+ 20\d{2})] at the head of [s]: two digits are tried before
    one. *)
Definition match_dmy_at (s : string) : option string :=
  let two :=
    match s with
    | String d1 (String d2 r) =>
        if is_digit d1 && is_digit d2
        then append_match (String d1 (String d2 "")) (match_word_year_at r)
        else None
    | _ => None
    end in
  match two with
  | Some m => Some m
  | None =>
      match s with
      | String d1 r =>
          if is_digit d1 then append_match (String d1 "") (match_word_year_at r) else None
      | EmptyString => None
      end
  end.

(** [, 20\d{2}] at the head of [s]. *)
Definition match_comma_year_at (s : string) : option string :=
  match s with
  | String c r => if (c =? ",")%char then append_match (String c "") (match_year_at r) else None
  | EmptyString => None
  end.

(** [(\w+ \d{1,2}, 20\d{2})] at the head of [s]. *)
Definition match_mdy_at (s : string) : option string :=
  let '(w, r) := span is_word s in
  if (w =? "") then None
  else
    match r with
    | String sp r1 =>
        if (sp =? " ")%char then
          let two :=
            match r1 with
            | String d1 (String d2 r2) =>
                if is_digit d1 && is_digit d2
                then append_match (w ++ String sp (String d1 (String d2 "")))
                       (match_comma_year_at r2)
                else None
            | _ => None
            end in
          match two with
          | Some m => Some m
          | None =>
              match r1 with
              | String d1 r2 =>
                  if is_digit d1
                  then append_match (w ++ String sp (String d1 "")) (match_comma_year_at r2)
                  else None
              | EmptyString => None
              end
          end
        else None
    | EmptyString => None
    end.

(** The list [patterns], each pattern as its matcher at one position. *)
Definition patterns : list (string -> option string) :=
  [match_numeric_at; match_dmy_at; match_mdy_at].

(** The leftmost match: [match.group(0)] of [re.search]. *)
Fixpoint search_from (match_at : string -> option string) (s : string) : option string :=
  match match_at s with
  | Some m => Some m
  | None =>
      match s with
      | EmptyString => None
      | String _ r => search_from match_at r
      end
  end.

(** [re.search(pattern, text)] wants a [str]. *)
Definition re_search (match_at : string -> option string) (text : pyval)
    : result (option string) :=
  match text with
  | PStr s => Ok (search_from match_at s)
  | _ => Raise TypeError
  end.

Record date : Type := { year : Z; month : Z; day : Z }.

Definition is_leap (y : Z) : bool :=
  ((y mod 4 =? 0) && negb (y mod 100 =? 0) || (y mod 400 =? 0))%Z.

Definition days_in_month (y m : Z) : Z :=
  (if m =? 2 then (if is_leap y then 29 else 28)
   else if (m =? 4) || (m =? 6) || (m =? 9) || (m =? 11) then 30
   else 31)%Z.

(** The month of [%m], [1[0-2]|0[1-9]|[1-9]]: every way it matches at the
    head of [s], in the order the alternatives are tried. *)
Definition month_alternatives (s : string) : list (Z * string) :=
  match s with
  | String a r =>
      (match r with
       | String b r' =>
           (if (a =? "1")%char && in_range 48 50 b then [(10 + digit_value b, r')%Z] else [])
           ++ (if (a =? "0")%char && in_range 49 57 b then [(digit_value b, r')] else [])
       | EmptyString => []
       end)
      ++ (if in_range 49 57 a then [(digit_value a, r)] else [])
  | EmptyString => []
  end.

(** The day of [%d], [3[01]|[12]\d|0[1-9]|[1-9]| [1-9]]: the first
    alternative that matches at the head of [s]. *)
Definition day_match (s : string) : option (Z * string) :=
  match s with
  | String a r =>
      match r with
      | String b r' =>
          if (a =? "3")%char && in_range 48 49 b then Some (30 + digit_value b, r')%Z
          else if in_range 49 50 a && is_digit b then
            Some (10 * digit_value a + digit_value b, r')%Z
          else if (a =? "0")%char && in_range 49 57 b then Some (digit_value b, r')
          else if in_range 49 57 a then Some (digit_value a, r)
          else if (a =? " ")%char && in_range 49 57 b then Some (digit_value b, r')
          else None
      | EmptyString => if in_range 49 57 a then Some (digit_value a, r) else None
      end
  | EmptyString => None
  end.

(** The first month alternative after which a dash and a day match. *)
Fixpoint month_day_match (alternatives : list (Z * string)) : option (Z * Z * string) :=
  match alternatives with
  | [] => None
  | (m, r) :: rest =>
      match r with
      | String dash r' =>
          if (dash =? "-")%char then
            match day_match r' with
            | Some (d, r'') => Some (m, d, r'')
            | None => month_day_match rest
            end
          else month_day_match rest
      | EmptyString => month_day_match rest
      end
  end.

(** [datetime.strptime(s, "%Y-%m-%d")]: [None] stands for its [ValueError],
    raised when the format does not match at the head of [s], when text
    remains after the match, and when the numbers are no date. *)
Definition strptime (s : string) : option date :=
  match s with
  | String y1 (String y2 (String y3 (String y4 (String dash r)))) =>
      if is_digit y1 && is_digit y2 && is_digit y3 && is_digit y4 && (dash =? "-")%char then
        match month_day_match (month_alternatives r) with
        | Some (m, d, rest) =>
            let y := digits_value 0 (String y1 (String y2 (String y3 (String y4 "")))) in
            if (rest =? "") && (1 <=? y)%Z && (d <=? days_in_month y m)%Z
            then Some {| year := y; month := m; day := d |}
            else None
        | None => None
        end
      else None
  | _ => None
  end.

Definition digit_char (z : Z) : ascii := ascii_of_nat (48 + Z.to_nat z).

Definition pad2 (z : Z) : string :=
  String (digit_char (z / 10)) (String (digit_char (z mod 10)) "").

Definition pad4 (z : Z) : string :=
  (pad2 (z / 100) ++ pad2 (z mod 100))%Z.

(** [d.strftime("%Y-%m-%d")] *)
Definition strftime (d : date) : string :=
  pad4 (year d) ++ "-" ++ pad2 (month d) ++ "-" ++ pad2 (day d).

(** The loop over [patterns] for one text: the first match that parses ends
    the whole function, a match that does not parse moves to the next
    pattern. *)
Fixpoint try_patterns (ps : list (string -> option string)) (text : pyval)
    : result (option string) :=
  match ps with
  | [] => Ok None
  | p :: rest =>
      do found <- re_search p text ;
      match found with
      | Some m =>
          match strptime m with
          | Some d => Ok (Some (strftime d))
          | None => try_patterns rest text
          end
      | None => try_patterns rest text
      end
  end.

(** The loop over the texts. *)
Fixpoint scan_texts (texts : list pyval) : result (option string) :=
  match texts with
  | [] => Ok None
  | text :: rest =>
      do found <- try_patterns patterns text ;
      match found with
      | Some d => Ok (Some d)
      | None => scan_texts rest
      end
  end.

Definition extract_best_date (E : Env) (url title content : pyval) : result string :=
  do found <- scan_texts [url; title; content] ;
  Ok (match found with Some d => d | None => today E end).

(** ** Article Structurer *)

(** [text.split()] *)
Fixpoint split_ws (s : string) : list string :=
  match s with
  | EmptyString => []
  | String c r =>
      if is_space c then split_ws r
      else
        match r with
        | String c' _ =>
            if is_space c' then String c "" :: split_ws r
            else
              match split_ws r with
              | w :: ws => String c w :: ws
              | [] => [String c ""]
              end
        | EmptyString => [String c ""]
        end
  end.

(** [sep.join(l)] *)
Fixpoint join (sep : string) (l : list string) : string :=
  match l with
  | [] => ""
  | [w] => w
  | w :: ws => w ++ sep ++ join sep ws
  end.

(** [len(v)] *)
Definition py_len (v : pyval) : result nat :=
  match v with
  | PStr s => Ok (String.length s)
  | PList l => Ok (length l)
  | PDict d => Ok (length d)
  | _ => Raise TypeError
  end.

Fixpoint chars (s : string) : list pyval :=
  match s with
  | EmptyString => []
  | String c r => PStr (String c "") :: chars r
  end.

(** The items a [for] loop over [v] sees. *)
Definition py_iter (v : pyval) : result (list pyval) :=
  match v with
  | PStr s => Ok (chars s)
  | PList l => Ok l
  | PDict d => Ok (map (fun kv => PStr (fst kv)) d)
  | _ => Raise TypeError
  end.

(** The body of the loop of [structure_articles]: the dict appended for one
    raw result.  [extract_location] raises what [nlp] raises on a text it
    does not accept. *)
Definition structure_article (E : Env) (raw : pyval) : result pyval :=
  do url <- py_get raw "url" (PStr "") ;
  do title0 <- py_get raw "title" (PStr "") ;
  do title <-
    (if truthy title0 then Ok title0
     else
       do base <- os_path_basename url ;
       Ok (if truthy (PStr base) then PStr base else PStr "No Title")) ;
  do source0 <- py_get raw "source" (PStr "") ;
  do source <-
    (if truthy source0 then Ok source0
     else do domain <- extract_domain_as_source url ; Ok (PStr domain)) ;
  do raw_content <- py_get raw "content" (PStr "") ;
  let full_content := clean_text E raw_content in
  let summary_input := join " " (firstn 800 (split_ws full_content)) in
  do date <- extract_best_date E url title (PStr full_content) ;
  do entities <- nlp E full_content ;
  let location := extract_location E full_content in
  let category := categorize_article full_content in
  Ok (PDict [("title", title); ("url", url); ("source", source); ("date", PStr date);
             ("location", PStr location); ("category", PStr category);
             ("summary_input", PStr summary_input); ("full_content", PStr full_content)]).

Fixpoint structure_loop (E : Env) (raw_results : list pyval) : result (list pyval) :=
  match raw_results with
  | [] => Ok []
  | raw :: rest =>
      do article <- structure_article E raw ;
      do structured <- structure_loop E rest ;
      Ok (article :: structured)
  end.

(** The [print] of the number of results needs [len(raw_results)]. *)
Definition structure_articles (E : Env) (response : pyval) : result (list pyval) :=
  do raw_results <- safe_parse_response E response ;
  do n <- py_len raw_results ;
  do items <- py_iter raw_results ;
  structure_loop E items.

(** ** LLM Enrichment Adapter *)

Definition newline : string := String "010" "".

(** [s] between double quotes. *)
Definition q (s : string) : string := String dquote (s ++ String dquote "").

Definition unlines (lines : list string) : string :=
  fold_right (fun l rest => l ++ newline ++ rest) "" lines.

(** The fixed lines of the prompt, from the line after the opening quotes to
    the blank line before [Title:]. *)
Definition prompt_instructions : list string :=
  ["You are an expert AI analyst at a global insurance firm. Your task is to analyze the provided article and clearly summarize it into an insightful, detailed, and highly structured summary explicitly crafted for risk analysts and decision-makers in the insurance industry.";
   "";
   "Explicitly include the following critical information in your summary clearly and concisely:";
   "";
   "1. **Main Issue/Event**: Clearly describe what specifically happened (e.g., wildfire, flood, policy change, regulation update, insurtech development).";
   "";
   "2. **Date and Location**: Clearly state when and where exactly the issue/event occurred or will occur.";
   "";
   "3. **Key Stakeholders**: Clearly mention any important companies, organizations, governments, or individuals involved or affected directly.";
   "";
   "4. **Impacts on Insurance Business**:";
   "   - Describe clearly any direct or indirect effects on the insurance and reinsurance industry.";
   "   - Clearly indicate potential changes in underwriting practices or risks to exposure.";
   "";
   "5. **Regulatory or Policy Changes**: Clearly state any significant policy, regulatory, or legislative developments described in the article.";
   "";
   "6. **Financial and Economic Implications**:";
   "   - Clearly summarize any explicitly mentioned or implied financial losses, premiums adjustments, claims impacts, or economic repercussions.";
   "";
   "7. **Technological Implications (if mentioned)**:";
   "   - Describe clearly how technology or innovation (e.g., AI, IoT, blockchain, etc.) is involved or impacted.";
   "";
   "8. **Environmental and Social Impact (if applicable)**:";
   "   - Clearly summarize any mentioned environmental or social consequences.";
   "";
   "9. **Immediate Action Recommendations**: Clearly and explicitly provide an actionable recommendation for insurance analysts to manage or monitor the described risk or situation.";
   "";
   "10. **Explicitly Suggested External References**:";
   "   - Clearly list relevant external references, explicitly providing both the name and the complete URL to official reports, trusted documents, or authoritative sources.";
   "";
   "Structure your output clearly and explicitly as this JSON format:";
   "";
   "{";
   "  " ++ q "title" ++ ": " ++ q "..." ++ ",";
   "  " ++ q "url" ++ ": " ++ q "..." ++ ",";
   "  " ++ q "date" ++ ": " ++ q "..." ++ ",";
   "  " ++ q "source" ++ ": " ++ q "..." ++ ",";
   "  " ++ q "category" ++ ": " ++ q "..." ++ ",";
   "  " ++ q "location" ++ ": " ++ q "..." ++ ",";
   "  " ++ q "summary" ++ ": " ++ q "..." ++ ",  # Clearly structured and comprehensive covering above points.";
   "  " ++ q "references" ++ ": [";
   "    {" ++ q "name" ++ ": " ++ q "IPCC" ++ ", " ++ q "url" ++ ": " ++ q "https://ipcc.ch/report.pdf" ++ "},";
   "    {" ++ q "name" ++ ": " ++ q "TNFD" ++ ", " ++ q "url" ++ ": " ++ q "https://tnfd.global/report.pdf" ++ "}";
   "  ],";
   "  " ++ q "sentiment" ++ ": " ++ q "..." ++ ",";
   "  " ++ q "recommendation" ++ ": " ++ q "..." ++ ",";
   "  " ++ q "financial_impact" ++ ": " ++ q "...";
   "}";
   "";
   "Clearly use only the provided structured article content explicitly below to craft your response:";
   ""].

(** A value inside an f-string: a [str] as it is, anything else by [str()]. *)
Definition py_str (E : Env) (v : pyval) : string :=
  match v with
  | PStr s => s
  | _ => py_repr E v
  end.

(** [v[:3000]]: a [str] and a [list] can be sliced. *)
Definition slice_3000 (v : pyval) : result pyval :=
  match v with
  | PStr s => Ok (PStr (substring 0 3000 s))
  | PList l => Ok (PList (firstn 3000 l))
  | _ => Raise TypeError
  end.

(** The f-string: it is built before the [try], so what it raises leaves the
    function. *)
Definition build_prompt (E : Env) (article : pyval) : result string :=
  do title <- py_get article "title" (PStr "") ;
  do url <- py_get article "url" (PStr "") ;
  do date <- py_get article "date" (PStr "") ;
  do source <- py_get article "source" (PStr "") ;
  do summary <- py_get article "summary_input" (PStr "") ;
  do full_content <- py_get article "full_content" (PStr "") ;
  do content <- slice_3000 full_content ;
  Ok (newline
      ++ unlines (prompt_instructions
                  ++ ["Title: " ++ py_str E title;
                      "URL: " ++ py_str E url;
                      "Date: " ++ py_str E date;
                      "Source: " ++ py_str E source;
                      "Summary: " ++ py_str E summary;
                      "Content: " ++ py_str E content])).

(** The dict returned by the [except] branch. *)
Definition fallback_record (article : pyval) : result pyval :=
  do title <- py_get article "title" (PStr "") ;
  do url <- py_get article "url" (PStr "") ;
  do date <- py_get article "date" (PStr "") ;
  do source <- py_get article "source" (PStr "") ;
  Ok (PDict [("title", title); ("url", url); ("date", date); ("source", source);
             ("category", PStr "Uncategorized"); ("summary", PStr "GPT failed.");
             ("references", PList []); ("sentiment", PStr "Unknown");
             ("recommendation", PStr "N/A"); ("financial_impact", PStr "Not specified")]).

(** [except Exception] catches whatever the call raises and whatever
    [json.loads] raises. *)
Definition enrich_article_with_gpt_full (E : Env) (article : pyval) : result pyval :=
  do prompt <- build_prompt E article ;
  match llm_invoke E prompt with
  | Ok content =>
      match json_loads (int_max_str_digits E) (reply_depth E) content with
      | inr v => Ok v
      | inl _ => fallback_record article
      end
  | Raise _ => fallback_record article
  end.

(** [[enrich_article_with_gpt_full(a) for a in articles]], the comprehension
    of [get_enriched_articles]. *)
Fixpoint enrich_all (E : Env) (articles : list pyval) : result (list pyval) :=
  match articles with
  | [] => Ok []
  | a :: rest =>
      do enriched <- enrich_article_with_gpt_full E a ;
      do others <- enrich_all E rest ;
      Ok (enriched :: others)
  end.

(** ** The dashboard: loading the articles *)

(** [all_keywords] and the query built from them,
    [" OR ".join(all_keywords)]. *)
Definition all_keywords : list string :=
  ["climate change"; "insurance market"; "reinsurance"; "insurtech"; "loss ratio";
   "insurance regulation"].

Definition search_query : string := join " OR " all_keywords.

(** What [get_enriched_articles] puts on the page: the [st.warning] for a
    falsy response, the [st.warning] for an empty list of structured
    articles, and the [st.error] with the exception it caught. *)
Inductive notice : Type :=
  | NoResponse
  | NothingStructured
  | LoadError (e : exn).

(** The list [structured] in the store: each article is a dict of its own,
    the [a]-th at the address [a]. *)
Definition allocate (articles : list pyval) : list loc * store :=
  (seq 0 (length articles),
   fun a => match articles !! a with Some v => v | None => PNone end).

(** [get_enriched_articles()], [tool_invoke] standing for [tool.invoke] on
    the query: the list returned and the notices shown.  Every exception of
    the body is caught by the one [except Exception]. *)
Definition get_enriched_articles (E : Env) (tool_invoke : string -> result pyval)
    : list pyval * list notice :=
  let body : result (list pyval * list notice) :=
    do response <- tool_invoke search_query ;
    if negb (truthy response) then Ok ([], [NoResponse])
    else
      do structured <- structure_articles E response ;
      match structured with
      | [] => Ok ([], [NothingStructured])
      | _ :: _ =>
          let '(articles, h) := allocate structured in
          let '(enriched_with_refs, h') :=
            enrich_articles_with_research_references articles h in
          do enriched_with_refs <- enriched_with_refs ;
          do enriched_articles <- enrich_all E (map h' enriched_with_refs) ;
          Ok (enriched_articles, [])
      end in
  match body with
  | Ok out => out
  | Raise e => ([], [LoadError e])
  end.

(** ** The dashboard: severity *)

(** [table.get(k)] on a table of strings. *)
Fixpoint lookup (table : list (string * string)) (k : string) : option string :=
  match table with
  | [] => None
  | (k', v) :: rest => if k' =? k then Some v else lookup rest k
  end.

Definition sentiment_remap : list (string * string) :=
  [("Negative", "High Risk"); ("Positive", "Low Risk"); ("Neutral", "Neutral")].

(** [df['sentiment'].map(sentiment_remap).fillna("Neutral")] on one entry of
    the column that is a [str]: [map] gives the value the table has under
    the entry and a missing value when it has none, which [fillna]
    replaces. *)
Definition severity (sentiment : string) : string :=
  match lookup sentiment_remap sentiment with
  | Some s => s
  | None => "Neutral"
  end.

Definition severity_icons : list (string * string) :=
  [("Critical", "🔴"); ("High Risk", "🟠"); ("Caution", "🟡"); ("Moderate", "🟡");
   ("Low Risk", "🟢"); ("Neutral", "🔵")].

Definition severity_colors : list (string * string) :=
  [("Critical", "red"); ("High Risk", "orange"); ("Caution", "yellow");
   ("Moderate", "yellow"); ("Low Risk", "green"); ("Neutral", "blue")].

(** [severity_icons.get(row['sentiment'], "📰")] *)
Definition icon (sentiment : string) : string :=
  match lookup severity_icons sentiment with
  | Some i => i
  | None => "📰"
  end.

(** The test of [isin(["High Risk", "Critical"])], which selects the
    trending news. *)
Definition is_trending (sentiment : string) : bool :=
  (sentiment =? "High Risk") || (sentiment =? "Critical").

(** [df_filtered[df_filtered['sentiment'].isin(["High Risk",
    "Critical"])].head(5)], on the rows of [df_filtered] as pairs of a title
    and a sentiment: the first five rows that pass the test. *)
Definition trending (df_filtered : list (string * string)) : list (string * string) :=
  firstn 5 (List.filter (fun row => is_trending (snd row)) df_filtered).

(** [map_df[map_df['sentiment'] == "Critical"]['location'].tolist()], on
    the rows of [map_df] as pairs of a location and a sentiment. *)
Definition critical_regions (map_df : list (string * string)) : list string :=
  map fst (List.filter (fun row => snd row =? "Critical") map_df).

(** ** The command-line entry point *)

Definition month_names : list string :=
  ["January"; "February"; "March"; "April"; "May"; "June"; "July"; "August";
   "September"; "October"; "November"; "December"].

(** [d.strftime("%B %d, %Y")] *)
Definition strftime_long (d : date) : string :=
  match month_names !! Z.to_nat (month d - 1) with
  | Some name => name
  | None => ""
  end ++ " " ++ pad2 (day d) ++ ", " ++ pad4 (year d).

(** [d - timedelta(days=1)]: the first day of the year 1 has no day before
    it, and the subtraction is an [OverflowError]. *)
Definition day_before (d : date) : result date :=
  if (1 <? day d)%Z then Ok {| year := year d; month := month d; day := day d - 1 |}
  else if (1 <? month d)%Z then
    Ok {| year := year d; month := month d - 1;
          day := days_in_month (year d) (month d - 1) |}
  else if (1 <? year d)%Z then Ok {| year := year d - 1; month := 12; day := 31 |}
  else Raise (OtherError "OverflowError").

(** What [main] prints, one constructor for each [print] of its body, with
    the values printed. *)
Inductive printed : Type :=
  | RunningQuery (query : string)
  | RawResponse (response : pyval)
  | InvokeFailed (e : exn)
  | NoStructured
  | ArticleBlock (title date category : pyval).

(** The last loop of [main]: what is printed, and how the loop ends. *)
Fixpoint print_articles (structured : list pyval) : list printed * result unit :=
  match structured with
  | [] => ([], Ok tt)
  | article :: rest =>
      match (do title <- py_getitem article "title" ;
             do date <- py_getitem article "date" ;
             do category <- py_getitem article "category" ;
             Ok (ArticleBlock title date category)) with
      | Raise e => ([], Raise e)
      | Ok block =>
          let '(blocks, status) := print_articles rest in (block :: blocks, status)
      end
  end.

(** The query of [main], an f-string over [search_query] and the two
    dates. *)
Definition main_query (today yesterday : date) : string :=
  "(" ++ search_query ++ ") AND (" ++ strftime_long today ++ " OR "
  ++ strftime_long yesterday ++ " OR this week)".

(** [main()]: what it prints and how it ends.  [today] and [today'] are the
    two readings of [datetime.today()]; only the call of the tool and the
    print of its response are inside the [try]. *)
Definition main (E : Env) (tool_invoke : string -> result pyval) (today today' : date)
    : list printed * result unit :=
  match day_before today' with
  | Raise e => ([], Raise e)
  | Ok yesterday =>
      let query := main_query today yesterday in
      match tool_invoke query with
      | Raise e => ([RunningQuery query; InvokeFailed e], Ok tt)
      | Ok response =>
          let shown := [RunningQuery query; RawResponse response] in
          match structure_articles E response with
          | Raise e => (shown, Raise e)
          | Ok [] => ((shown ++ [NoStructured])%list, Ok tt)
          | Ok structured =>
              let '(blocks, status) := print_articles structured in
              ((shown ++ blocks)%list, status)
          end
      end
  end.

(** * Specifications

    The predicates and the sample data the statements below are written
    with. *)

(** The fields of a StructuredArticle. *)
Definition documented_fields : list string :=
  ["title"; "url"; "source"; "date"; "location"; "category"; "summary_input"; "full_content"].

(** The field [k] is present in [d] and is not [None]. *)
Definition field_populated (d : pydict) (k : string) : bool :=
  match dict_get d k with
  | Some v => negb (is_none v)
  | None => false
  end.

(** A StructuredArticle as the structurer emits it and the enricher may have
    tagged it: a dict with every documented field present and not [None], a
    title that is not empty, and a [str] for [full_content]. *)
Definition is_structured_article (a : pyval) : bool :=
  match a with
  | PDict d =>
      forallb (field_populated d) documented_fields
      && match dict_get d "title" with Some t => truthy t | None => false end
      && match dict_get d "full_content" with Some (PStr _) => true | _ => false end
  | _ => false
  end.

(** The square brackets, which [urlparse] reads as the marks of an IPv6
    host. *)
Definition is_bracket (c : ascii) : bool := (c =? "[")%char || (c =? "]")%char.

(** The characters of ASCII. *)
Definition is_ascii (c : ascii) : bool := (code c <? 128)%nat.

(** The text the structurer hands to the entity recogniser for the raw
    result [d]: its cleaned content. *)
Definition cleaned_content (E : Env) (d : pydict) : string :=
  clean_text E (match dict_get d "content" with Some v => v | None => PStr "" end).

(** A raw result the structurer is written for: a dict; a [url] that, when
    present, is a [str]; a [title] that, when present, is a [str] or falsy;
    a [source] of its own, or a URL that [urlparse] cannot refuse, being
    ASCII and without square brackets; and a content that, once cleaned, has
    no more than the [nlp.max_length] characters the recogniser takes.
    Fields may be missing, and [content] may be of any type. *)
Definition well_formed_raw (E : Env) (raw : pyval) : bool :=
  match raw with
  | PDict d =>
      match dict_get d "url" with
      | Some (PStr _) | None => true
      | Some _ => false
      end
      && match dict_get d "title" with
         | Some t => is_str t || negb (truthy t)
         | None => true
         end
      && (match dict_get d "source" with Some s => truthy s | None => false end
          || match dict_get d "url" with
             | Some (PStr u) => negb (string_existsb is_bracket u) && string_forallb is_ascii u
             | _ => true
             end)
      && nlp_accepts (cleaned_content E d)
  | _ => false
  end.

(** The title the fallback chain resolves to: the explicit title when it is
    truthy, else the basename of the URL when it is not empty, else the
    placeholder. *)
Definition resolved_title (d : pydict) : pyval :=
  let explicit := match dict_get d "title" with Some t => t | None => PStr "" end in
  let url := match dict_get d "url" with Some (PStr u) => u | _ => "" end in
  if truthy explicit then explicit
  else if (basename url =? "") then PStr "No Title"
  else PStr (basename url).

(** The leftmost match of each pattern in [text], in the order of
    [patterns]: the matches the source looks at in one text. *)
Definition matches_in (text : string) : list string :=
  flat_map (fun p => match search_from p text with Some m => [m] | None => [] end) patterns.

(** The first match of a list that [strptime] accepts, reformatted. *)
Fixpoint first_parsed (matches : list string) : option string :=
  match matches with
  | [] => None
  | m :: rest =>
      match strptime m with
      | Some d => Some (strftime d)
      | None => first_parsed rest
      end
  end.

(** The leftmost match of the numeric pattern in [text], when it is a date
    that [%Y-%m-%d] reads. *)
Definition iso_match (text : string) : option string :=
  match search_from match_numeric_at text with
  | Some m => match strptime m with Some _ => Some m | None => None end
  | None => None
  end.

(** [k] occurs in [s]: [s] is some text, [k], and some text. *)
Definition occurs (k s : string) : Prop := exists pre post, s = pre ++ k ++ post.

(** The character [c] does not occur in [s]. *)
Definition free_of (c : ascii) (s : string) : bool :=
  negb (string_existsb (Ascii.eqb c) s).

(** A day of the calendar in the years 2000 to 2099, the years the patterns
    look for. *)
Definition calendar_day (d : date) : bool :=
  ((2000 <=? year d) && (year d <=? 2099) && (1 <=? month d) && (month d <=? 12)
   && (1 <=? day d) && (day d <=? days_in_month (year d) (month d)))%Z.

(** [text] holds a match of [<[^>]+>]. *)
Fixpoint has_tag (text : string) : bool :=
  match text with
  | EmptyString => false
  | String c r => ((c =? "<")%char && opens_tag r) || has_tag r
  end.

(** [text] holds a match of [http\S+]. *)
Fixpoint has_url_match (text : string) : bool :=
  starts_url text
  || match text with
     | EmptyString => false
     | String _ r => has_url_match r
     end.

(** [b] tells that a blank may not come next: the text is at its start or
    just after a blank.  Every blank of the text is a single space. *)
Fixpoint single_spaced (b : bool) (s : string) : bool :=
  match s with
  | EmptyString => true
  | String c r =>
      if is_space c then negb b && (c =? " ")%char && single_spaced true r
      else single_spaced false r
  end.

(** A URL scheme cut by a line feed: no markup, and no URL as it stands. *)
Definition broken_scheme : string := "ht" ++ String "010" "tps".

(** A character a string literal holds as it is: a printable ASCII character
    other than the quote and the backslash. *)
Definition plain_char (c : ascii) : bool :=
  in_range 32 126 c && negb (c =? dquote)%char && negb (c =? backslash)%char.

Definition plain (s : string) : bool := string_forallb plain_char s.

(** No string occurs twice in [l]. *)
Fixpoint distinct (l : list string) : bool :=
  match l with
  | [] => true
  | x :: rest => negb (existsb (String.eqb x) rest) && distinct rest
  end.

(** The values written below: [None], the booleans, strings of plain
    characters, and lists and dicts of such values, the keys of a dict being
    plain and distinct. *)
Fixpoint writable (v : pyval) : bool :=
  match v with
  | PNone | PBool _ => true
  | PInt _ | PFloat _ => false
  | PStr s => plain s
  | PList l => forallb writable l
  | PDict d =>
      forallb (fun kv => plain (fst kv) && writable (snd kv)) d && distinct (map fst d)
  end.

(** The number of lists and dicts of [v] that lie one inside the other. *)
Fixpoint nesting (v : pyval) : nat :=
  match v with
  | PList l => S (fold_right (fun x n => Nat.max (nesting x) n) 0 l)
  | PDict d => S (fold_right (fun kv n => Nat.max (nesting (snd kv)) n) 0 d)
  | _ => 0
  end.

(** The JSON text of a writable value, as [json.dumps] lays it out: [, ]
    between items and [: ] after a key.  A number is not writable and has
    no text here. *)
Fixpoint write (v : pyval) : string :=
  match v with
  | PNone => "null"
  | PBool true => "true"
  | PBool false => "false"
  | PInt _ | PFloat _ => ""
  | PStr s => q s
  | PList l => "[" ++ join ", " (map write l) ++ "]"
  | PDict d => "{" ++ join ", " (map (fun kv => q (fst kv) ++ ": " ++ write (snd kv)) d) ++ "}"
  end.

(** The text starts, after its blanks, with a character no JSON value starts
    with, or it holds nothing but blanks. *)
Definition opens_no_value (s : string) : bool :=
  match skip_ws s with
  | EmptyString => true
  | String c _ =>
      negb (string_existsb (Ascii.eqb c) ("{[-0123456789tfnNI" ++ String dquote ""))
  end.

(** A decimal integer literal: digits, the first of them not a zero unless
    it is alone. *)
Definition is_integer_literal (s : string) : bool :=
  match s with
  | EmptyString => false
  | String c r =>
      string_forallb is_digit s && (negb (c =? "0")%char || (r =? ""))
  end.

(** [n] times the string [s]. *)
Fixpoint repeat_string (n : nat) (s : string) : string :=
  match n with
  | O => ""
  | S n' => s ++ repeat_string n' s
  end.

(** [v], written and followed by any text, is read back with enough fuel,
    where its nesting has room. *)
Definition reads_back (max_digits : nat) (v : pyval) : Prop :=
  writable v = true ->
  forall depth rest, nesting v <= depth ->
    exists fuel, forall fuel', fuel <= fuel' ->
      parse_value fuel' depth max_digits (write v ++ rest) = inr (v, rest).

(** The organisations one of whose registered domains is a substring of
    [url], in the order of the registry. *)
Definition reference_hits (url : string) : list string :=
  map fst (List.filter (fun entry => existsb (fun domain => contains domain url) (snd entry))
             trusted_sources).

(** The value stored under [research_references] for an article at [url]. *)
Definition references_value (url : string) : pyval :=
  PList (map PStr (match reference_hits url with [] => ["None"] | hits => hits end)).

(** A record the enricher is written for: a dict whose [url] is a [str]. *)
Definition has_url (v : pyval) : Prop :=
  exists d url, v = PDict d /\ dict_get d "url" = Some (PStr url).

(** Two articles, the first of them listed twice. *)
Definition sample_store : store :=
  fun a =>
    match a with
    | O => PDict [("title", PStr "Nature risk"); ("url", PStr "https://tnfd.global/news")]
    | _ => PDict [("url", PStr "https://example.org/story"); ("research_references", PNone)]
    end.

(** [isinstance(v, list)] *)
Definition is_list (v : pyval) : bool :=
  match v with PList _ => true | _ => false end.

(** The keys of the JSON object the prompt asks for. *)
Definition schema_fields : list string :=
  ["title"; "url"; "date"; "source"; "category"; "location"; "summary"; "references";
   "sentiment"; "recommendation"; "financial_impact"].

(** The least a value of the target schema must be: a JSON object with
    every key of the schema. *)
Definition conforms_to_schema (v : pyval) : bool :=
  match v with
  | PDict d => forallb (fun k => match dict_get d k with Some _ => true | None => false end)
                 schema_fields
  | _ => false
  end.

(** The keys the article details view of the dashboard subscripts. *)
Definition details_view_fields : list string :=
  ["title"; "source"; "url"; "date"; "location"; "category"; "sentiment"; "summary";
   "financial_impact"; "recommendation"].

(** Collaborators for a concrete run: a language model that answers every
    prompt with [reply], no named entities, a fixed date, character
    references left as they are (the sample texts hold no ampersand), the
    default limit of 4300 digits for [int], and room for 900 arrays and
    objects one inside the other. *)
Definition env_replying (reply : result string) : Env :=
  {| charref_sub := fun s => s;
     nlp_ents := fun _ => [];
     llm_invoke := fun _ => reply;
     today := "2024-06-01";
     py_repr := fun _ => "";
     int_max_str_digits := 4300;
     parse_depth := 900;
     reply_depth := 900 |}.

(** The StructuredArticle of the flood scenario, tagged by the Reference
    Enricher. *)
Definition sample_article : pyval :=
  PDict [("title", PStr "Flood Risk Update"); ("url", PStr "https://swissre.com/report");
         ("source", PStr "swissre.com"); ("date", PStr "2024-05-01");
         ("location", PStr "Germany"); ("category", PStr "Insurance Exposures");
         ("summary_input", PStr "A flood in Germany on 2024-05-01 caused insured losses.");
         ("full_content", PStr "A flood in Germany on 2024-05-01 caused insured losses.");
         ("research_references", PList [PStr "Swiss Re"])].

(** What [safe_parse_response] makes of a decoded value. *)
Definition by_shape (v : pyval) : pyval :=
  match v with
  | PList _ => v
  | PDict d => match dict_get d "results" with Some r => r | None => PList [] end
  | _ => PList []
  end.

(** Every character of [a] occurs in [b]. *)
Definition chars_within (a b : string) : Prop :=
  forall p, string_existsb p a = true -> string_existsb p b = true.

(** A response with the raw result of the flood scenario and a second one
    that lacks [url] and [source] and has a null title and a number for
    content. *)
Definition sample_response : pyval :=
  PDict [("results",
          PList [PDict [("url", PStr "https://swissre.com/report");
                        ("title", PStr "Flood Risk Update");
                        ("content", PStr "A flood in Germany on 2024-05-01 caused insured losses.")];
                 PDict [("title", PNone); ("content", PInt 7)]])].

(** The integers from [lo], [n] of them. *)
Definition zrange (lo : Z) (n : nat) : list Z :=
  map (fun i => (lo + Z.of_nat i)%Z) (seq 0 n).

(** The year [y] prints as [20] and two digits, which read back as [y]. *)
Definition year_prints (y : Z) : bool :=
  match pad4 y with
  | String a (String b (String c (String e EmptyString))) =>
      (a =? "2")%char && (b =? "0")%char && is_digit c && is_digit e
      && (digits_value 0 (pad4 y) =? y)%Z
  | _ => false
  end.

(** The month [m] and the day [d] print as two digits each, which read
    back as [m] and [d], and [%m-%d] reads them back. *)
Definition month_day_print (m d : Z) : bool :=
  match pad2 m, pad2 d with
  | String m1 (String m2 EmptyString), String d1 (String d2 EmptyString) =>
      is_digit m1 && is_digit m2 && is_digit d1 && is_digit d2
      && (digits_value 0 (pad2 m) =? m)%Z && (digits_value 0 (pad2 d) =? d)%Z
      && match month_day_match (month_alternatives (pad2 m ++ "-" ++ pad2 d)) with
         | Some (m', d', rest) => (m' =? m)%Z && (d' =? d)%Z && (rest =? "")
         | None => false
         end
  | _, _ => false
  end.

(** The raw response of the first end-to-end scenario of the spec. *)
Definition flood_response : pyval :=
  PDict [("results",
          PList [PDict [("url", PStr "https://swissre.com/report");
                        ("title", PStr "Flood Risk Update");
                        ("content",
                         PStr "A flood in Germany on 2024-05-01 caused insured losses.")]])].

(** Collaborators for a concrete run: an entity recogniser that finds [ents]
    in every text. *)
Definition env_with_entities (ents : list (string * string)) : Env :=
  {| charref_sub := fun s => s;
     nlp_ents := fun _ => ents;
     llm_invoke := fun _ => Ok "{}";
     today := "2024-06-01";
     py_repr := fun _ => "";
     int_max_str_digits := 4300;
     parse_depth := 900;
     reply_depth := 900 |}.

(** A word of [str.split()]: not empty, and without a blank. *)
Definition is_word_of_text (w : string) : bool :=
  negb (w =? "") && negb (string_existsb is_space w).

(** A response with one raw result whose content holds markup and a run of
    spaces. *)
Definition marked_up_response : pyval :=
  PDict [("results",
          PList [PDict [("url", PStr "https://swissre.com/report");
                        ("title", PStr "Flood Risk Update");
                        ("content",
                         PStr "A flood in <b>Germany</b> on 2024-05-01 caused insured   losses.")]])].

(** The article the structurer makes of [marked_up_response] when no entity
    is recognised. *)
Definition marked_up_article : pyval :=
  PDict [("title", PStr "Flood Risk Update"); ("url", PStr "https://swissre.com/report");
         ("source", PStr "swissre.com"); ("date", PStr "2024-05-01");
         ("location", PStr "Unknown Location"); ("category", PStr "Insurance Exposures");
         ("summary_input", PStr "A flood in Germany on 2024-05-01 caused insured losses.");
         ("full_content", PStr "A flood in Germany on 2024-05-01 caused insured losses.")].

(** The source the fallback resolves to: the explicit source when it is
    truthy, else the domain of the URL. *)
Definition resolved_source (d : pydict) (source : pyval) : Prop :=
  let explicit := match dict_get d "source" with Some v => v | None => PStr "" end in
  let url := match dict_get d "url" with Some v => v | None => PStr "" end in
  if truthy explicit then source = explicit
  else exists domain, extract_domain_as_source url = Ok domain /\ source = PStr domain.

(** The number of times [x] occurs in [l]. *)
Definition occurrences (x : string) (l : list string) : nat :=
  length (List.filter (String.eqb x) l).

(** The count [counts] holds for [x]: zero when it has none. *)
Fixpoint count_of (counts : list (string * nat)) (x : string) : nat :=
  match counts with
  | [] => 0
  | (y, n) :: rest => if y =? x then n else count_of rest x
  end.

(** The texts of the entities of [text] that are labelled as a place, in the
    order of the document. *)
Definition locations_of (E : Env) (text : string) : list string :=
  map fst (List.filter (fun ent => is_location_label (snd ent)) (nlp_ents E text)).

(** A scheme: a letter, then letters, digits and [+-.]. *)
Definition is_scheme (s : string) : bool :=
  match s with
  | String c _ => is_alpha c && string_forallb scheme_char s
  | EmptyString => false
  end.

(** A character of a network location: a graphic character of ASCII, none
    of [/?#], which end the location, and no square bracket. *)
Definition host_char (c : ascii) : bool :=
  in_range 33 126 c && negb (netloc_end c) && negb (is_bracket c).

(** What may follow the network location: nothing, or a path, a query or a
    fragment. *)
Definition starts_path (rest : string) : bool :=
  match rest with
  | String c _ => netloc_end c
  | EmptyString => true
  end.

(** Tab, line feed and carriage return, which [urlsplit] removes. *)
Definition is_unsafe (c : ascii) : bool :=
  (c =? "009")%char || (c =? "010")%char || (c =? "013")%char.

(** The record of a raw result that names no URL, no title, no source and
    no content. *)
Definition placeholder_article (E : Env) : pyval :=
  PDict [("title", PStr "No Title"); ("url", PStr ""); ("source", PStr "");
         ("date", PStr (today E)); ("location", PStr (extract_location E ""));
         ("category", PStr "Uncategorized"); ("summary_input", PStr "");
         ("full_content", PStr "")].

(** [d] has none of the four keys the structurer reads. *)
Definition names_nothing (raw : pyval) : Prop :=
  exists d, raw = PDict d
    /\ dict_get d "url" = None /\ dict_get d "title" = None
    /\ dict_get d "source" = None /\ dict_get d "content" = None.

(** The text [m] holds a slash. *)
Definition written_with_slash (m : string) : bool :=
  string_existsb (fun c => (c =? "/")%char) m.

(** The first numeric date of [text], where it has one, is written with a
    slash. *)
Definition first_date_has_slash (text : string) : Prop :=
  forall m, search_from match_numeric_at text = Some m -> written_with_slash m = true.

(** A date as the numeric pattern takes it, [20] and two digits, a
    separator, two digits, a separator and two digits, with a slash for one
    separator at least. *)
Definition slash_date (m : string) : bool :=
  match m with
  | String a (String b (String c (String e (String s1 (String m1 (String m2
      (String s2 (String d1 (String d2 EmptyString))))))))) =>
      (a =? "2")%char && (b =? "0")%char && is_digit c && is_digit e && is_sep s1
      && is_digit m1 && is_digit m2 && is_sep s2 && is_digit d1 && is_digit d2
      && ((s1 =? "/")%char || (s2 =? "/")%char)
  | _ => false
  end.

(** [text] holds no dash, or the first thing in it that starts with a [2]
    is a date with a slash. *)
Definition slash_date_first (text : string) : Prop :=
  free_of "-" text = true
  \/ exists pre m post,
       text = pre ++ m ++ post /\ free_of "2" pre = true /\ slash_date m = true.

(** The keys of the article the prompt is built from. *)
Definition prompt_fields : list string :=
  ["title"; "url"; "date"; "source"; "summary_input"; "full_content"].

(** [v[:3000]] is defined. *)
Definition sliceable (v : pyval) : bool :=
  match v with
  | PStr _ | PList _ => true
  | _ => false
  end.

(** The value holds no results: it is no list, and no dict with the key
    [results]. *)
Definition no_results (v : pyval) : bool :=
  match v with
  | PList _ => false
  | PDict d => match dict_get d "results" with Some _ => false | None => true end
  | _ => true
  end.

(** The response is of a shape the parser has no results for: a value that
    is no string and holds no results; a string that is no JSON, or that
    decodes to a value that holds no results. *)
Definition carries_no_results (E : Env) (response : pyval) : bool :=
  match response with
  | PStr s =>
      match json_loads (int_max_str_digits E) (parse_depth E) s with
      | inl JSONDecodeError => true
      | inl _ => false
      | inr v => no_results v
      end
  | _ => no_results response
  end.

(** A raw result the structurer cannot take: a value that is no dict, or a
    dict whose [url] is not a string. *)
Definition malformed (raw : pyval) : bool :=
  match raw with
  | PDict d =>
      match dict_get d "url" with
      | Some (PStr _) | None => false
      | Some _ => true
      end
  | _ => true
  end.

(** * Theorems *)

(** ** Results, strings, dictionaries and the store *)

Lemma Ok_inj {A : Type} (x y : A) : Ok x = Ok y -> x = y.
Proof. intros H. injection H as H. exact H. Qed.

Lemma append_assoc (a b c : string) : (a ++ b) ++ c = a ++ (b ++ c).
Proof. induction a as [|x a IH]; simpl; [reflexivity|now rewrite IH]. Qed.

Lemma prefix_app_l n a b : String.prefix n a = true -> String.prefix n (a ++ b) = true.
Proof.
  revert a. induction n as [|c n IH]; intros a H; [destruct (a ++ b); reflexivity|].
  destruct a as [|c' a]; [discriminate|]. simpl in *.
  destruct (ascii_dec c c'); [auto|discriminate].
Qed.

(** A substring of [a] is a substring of [a ++ b]. *)
Lemma contains_app_l n a b : contains n a = true -> contains n (a ++ b) = true.
Proof.
  induction a as [|c a IH]; cbn [contains append]; intros H.
  - rewrite orb_false_r in H. destruct n; [|discriminate].
    destruct b; reflexivity.
  - apply orb_true_iff in H as [H|H].
    + apply (prefix_app_l _ _ b) in H. cbn [append] in H. now rewrite H.
    + rewrite (IH H). apply orb_true_r.
Qed.

Lemma prefix_split n h : String.prefix n h = true <-> exists post, h = n ++ post.
Proof.
  revert h. induction n as [|c n IH]; intros h.
  - split; [intros _; exists h; reflexivity|intros _; destruct h; reflexivity].
  - destruct h as [|c' h]; cbn [String.prefix append].
    + split; [discriminate|intros [post H]; discriminate].
    + destruct (ascii_dec c c') as [->|Hne].
      * rewrite IH. split; intros [post H]; exists post; congruence.
      * split; [discriminate|intros [post H]; congruence].
Qed.

(** [needle in hay] says that [hay] is some text, [needle], and some text. *)
Lemma contains_split n h : contains n h = true <-> exists pre post, h = pre ++ n ++ post.
Proof.
  induction h as [|c h IH]; cbn [contains].
  - rewrite orb_false_r, prefix_split. split.
    + intros [post H]. exists "", post. exact H.
    + intros (pre & post & H). destruct pre; [exists post; exact H|discriminate].
  - rewrite orb_true_iff, prefix_split, IH. split.
    + intros [[post H]|(pre & post & H)].
      * exists "", post. exact H.
      * exists (String c pre), post. cbn [append]. now rewrite H.
    + intros (pre & post & H). destruct pre as [|c' pre].
      * left. exists post. exact H.
      * right. exists pre, post. cbn [append] in H. congruence.
Qed.

(** Reading back the key that was set. *)
Lemma dict_get_set_eq d k v : dict_get (dict_set d k v) k = Some v.
Proof.
  induction d as [|[k0 v0] d IH]; simpl.
  - now rewrite String.eqb_refl.
  - destruct (String.eqb_spec k0 k) as [->|Hk]; simpl.
    + now rewrite String.eqb_refl.
    + destruct (String.eqb_spec k0 k); congruence.
Qed.

(** Setting a key leaves the other keys alone. *)
Lemma dict_get_set_ne d k k' v :
  k <> k' -> dict_get (dict_set d k v) k' = dict_get d k'.
Proof.
  intros Hne. induction d as [|[k0 v0] d IH]; simpl.
  - destruct (String.eqb_spec k k'); congruence.
  - destruct (String.eqb_spec k0 k) as [->|Hk]; simpl.
    + destruct (String.eqb_spec k k'); congruence.
    + destruct (String.eqb_spec k0 k'); auto.
Qed.

Lemma dict_set_set d k v v' : dict_set (dict_set d k v) k v' = dict_set d k v'.
Proof.
  induction d as [|[k0 v0] d IH]; simpl.
  - now rewrite String.eqb_refl.
  - destruct (String.eqb_spec k0 k) as [->|Hk]; simpl.
    + now rewrite String.eqb_refl.
    + destruct (String.eqb_spec k0 k); congruence.
Qed.

(** A key that is set keeps its place; a new key goes last. *)
Lemma dict_keys_set d k v :
  dict_keys (dict_set d k v)
  = match dict_get d k with Some _ => dict_keys d | None => (dict_keys d ++ [k])%list end.
Proof.
  unfold dict_keys. induction d as [|[k0 v0] d IH]; simpl; [reflexivity|].
  destruct (String.eqb_spec k0 k) as [->|Hk]; simpl; [reflexivity|].
  rewrite IH. destruct (dict_get d k); reflexivity.
Qed.

Lemma store_set_eq h a v : store_set h a v a = v.
Proof. unfold store_set. now rewrite Nat.eqb_refl. Qed.

Lemma store_set_ne h a b v : b <> a -> store_set h a v b = h b.
Proof.
  intros Hne. unfold store_set. destruct (Nat.eqb_spec b a); congruence.
Qed.

(** ** The decoder and its fuel *)

(** *** The decoder never runs out of fuel *)

Lemma skip_ws_length s : String.length (skip_ws s) <= String.length s.
Proof.
  induction s as [|c s IH]; simpl; [lia|]. destruct (json_ws c); simpl; lia.
Qed.

Lemma with_prefix_some p r t rest :
  with_prefix p r = Some (t, rest) -> exists t', r = Some (t', rest).
Proof. destruct r as [[t' rest']|]; [|discriminate]. intros [= _ <-]. eauto. Qed.

Lemma scan_string_length_bounded n :
  forall s t rest,
    String.length s <= n -> scan_string s = Some (t, rest) ->
    String.length rest < String.length s.
Proof.
  induction n as [|n IH]; intros s t rest Hn; (destruct s as [|c r]; [discriminate|]);
    cbn [String.length] in Hn; [lia|].
  cbn [scan_string].
  assert (Hsub : forall s' t', String.length s' <= String.length r ->
                               with_prefix t' (scan_string s') = Some (t, rest) ->
                               String.length rest < String.length (String c r)).
  { intros s' t' Hlen H. apply with_prefix_some in H as [t'' H].
    apply IH in H; cbn [String.length] in *; lia. }
  destruct (c =? dquote)%char; [intros [= _ <-]; simpl; lia|].
  destruct (c =? backslash)%char.
  - destruct r as [|e r1]; [discriminate|].
    destruct (e =? "u")%char.
    + destruct r1 as [|h1 [|h2 [|h3 [|h4 r2]]]]; try discriminate.
      destruct (hex4 h1 h2 h3 h4) as [hi|]; [|discriminate].
      destruct r2 as [|b [|u [|l1 [|l2 [|l3 [|l4 r3]]]]]];
        try (apply Hsub; cbn [String.length]; lia).
      destruct (hex4 l1 l2 l3 l4) as [lo|]; [|apply Hsub; cbn [String.length]; lia].
      destruct (_ && _); apply Hsub; cbn [String.length]; lia.
    + destruct (simple_escape e); [|discriminate]. apply Hsub. cbn [String.length]. lia.
  - destruct (code c <? 32)%nat; [discriminate|]. apply Hsub. lia.
Qed.

Lemma scan_string_length s t rest :
  scan_string s = Some (t, rest) -> String.length rest < String.length s.
Proof. apply (scan_string_length_bounded (String.length s)). lia. Qed.

Lemma span_length p s : String.length (snd (span p s)) <= String.length s.
Proof.
  induction s as [|c s IH]; simpl; [lia|].
  destruct (p c); [|simpl; lia]. destruct (span p s). simpl in *. lia.
Qed.

Lemma strip_prefix_length p s r :
  strip_prefix p s = Some r -> String.length r <= String.length s.
Proof.
  revert s. induction p as [|a p IH]; intros s; cbn [strip_prefix].
  - intros [= <-]. lia.
  - destruct s as [|b s]; [discriminate|]. destruct (a =? b)%char; [|discriminate].
    intros H. apply IH in H. simpl. lia.
Qed.

Lemma take_minus_length s : String.length (snd (take_minus s)) <= String.length s.
Proof. destruct s as [|c r]; simpl; [lia|]. destruct (c =? "-")%char; simpl; lia. Qed.

Lemma take_integer_length s : String.length (snd (take_integer s)) <= String.length s.
Proof.
  destruct s as [|c r]; cbn [take_integer]; [simpl; lia|].
  destruct (c =? "0")%char; [simpl; lia|].
  destruct (is_digit c); [apply span_length|simpl; lia].
Qed.

Lemma take_fraction_length s : String.length (snd (take_fraction s)) <= String.length s.
Proof.
  destruct s as [|c r]; cbn [take_fraction]; [simpl; lia|].
  destruct (c =? ".")%char; [|simpl; lia].
  pose proof (span_length is_digit r). destruct (span is_digit r) as [ds r'].
  destruct (ds =? ""); simpl in *; lia.
Qed.

Lemma take_sign_length s : String.length (snd (take_sign s)) <= String.length s.
Proof.
  destruct s as [|c r]; simpl; [lia|].
  destruct (c =? "-")%char; [simpl; lia|]. destruct (c =? "+")%char; simpl; lia.
Qed.

Lemma take_exponent_length s : String.length (snd (take_exponent s)) <= String.length s.
Proof.
  destruct s as [|c r]; cbn [take_exponent]; [simpl; lia|].
  destruct ((c =? "e")%char || (c =? "E")%char); [|simpl; lia].
  pose proof (take_sign_length r). destruct (take_sign r) as [minus r1].
  pose proof (span_length is_digit r1). destruct (span is_digit r1) as [ds r2].
  destruct (ds =? ""); simpl in *; lia.
Qed.

Lemma scan_number_length max_digits s v r :
  scan_number max_digits s = Some (inr (v, r)) -> String.length r <= String.length s.
Proof.
  unfold scan_number.
  pose proof (take_minus_length s). destruct (take_minus s) as [negative s1].
  pose proof (take_integer_length s1). destruct (take_integer s1) as [int_digits s2].
  destruct (int_digits =? ""); [discriminate|].
  pose proof (take_fraction_length s2). destruct (take_fraction s2) as [frac_digits s3].
  pose proof (take_exponent_length s3). destruct (take_exponent s3) as [exponent s4].
  simpl in *. destruct frac_digits, exponent;
    try destruct (too_many_digits max_digits int_digits); intros [= _ <-]; lia.
Qed.

Lemma scan_atom_length max_digits s v r :
  scan_atom max_digits s = inr (v, r) -> String.length r <= String.length s.
Proof.
  unfold scan_atom.
  repeat match goal with
         | |- context [strip_prefix ?p s] =>
             let H := fresh "H" in
             destruct (strip_prefix p s) eqn:H;
             [apply strip_prefix_length in H; intros [= _ <-]; exact H|]
         | |- context [scan_number max_digits s] =>
             let H := fresh "H" in
             destruct (scan_number max_digits s) as [[err|[v' r']]|] eqn:H;
             [discriminate|apply scan_number_length in H; intros [= _ <-]; exact H|]
         end.
  discriminate.
Qed.

(** None of the three parsers hands back more than it was given. *)
Lemma parse_length max_digits fuel :
  (forall depth s v r,
     parse_value fuel depth max_digits s = inr (v, r) -> String.length r <= String.length s)
  /\ (forall depth s l r,
        parse_elems fuel depth max_digits s = inr (l, r) ->
        String.length r <= String.length s)
  /\ (forall depth s l r,
        parse_members fuel depth max_digits s = inr (l, r) ->
        String.length r <= String.length s).
Proof.
  induction fuel as [|fuel (IHv & IHe & IHm)]; [repeat split; discriminate|].
  split; [|split].
  - intros depth s v r. cbn [parse_value]. destruct s as [|c s']; [discriminate|].
    destruct (c =? dquote)%char.
    { destruct (scan_string s') as [[t r']|] eqn:Hs; [|discriminate].
      apply scan_string_length in Hs. intros [= _ <-]. simpl. lia. }
    destruct (c =? "{")%char.
    { destruct depth as [|depth']; [discriminate|].
      pose proof (skip_ws_length s') as Hw. destruct (skip_ws s') as [|c1 r1]; [discriminate|].
      destruct (c1 =? "}")%char; [intros [= _ <-]; simpl in *; lia|].
      destruct (parse_members fuel depth' max_digits (String c1 r1)) as [err|[pairs r2]] eqn:Hm;
        [discriminate|].
      apply IHm in Hm. intros [= _ <-]. simpl in *. lia. }
    destruct (c =? "[")%char.
    { destruct depth as [|depth']; [discriminate|].
      pose proof (skip_ws_length s') as Hw. destruct (skip_ws s') as [|c1 r1]; [discriminate|].
      destruct (c1 =? "]")%char; [intros [= _ <-]; simpl in *; lia|].
      destruct (parse_elems fuel depth' max_digits (String c1 r1)) as [err|[l r2]] eqn:He;
        [discriminate|].
      apply IHe in He. intros [= _ <-]. simpl in *. lia. }
    apply scan_atom_length.
  - intros depth s l r. cbn [parse_elems].
    destruct (parse_value fuel depth max_digits s) as [err|[v r0]] eqn:Hv; [discriminate|].
    apply IHv in Hv.
    pose proof (skip_ws_length r0) as Hw. destruct (skip_ws r0) as [|c r1]; [discriminate|].
    destruct (c =? "]")%char; [intros [= _ <-]; simpl in *; lia|].
    destruct (c =? ",")%char; [|discriminate].
    pose proof (skip_ws_length r1) as Hw1.
    destruct (parse_elems fuel depth max_digits (skip_ws r1)) as [err|[l' r2]] eqn:He;
      [discriminate|].
    apply IHe in He. intros [= _ <-]. simpl in *. lia.
  - intros depth s l r. cbn [parse_members]. destruct s as [|qc s']; [discriminate|].
    destruct (qc =? dquote)%char; [|discriminate].
    destruct (scan_string s') as [[k r1]|] eqn:Hs; [|discriminate].
    apply scan_string_length in Hs.
    pose proof (skip_ws_length r1) as Hw1. destruct (skip_ws r1) as [|colon r2]; [discriminate|].
    destruct (colon =? ":")%char; [|discriminate].
    pose proof (skip_ws_length r2) as Hw2.
    destruct (parse_value fuel depth max_digits (skip_ws r2)) as [err|[v r3]] eqn:Hv;
      [discriminate|].
    apply IHv in Hv.
    pose proof (skip_ws_length r3) as Hw3. destruct (skip_ws r3) as [|c r4]; [discriminate|].
    destruct (c =? "}")%char; [intros [= _ <-]; simpl in *; lia|].
    destruct (c =? ",")%char; [|discriminate].
    pose proof (skip_ws_length r4) as Hw4.
    destruct (parse_members fuel depth max_digits (skip_ws r4)) as [err|[l' r5]] eqn:Hm;
      [discriminate|].
    apply IHm in Hm. intros [= _ <-]. simpl in *. lia.
Qed.

(** One step of each parser, as an equation. *)
Lemma parse_value_S fuel depth max_digits s :
  parse_value (S fuel) depth max_digits s =
  match s with
  | EmptyString => inl JSONDecodeError
  | String c r =>
      if (c =? dquote)%char then
        match scan_string r with
        | Some (t, r') => inr (PStr t, r')
        | None => inl JSONDecodeError
        end
      else if (c =? "{")%char then
        match depth with
        | O => inl NestingTooDeep
        | S depth' =>
            match skip_ws r with
            | String c1 r1 =>
                if (c1 =? "}")%char then inr (PDict [], r1)
                else
                  match parse_members fuel depth' max_digits (String c1 r1) with
                  | inr (pairs, r2) => inr (PDict (dict_of_pairs pairs), r2)
                  | inl err => inl err
                  end
            | EmptyString => inl JSONDecodeError
            end
        end
      else if (c =? "[")%char then
        match depth with
        | O => inl NestingTooDeep
        | S depth' =>
            match skip_ws r with
            | String c1 r1 =>
                if (c1 =? "]")%char then inr (PList [], r1)
                else
                  match parse_elems fuel depth' max_digits (String c1 r1) with
                  | inr (l, r2) => inr (PList l, r2)
                  | inl err => inl err
                  end
            | EmptyString => inl JSONDecodeError
            end
        end
      else scan_atom max_digits s
  end.
Proof. reflexivity. Qed.

Lemma parse_elems_S fuel depth max_digits s :
  parse_elems (S fuel) depth max_digits s =
  match parse_value fuel depth max_digits s with
  | inl err => inl err
  | inr (v, r) =>
      match skip_ws r with
      | String c r1 =>
          if (c =? "]")%char then inr ([v], r1)
          else if (c =? ",")%char then
            match parse_elems fuel depth max_digits (skip_ws r1) with
            | inr (l, r2) => inr (v :: l, r2)
            | inl err => inl err
            end
          else inl JSONDecodeError
      | EmptyString => inl JSONDecodeError
      end
  end.
Proof. reflexivity. Qed.

Lemma parse_members_S fuel depth max_digits s :
  parse_members (S fuel) depth max_digits s =
  match s with
  | EmptyString => inl JSONDecodeError
  | String q r =>
      if (q =? dquote)%char then
        match scan_string r with
        | None => inl JSONDecodeError
        | Some (k, r1) =>
            match skip_ws r1 with
            | String colon r2 =>
                if (colon =? ":")%char then
                  match parse_value fuel depth max_digits (skip_ws r2) with
                  | inl err => inl err
                  | inr (v, r3) =>
                      match skip_ws r3 with
                      | String c r4 =>
                          if (c =? "}")%char then inr ([(k, v)], r4)
                          else if (c =? ",")%char then
                            match parse_members fuel depth max_digits (skip_ws r4) with
                            | inr (l, r5) => inr ((k, v) :: l, r5)
                            | inl err => inl err
                            end
                          else inl JSONDecodeError
                      | EmptyString => inl JSONDecodeError
                      end
                  end
                else inl JSONDecodeError
            | EmptyString => inl JSONDecodeError
            end
        end
      else inl JSONDecodeError
  end.
Proof. reflexivity. Qed.

(** A reading that ends otherwise than for want of text or fuel, with a
    value or with one of the two other failures, ends the same way with one
    more unit of fuel. *)
Lemma parse_fuel_step max_digits fuel :
  (forall depth s,
     parse_value fuel depth max_digits s <> inl JSONDecodeError ->
     parse_value (S fuel) depth max_digits s = parse_value fuel depth max_digits s)
  /\ (forall depth s,
        parse_elems fuel depth max_digits s <> inl JSONDecodeError ->
        parse_elems (S fuel) depth max_digits s = parse_elems fuel depth max_digits s)
  /\ (forall depth s,
        parse_members fuel depth max_digits s <> inl JSONDecodeError ->
        parse_members (S fuel) depth max_digits s = parse_members fuel depth max_digits s).
Proof.
  induction fuel as [|fuel (IHv & IHe & IHm)]; [repeat split; intros depth s H; now elim H|].
  split; [|split]; intros depth s.
  - rewrite (parse_value_S fuel), (parse_value_S (S fuel)).
    destruct s as [|c r]; [reflexivity|].
    destruct (c =? dquote)%char; [reflexivity|].
    destruct (c =? "{")%char.
    { destruct depth as [|depth']; [reflexivity|].
      destruct (skip_ws r) as [|c1 r1]; [reflexivity|].
      destruct (c1 =? "}")%char; [reflexivity|]. intros H.
      rewrite IHm; [reflexivity|]. intros Hm. rewrite Hm in H. now elim H. }
    destruct (c =? "[")%char; [|reflexivity].
    destruct depth as [|depth']; [reflexivity|].
    destruct (skip_ws r) as [|c1 r1]; [reflexivity|].
    destruct (c1 =? "]")%char; [reflexivity|]. intros H.
    rewrite IHe; [reflexivity|]. intros He. rewrite He in H. now elim H.
  - rewrite (parse_elems_S fuel), (parse_elems_S (S fuel)). intros H.
    rewrite IHv; [|intros Hv; rewrite Hv in H; now elim H].
    destruct (parse_value fuel depth max_digits s) as [err|[v r]]; [reflexivity|].
    destruct (skip_ws r) as [|c r1]; [reflexivity|].
    destruct (c =? "]")%char; [reflexivity|].
    destruct (c =? ",")%char; [|reflexivity].
    rewrite IHe; [reflexivity|]. intros He. rewrite He in H. now elim H.
  - rewrite (parse_members_S fuel), (parse_members_S (S fuel)).
    destruct s as [|q r]; [reflexivity|].
    destruct (q =? dquote)%char; [|reflexivity].
    destruct (scan_string r) as [[k r1]|]; [|reflexivity].
    destruct (skip_ws r1) as [|colon r2]; [reflexivity|].
    destruct (colon =? ":")%char; [|reflexivity]. intros H.
    rewrite IHv; [|intros Hv; rewrite Hv in H; now elim H].
    destruct (parse_value fuel depth max_digits (skip_ws r2)) as [err|[v r3]]; [reflexivity|].
    destruct (skip_ws r3) as [|c r4]; [reflexivity|].
    destruct (c =? "}")%char; [reflexivity|].
    destruct (c =? ",")%char; [|reflexivity].
    rewrite IHm; [reflexivity|]. intros Hm. rewrite Hm in H. now elim H.
Qed.

Lemma parse_value_fuel_mono max_digits depth n m s :
  n <= m -> parse_value n depth max_digits s <> inl JSONDecodeError ->
  parse_value m depth max_digits s = parse_value n depth max_digits s.
Proof.
  induction 1 as [|m _ IH]; [reflexivity|].
  intros Hn. rewrite <- (IH Hn). apply parse_fuel_step. rewrite (IH Hn). exact Hn.
Qed.

(** Past twice the length of the text, one more unit of fuel changes
    nothing: a value needs [2 * length + 1], a sequence of elements or of
    members one more. *)
Lemma parse_fuel_stable max_digits fuel :
  (forall depth s, 2 * String.length s + 1 <= fuel ->
     parse_value fuel depth max_digits s = parse_value (S fuel) depth max_digits s)
  /\ (forall depth s, 2 * String.length s + 2 <= fuel ->
        parse_elems fuel depth max_digits s = parse_elems (S fuel) depth max_digits s)
  /\ (forall depth s, 2 * String.length s + 2 <= fuel ->
        parse_members fuel depth max_digits s = parse_members (S fuel) depth max_digits s).
Proof.
  induction fuel as [|fuel (IHv & IHe & IHm)]; [repeat split; intros depth s Hs; lia|].
  split; [|split]; intros depth s Hs.
  - rewrite (parse_value_S fuel), (parse_value_S (S fuel)).
    destruct s as [|c r]; [reflexivity|]. simpl in Hs.
    pose proof (skip_ws_length r) as Hw.
    destruct (c =? dquote)%char; [reflexivity|].
    destruct (c =? "{")%char.
    { destruct depth as [|depth']; [reflexivity|].
      destruct (skip_ws r) as [|c1 r1]; [reflexivity|].
      destruct (c1 =? "}")%char; [reflexivity|].
      rewrite <- IHm; [reflexivity|simpl in *; lia]. }
    destruct (c =? "[")%char; [|reflexivity].
    destruct depth as [|depth']; [reflexivity|].
    destruct (skip_ws r) as [|c1 r1]; [reflexivity|].
    destruct (c1 =? "]")%char; [reflexivity|].
    rewrite <- IHe; [reflexivity|simpl in *; lia].
  - rewrite (parse_elems_S fuel), (parse_elems_S (S fuel)).
    rewrite <- IHv by lia.
    destruct (parse_value fuel depth max_digits s) as [err|[v r]] eqn:Hv; [reflexivity|].
    apply (proj1 (parse_length max_digits fuel)) in Hv.
    pose proof (skip_ws_length r) as Hw.
    destruct (skip_ws r) as [|c r1]; [reflexivity|].
    destruct (c =? "]")%char; [reflexivity|].
    destruct (c =? ",")%char; [|reflexivity].
    pose proof (skip_ws_length r1) as Hw1.
    rewrite <- IHe; [reflexivity|simpl in *; lia].
  - rewrite (parse_members_S fuel), (parse_members_S (S fuel)).
    destruct s as [|q r]; [reflexivity|]. simpl in Hs.
    destruct (q =? dquote)%char; [|reflexivity].
    destruct (scan_string r) as [[k r1]|] eqn:Hk; [|reflexivity].
    apply scan_string_length in Hk.
    pose proof (skip_ws_length r1) as Hw1.
    destruct (skip_ws r1) as [|colon r2]; [reflexivity|].
    destruct (colon =? ":")%char; [|reflexivity].
    pose proof (skip_ws_length r2) as Hw2.
    rewrite <- IHv by (simpl in *; lia).
    destruct (parse_value fuel depth max_digits (skip_ws r2)) as [err|[v r3]] eqn:Hv;
      [reflexivity|].
    apply (proj1 (parse_length max_digits fuel)) in Hv.
    pose proof (skip_ws_length r3) as Hw3.
    destruct (skip_ws r3) as [|c r4]; [reflexivity|].
    destruct (c =? "}")%char; [reflexivity|].
    destruct (c =? ",")%char; [|reflexivity].
    pose proof (skip_ws_length r4) as Hw4.
    rewrite <- IHm; [reflexivity|simpl in *; lia].
Qed.

Lemma parse_value_fuel_enough max_digits depth n s :
  2 * String.length s + 1 <= n ->
  parse_value n depth max_digits s
  = parse_value (2 * String.length s + 1) depth max_digits s.
Proof.
  induction 1 as [|m Hm IH]; [reflexivity|].
  rewrite <- IH. symmetry. apply parse_fuel_stable, Hm.
Qed.

(** The fuel [json_loads] gives its parser is never what makes it fail: a
    reading of the text that ends with a value, or with a failure other than
    a [JSONDecodeError], with any fuel ends the same way with the fuel of
    [json_loads]. *)
Lemma json_loads_fuel_suffices max_digits depth s n :
  parse_value n depth max_digits (skip_ws s) <> inl JSONDecodeError ->
  parse_value (2 * String.length s + 2) depth max_digits (skip_ws s)
  = parse_value n depth max_digits (skip_ws s).
Proof.
  intros Hn. pose proof (skip_ws_length s) as Hw.
  destruct (Nat.le_gt_cases n (2 * String.length s + 2)) as [Hle|Hgt].
  - exact (parse_value_fuel_mono _ _ _ _ _ Hle Hn).
  - rewrite parse_value_fuel_enough by lia.
    rewrite <- (parse_value_fuel_enough _ _ n) by lia. reflexivity.
Qed.

(** ** What the decoder reads back *)

(** *** Written values *)

(** Induction on a value, through its lists and its dicts. *)
Lemma pyval_nested_ind (P : pyval -> Prop) :
  P PNone -> (forall b, P (PBool b)) -> (forall z, P (PInt z)) -> (forall f, P (PFloat f)) ->
  (forall s, P (PStr s)) ->
  (forall l, Forall P l -> P (PList l)) ->
  (forall d, Forall (fun kv => P (snd kv)) d -> P (PDict d)) ->
  forall v, P v.
Proof.
  intros HNone HBool HInt HFloat HStr HList HDict. fix IH 1. intros v.
  destruct v as [|b|z|f|s|l|d];
    [exact HNone|exact (HBool b)|exact (HInt z)|exact (HFloat f)|exact (HStr s)| |].
  - apply HList. induction l as [|x l IHl]; constructor; [apply IH|exact IHl].
  - apply HDict. induction d as [|[k x] d IHd]; constructor; [apply IH|exact IHd].
Qed.

Lemma scan_string_plain s rest :
  plain s = true -> scan_string (s ++ String dquote rest) = Some (s, rest).
Proof.
  unfold plain. induction s as [|c s IH]; intros Hs.
  - cbn [append scan_string]. rewrite Ascii.eqb_refl. reflexivity.
  - cbn [string_forallb] in Hs. apply andb_prop in Hs as [Hc Hs].
    unfold plain_char in Hc. apply andb_prop in Hc as [Hc Hb]. apply andb_prop in Hc as [Hc Hq].
    apply negb_true_iff in Hq, Hb.
    cbn [append scan_string]. rewrite Hq, Hb.
    assert (Hlow : (code c <? 32)%nat = false).
    { unfold in_range in Hc. apply andb_prop in Hc as [Hc _]. apply Nat.leb_le in Hc.
      apply Nat.ltb_ge. exact Hc. }
    rewrite Hlow, (IH Hs). reflexivity.
Qed.

Lemma dict_set_fresh d k v :
  existsb (String.eqb k) (map fst d) = false -> dict_set d k v = (d ++ [(k, v)])%list.
Proof.
  induction d as [|[k' v'] d IH]; [reflexivity|]. cbn [map fst existsb dict_set app].
  intros H. apply orb_false_elim in H as [Hk Hd]. rewrite String.eqb_sym, Hk, (IH Hd).
  reflexivity.
Qed.

Lemma dict_of_pairs_distinct d : distinct (map fst d) = true -> dict_of_pairs d = d.
Proof.
  unfold dict_of_pairs.
  assert (H : forall acc,
            distinct (map fst (acc ++ d)%list) = true ->
            fold_left (fun d kv => dict_set d (fst kv) (snd kv)) d acc = (acc ++ d)%list).
  { induction d as [|[k v] d IH]; intros acc Hacc; [now rewrite app_nil_r|].
    cbn [fold_left fst snd]. rewrite dict_set_fresh.
    - rewrite IH; rewrite <- app_assoc; [reflexivity|exact Hacc].
    - clear IH. induction acc as [|[k' v'] acc IHacc]; [reflexivity|].
      cbn [app map fst distinct existsb] in Hacc |- *.
      apply andb_prop in Hacc as [Hk' Hacc]. rewrite (IHacc Hacc), orb_false_r.
      apply negb_true_iff in Hk'. rewrite map_app, existsb_app in Hk'.
      apply orb_false_elim in Hk' as [_ Hk']. cbn [map fst existsb] in Hk'.
      apply orb_false_elim in Hk' as [Hk' _]. rewrite String.eqb_sym. exact Hk'. }
  intros Hd. exact (H [] Hd).
Qed.

Lemma write_not_blank v rest :
  writable v = true -> skip_ws (write v ++ rest) = write v ++ rest.
Proof. destruct v as [|[]| | |s|l|d]; try discriminate; reflexivity. Qed.

Lemma join_cons2 sep x y l : join sep (x :: y :: l) = x ++ sep ++ join sep (y :: l).
Proof. reflexivity. Qed.

Lemma read_elems max_digits depth l :
  l <> [] -> Forall (reads_back max_digits) l -> forallb writable l = true ->
  Forall (fun x => nesting x <= depth) l ->
  forall rest,
    exists fuel, forall fuel', fuel <= fuel' ->
      parse_elems fuel' depth max_digits (join ", " (map write l) ++ String "]" rest)
      = inr (l, rest).
Proof.
  intros Hne Hall. induction Hall as [|x l Hx Hall IH]; [congruence|]. clear Hne.
  cbn [forallb]. intros Hw Hn. apply andb_prop in Hw as [Hwx Hwl].
  inversion Hn as [|? ? Hnx Hnl]; subst. intros rest.
  destruct l as [|y l'].
  - cbn [map join]. destruct (Hx Hwx depth (String "]" rest) Hnx) as [fuel Hfuel].
    exists (S fuel). intros [|fuel'] Hle; [lia|]. rewrite parse_elems_S.
    rewrite Hfuel by lia. reflexivity.
  - destruct (IH ltac:(discriminate) Hwl Hnl rest) as [fuel2 Hfuel2].
    cbn [map]. rewrite join_cons2. rewrite !append_assoc.
    change (map write (y :: l')) with (write y :: map write l') in Hfuel2.
    destruct (Hx Hwx depth (", " ++ join ", " (write y :: map write l') ++ String "]" rest) Hnx)
      as [fuel1 Hfuel1].
    exists (S (Nat.max fuel1 fuel2)). intros [|fuel'] Hle; [lia|]. rewrite parse_elems_S.
    rewrite Hfuel1 by lia.
    change (skip_ws (", " ++ join ", " (write y :: map write l') ++ String "]" rest))
      with (String "," (String " " (join ", " (write y :: map write l') ++ String "]" rest))).
    cbv iota. change (("," =? "]")%char) with false. change (("," =? ",")%char) with true.
    cbv iota.
    assert (Hskip : skip_ws (String " " (join ", " (write y :: map write l') ++ String "]" rest))
                    = join ", " (write y :: map write l') ++ String "]" rest).
    { change (skip_ws (String " " ?t)) with (skip_ws t).
      cbn [forallb] in Hwl. apply andb_prop in Hwl as [Hwy _].
      destruct l' as [|z l'']; cbn [map join].
      - apply write_not_blank, Hwy.
      - rewrite !append_assoc. apply write_not_blank, Hwy. }
    rewrite Hskip, Hfuel2 by lia. reflexivity.
Qed.

Lemma read_members max_digits depth (d : list (string * pyval)) :
  d <> [] -> Forall (fun kv => reads_back max_digits (snd kv)) d ->
  forallb (fun kv => plain (fst kv) && writable (snd kv)) d = true ->
  Forall (fun kv => nesting (snd kv) <= depth) d ->
  forall rest,
    exists fuel, forall fuel', fuel <= fuel' ->
      parse_members fuel' depth max_digits
        (join ", " (map (fun kv => q (fst kv) ++ ": " ++ write (snd kv)) d) ++ String "}" rest)
      = inr (d, rest).
Proof.
  intros Hne Hall. induction Hall as [|[k x] d Hx Hall IH]; [congruence|]. clear Hne.
  cbn [forallb fst snd] in *. intros Hw Hn. apply andb_prop in Hw as [Hwx Hwd].
  apply andb_prop in Hwx as [Hk Hwx].
  inversion Hn as [|? ? Hnx Hnd]; subst. cbn [snd] in Hnx. intros rest.
  assert (Hkey : forall tail,
            q k ++ ": " ++ write x ++ tail
            = String dquote (k ++ String dquote (String ":" (String " " (write x ++ tail))))).
  { intros tail. unfold q. cbn [append]. rewrite !append_assoc. reflexivity. }
  destruct d as [|[k' y] d'].
  - cbn [map join fst snd]. rewrite !append_assoc, Hkey.
    destruct (Hx Hwx depth (String "}" rest) Hnx) as [fuel Hfuel].
    exists (S fuel). intros [|fuel'] Hle; [lia|]. rewrite parse_members_S.
    rewrite Ascii.eqb_refl, (scan_string_plain _ _ Hk).
    change (skip_ws (String ":" ?t)) with (String ":" t). cbv iota.
    change ((":" =? ":")%char) with true. cbv iota.
    change (skip_ws (String " " ?t)) with (skip_ws t).
    rewrite (write_not_blank _ _ Hwx), Hfuel by lia. reflexivity.
  - destruct (IH ltac:(discriminate) Hwd Hnd rest) as [fuel2 Hfuel2].
    cbn [map fst snd] in Hfuel2 |- *. rewrite join_cons2. rewrite !append_assoc.
    rewrite Hkey.
    set (tail := join ", " ((q k' ++ ": " ++ write y)
                            :: map (fun kv => q (fst kv) ++ ": " ++ write (snd kv)) d')
                 ++ String "}" rest) in *.
    destruct (Hx Hwx depth (", " ++ tail) Hnx) as [fuel1 Hfuel1].
    exists (S (Nat.max fuel1 fuel2)). intros [|fuel'] Hle; [lia|]. rewrite parse_members_S.
    rewrite Ascii.eqb_refl, (scan_string_plain _ _ Hk).
    change (skip_ws (String ":" ?t)) with (String ":" t). cbv iota.
    change ((":" =? ":")%char) with true. cbv iota.
    change (skip_ws (String " " ?t)) with (skip_ws t).
    rewrite (write_not_blank _ _ Hwx), Hfuel1 by lia.
    change (skip_ws (", " ++ tail)) with (String "," (String " " tail)).
    cbv iota. change (("," =? "}")%char) with false. change (("," =? ",")%char) with true.
    cbv iota. change (skip_ws (String " " tail)) with (skip_ws tail).
    assert (Hskip : skip_ws tail = tail).
    { unfold tail. destruct d' as [|z d'']; cbn [map join]; unfold q; reflexivity. }
    rewrite Hskip, Hfuel2 by lia. reflexivity.
Qed.

Lemma nesting_items (A : Type) (f : A -> pyval) (l : list A) n :
  fold_right (fun x m => Nat.max (nesting (f x)) m) 0 l <= n ->
  Forall (fun x => nesting (f x) <= n) l.
Proof.
  induction l as [|x l IH]; [constructor|]. cbn [fold_right]. intros H.
  constructor; [lia|apply IH; lia].
Qed.

(** A writable value is read back from its text. *)
Lemma write_read max_digits v : reads_back max_digits v.
Proof.
  induction v as [|b|z|f|s|l IH|d IH] using pyval_nested_ind; unfold reads_back;
    try discriminate.
  - intros _ depth rest _. exists 1. intros [|fuel'] Hle; [lia|]. reflexivity.
  - intros _ depth rest _. exists 1. intros [|fuel'] Hle; [lia|]. destruct b; reflexivity.
  - intros Hs depth rest _. exists 1. intros [|fuel'] Hle; [lia|].
    unfold write, q. cbn [append]. rewrite append_assoc. rewrite parse_value_S.
    rewrite Ascii.eqb_refl. cbn [append]. rewrite (scan_string_plain _ _ Hs). reflexivity.
  - cbn [writable nesting]. intros Hw depth rest Hn.
    destruct depth as [|depth']; [lia|]. apply le_S_n in Hn.
    apply (nesting_items _ (fun x => x)) in Hn.
    destruct l as [|x l'].
    + exists 1. intros [|fuel'] Hle; [lia|]. reflexivity.
    + destruct (read_elems max_digits depth' (x :: l') ltac:(discriminate) IH Hw Hn rest)
        as [fuel Hfuel].
      exists (S fuel). intros [|fuel'] Hle; [lia|].
      change (write (PList (x :: l')) ++ rest)
        with (String "[" ((join ", " (map write (x :: l')) ++ "]") ++ rest)).
      rewrite append_assoc. change ("]" ++ rest) with (String "]" rest).
      rewrite parse_value_S. change (("[" =? dquote)%char) with false.
      change (("[" =? "{")%char) with false. change (("[" =? "[")%char) with true.
      cbv iota.
      assert (Hskip : skip_ws (join ", " (map write (x :: l')) ++ String "]" rest)
                      = join ", " (map write (x :: l')) ++ String "]" rest).
      { cbn [forallb] in Hw. apply andb_prop in Hw as [Hwx _].
        destruct l' as [|y l'']; cbn [map join].
        - apply write_not_blank, Hwx.
        - rewrite !append_assoc. apply write_not_blank, Hwx. }
      rewrite Hskip.
      assert (Hhead : exists c r, join ", " (map write (x :: l')) ++ String "]" rest = String c r
                                  /\ (c =? "]")%char = false).
      { cbn [forallb] in Hw. apply andb_prop in Hw as [Hwx _].
        assert (Hx : exists c r, write x = String c r /\ (c =? "]")%char = false).
        { destruct x as [|[]| | |s|l0|d0]; try discriminate; eexists _, _; split; reflexivity. }
        destruct Hx as (c & r & Hx & Hc).
        destruct l' as [|y l'']; cbn [map join]; [|rewrite !append_assoc]; rewrite Hx;
          cbn [append]; eauto. }
      destruct Hhead as (c & r & Hhead & Hc). rewrite Hhead at 1. rewrite Hc.
      rewrite <- Hhead, Hfuel by lia. reflexivity.
  - cbn [writable nesting]. intros Hw depth rest Hn.
    apply andb_prop in Hw as [Hw Hdistinct].
    destruct depth as [|depth']; [lia|]. apply le_S_n in Hn.
    apply (nesting_items _ snd) in Hn.
    destruct d as [|[k x] d'].
    + exists 1. intros [|fuel'] Hle; [lia|]. reflexivity.
    + destruct (read_members max_digits depth' ((k, x) :: d') ltac:(discriminate) IH Hw Hn rest)
        as [fuel Hfuel].
      exists (S fuel). intros [|fuel'] Hle; [lia|].
      change (write (PDict ((k, x) :: d')) ++ rest)
        with (String "{"
                ((join ", " (map (fun kv => q (fst kv) ++ ": " ++ write (snd kv))
                               ((k, x) :: d')) ++ "}") ++ rest)).
      rewrite append_assoc. change ("}" ++ rest) with (String "}" rest).
      rewrite parse_value_S. change (("{" =? dquote)%char) with false.
      change (("{" =? "{")%char) with true. cbv iota.
      assert (Hhead : exists r,
                join ", " (map (fun kv => q (fst kv) ++ ": " ++ write (snd kv)) ((k, x) :: d'))
                ++ String "}" rest = String dquote r).
      { destruct d' as [|y d'']; cbn [map join fst snd]; unfold q; cbn [append]; eauto. }
      destruct Hhead as (r & Hhead). rewrite Hhead at 1.
      change (skip_ws (String dquote r)) with (String dquote r). cbv iota.
      change ((dquote =? "}")%char) with false. cbv iota.
      rewrite <- Hhead, Hfuel by lia. rewrite (dict_of_pairs_distinct _ Hdistinct).
      reflexivity.
Qed.

Lemma append_nil s : s ++ "" = s.
Proof. induction s as [|c s IH]; [reflexivity|]. cbn [append]. rewrite IH. reflexivity. Qed.

(** [json.loads] gives back the value [json.dumps] would have written. *)
Lemma json_loads_write max_digits depth v :
  writable v = true -> nesting v <= depth -> json_loads max_digits depth (write v) = inr v.
Proof.
  intros Hw Hn. destruct (write_read max_digits v Hw depth "" Hn) as [fuel Hfuel].
  specialize (Hfuel fuel (le_n _)). rewrite append_nil in Hfuel.
  unfold json_loads. pose proof (write_not_blank v "" Hw) as Hskip.
  rewrite append_nil in Hskip.
  rewrite <- Hskip in Hfuel. rewrite json_loads_fuel_suffices with (n := fuel).
  - rewrite Hfuel. reflexivity.
  - rewrite Hfuel. discriminate.
Qed.

Lemma no_value_at c r fuel depth max_digits :
  string_existsb (Ascii.eqb c) ("{[-0123456789tfnNI" ++ String dquote "") = false ->
  parse_value (S fuel) depth max_digits (String c r) = inl JSONDecodeError.
Proof.
  destruct c as [[] [] [] [] [] [] [] []]; intros H; vm_compute in H; try discriminate;
    reflexivity.
Qed.

(** A text that starts with no JSON value is a [JSONDecodeError]. *)
Lemma json_loads_no_value max_digits depth s :
  opens_no_value s = true -> json_loads max_digits depth s = inl JSONDecodeError.
Proof.
  unfold opens_no_value, json_loads. rewrite Nat.add_succ_r.
  destruct (skip_ws s) as [|c r]; [reflexivity|]. intros H. apply negb_true_iff in H.
  rewrite (no_value_at _ _ _ _ _ H). reflexivity.
Qed.

Lemma span_all p s : string_forallb p s = true -> span p s = (s, "").
Proof.
  induction s as [|c s IH]; [reflexivity|]. cbn [string_forallb span]. intros H.
  apply andb_prop in H as [Hc Hs]. rewrite Hc, (IH Hs). reflexivity.
Qed.

Lemma digit_opens_number c :
  is_digit c = true ->
  json_ws c = false /\ (c =? dquote)%char = false /\ (c =? "{")%char = false
  /\ (c =? "[")%char = false /\ ("n" =? c)%char = false /\ ("t" =? c)%char = false
  /\ ("f" =? c)%char = false /\ (c =? "-")%char = false.
Proof.
  destruct c as [[] [] [] [] [] [] [] []]; intros H; vm_compute in H; try discriminate;
    repeat split; reflexivity.
Qed.

Lemma scan_number_integer max_digits s :
  is_integer_literal s = true ->
  scan_number max_digits s
  = Some (if too_many_digits max_digits s then inl IntegerTooLong
          else inr (PInt (digits_value 0 s), "")).
Proof.
  destruct s as [|c r]; [discriminate|]. cbn [is_integer_literal]. intros H.
  apply andb_prop in H as [Hdigits Hzero].
  pose proof Hdigits as Hc. cbn [string_forallb] in Hc. apply andb_prop in Hc as [Hc _].
  destruct (digit_opens_number c Hc) as (_ & _ & _ & _ & _ & _ & _ & Hminus).
  unfold scan_number. cbn [take_minus]. rewrite Hminus. cbn [take_integer].
  destruct (c =? "0")%char eqn:H0.
  - cbn [negb orb] in Hzero. apply String.eqb_eq in Hzero. subst r.
    apply Ascii.eqb_eq in H0. subst c. cbn.
    destruct (too_many_digits max_digits "0"); reflexivity.
  - rewrite Hc, (span_all _ _ Hdigits). cbn.
    destruct (too_many_digits max_digits (String c r)); reflexivity.
Qed.

(** A text that is one integer literal is read as that integer, unless it
    has more digits than [int] takes. *)
Lemma json_loads_integer max_digits depth s :
  is_integer_literal s = true ->
  json_loads max_digits depth s
  = if too_many_digits max_digits s then inl IntegerTooLong
    else inr (PInt (digits_value 0 s)).
Proof.
  intros Hint. pose proof (scan_number_integer max_digits s Hint) as Hscan.
  destruct s as [|c r]; [discriminate|]. cbn [is_integer_literal] in Hint.
  apply andb_prop in Hint as [Hdigits _]. cbn [string_forallb] in Hdigits.
  apply andb_prop in Hdigits as [Hc _].
  destruct (digit_opens_number c Hc) as (Hws & Hq & Hbrace & Hbracket & Hn & Ht & Hf & _).
  unfold json_loads. rewrite Nat.add_succ_r. cbn [skip_ws]. rewrite Hws.
  rewrite parse_value_S, Hq, Hbrace, Hbracket. unfold scan_atom.
  cbn [strip_prefix]. rewrite Hn, Ht, Hf, Hscan.
  destruct (too_many_digits max_digits (String c r)); reflexivity.
Qed.

Lemma repeat_bracket n rest : repeat_string (S n) "[" ++ rest = String "[" (repeat_string n "[" ++ rest).
Proof. reflexivity. Qed.

Lemma too_deep_at max_digits depth :
  forall n fuel rest,
    depth < n -> 2 * depth + 1 <= fuel ->
    parse_value fuel depth max_digits (repeat_string n "[" ++ rest) = inl NestingTooDeep.
Proof.
  induction depth as [|depth IH]; intros n fuel rest Hn Hfuel;
    (destruct n as [|n]; [lia|]); (destruct fuel as [|fuel]; [lia|]);
    rewrite repeat_bracket, parse_value_S; change (("[" =? dquote)%char) with false;
    change (("[" =? "{")%char) with false; change (("[" =? "[")%char) with true; cbv iota;
    [reflexivity|].
  destruct n as [|n]; [lia|]. rewrite repeat_bracket.
  change (skip_ws (String "[" ?t)) with (String "[" t). cbv iota.
  change (("[" =? "]")%char) with false. cbv iota.
  destruct fuel as [|fuel]; [lia|]. rewrite parse_elems_S, <- repeat_bracket.
  rewrite IH by lia. reflexivity.
Qed.

(** A text that opens more arrays, one inside the other, than there is room
    for is a [RecursionError], whatever follows. *)
Lemma json_loads_too_deep max_digits depth n rest :
  depth < n ->
  json_loads max_digits depth (repeat_string n "[" ++ rest) = inl NestingTooDeep.
Proof.
  intros Hn. unfold json_loads.
  assert (Hlen : n <= String.length (repeat_string n "[" ++ rest)).
  { clear Hn. induction n as [|n IH]; [lia|]. rewrite repeat_bracket. cbn [String.length]. lia. }
  assert (Hskip : skip_ws (repeat_string n "[" ++ rest) = repeat_string n "[" ++ rest).
  { destruct n as [|n]; [lia|]. reflexivity. }
  rewrite Hskip, too_deep_at by lia. reflexivity.
Qed.

(** ** Reference Enricher *)

(** The two loops over the registry compute [reference_hits]. *)
Lemma collect_references_hits d url :
  dict_get d "url" = Some (PStr url) ->
  collect_references trusted_sources (PDict d) [] = Ok (reference_hits url).
Proof.
  intros Hurl. unfold reference_hits, trusted_sources. simpl. rewrite Hurl. simpl.
  destruct (contains "tnfd.global" url), (contains "ipcc.ch" url),
    (contains "swissre.com" url); reflexivity.
Qed.

Lemma enrich_loop_spec articles :
  forall (h : store) (enriched : list loc),
    Forall (fun a => has_url (h a)) articles ->
    exists h',
      enrich_loop articles h enriched = (Ok (enriched ++ articles)%list, h')
      /\ (forall a, a ∉ articles -> h' a = h a)
      /\ (forall a d url, a ∈ articles -> h a = PDict d ->
            dict_get d "url" = Some (PStr url) ->
            h' a = PDict (dict_set d "research_references" (references_value url))).
Proof.
  induction articles as [|a rest IH]; intros h enriched Hall.
  - exists h. simpl. rewrite app_nil_r. split; [reflexivity|]. split; [auto|].
    intros a d url Hin. inversion Hin.
  - inversion Hall as [|? ? (d & url & Hd & Hurl) Hrest]; subst.
    set (article' := PDict (dict_set d "research_references" (references_value url))).
    assert (Hstep : enrich_loop (a :: rest) h enriched
                    = enrich_loop rest (store_set h a article') (enriched ++ [a])%list).
    { cbn [enrich_loop]. rewrite Hd, (collect_references_hits d url Hurl).
      cbn [py_setitem]. unfold article', references_value.
      destruct (reference_hits url); reflexivity. }
    destruct (IH (store_set h a article') (enriched ++ [a])%list) as (h' & Hrun & Hframe & Hset).
    { apply Forall_forall. intros b Hb.
      destruct (Nat.eq_dec b a) as [->|Hne].
      - rewrite store_set_eq. exists (dict_set d "research_references" (references_value url)), url.
        split; [reflexivity|]. rewrite dict_get_set_ne by discriminate. exact Hurl.
      - rewrite store_set_ne by exact Hne.
        rewrite Forall_forall in Hrest. apply Hrest. exact Hb. }
    exists h'. rewrite Hstep, Hrun, <- app_assoc. split; [reflexivity|]. split.
    + intros b Hb. rewrite Hframe by (intros ?; apply Hb; now right).
      apply store_set_ne. intros ->. apply Hb. now left.
    + intros b db ub Hb Hdb Hub.
      destruct (decide (b ∈ rest)) as [Hin|Hnin].
      * destruct (Nat.eq_dec b a) as [->|Hne].
        -- rewrite Hd in Hdb. injection Hdb as <-. rewrite Hurl in Hub. injection Hub as <-.
           rewrite (Hset a (dict_set d "research_references" (references_value url)) url Hin).
           ++ now rewrite dict_set_set.
           ++ apply store_set_eq.
           ++ rewrite dict_get_set_ne by discriminate. exact Hurl.
        -- apply (Hset b db ub Hin); [|exact Hub].
           rewrite store_set_ne by exact Hne. exact Hdb.
      * apply elem_of_cons in Hb as [->|Hb]; [|contradiction].
        rewrite Hframe by exact Hnin. rewrite store_set_eq.
        rewrite Hd in Hdb. injection Hdb as <-. rewrite Hurl in Hub. injection Hub as <-.
        reflexivity.
Qed.

Lemma reference_hits_spec url org :
  org ∈ reference_hits url
  <-> exists domains domain,
        (org, domains) ∈ trusted_sources /\ domain ∈ domains /\ contains domain url = true.
Proof.
  unfold reference_hits. rewrite list_elem_of_In, in_map_iff. split.
  - intros ([org' domains] & <- & Hin). apply filter_In in Hin as [Hin Hany].
    apply existsb_exists in Hany as (domain & Hdom & Hc).
    exists domains, domain. rewrite !list_elem_of_In. auto.
  - intros (domains & domain & Hin & Hdom & Hc). exists (org, domains). split; [reflexivity|].
    apply filter_In. rewrite list_elem_of_In in Hin. split; [exact Hin|].
    apply existsb_exists. exists domain. rewrite list_elem_of_In in Hdom. auto.
Qed.

(** C7, as the spec states it, fails: a record without [url] is not passed
    through, the subscript [article["url"]] raises [KeyError]. *)
Lemma reference_enricher_raises_without_url :
  dict_get [("title", PStr "No Title")] "url" = None
  /\ fst (enrich_articles_with_research_references [0]
            (fun _ => PDict [("title", PStr "No Title")])) = Raise KeyError.
Proof. split; reflexivity. Qed.

(** C7, amended: on records that carry a [url] string the Reference Enricher
    returns without raising, hands back the very records it was given, in
    their order, and changes a record only by setting [research_references]:
    every other key keeps its value, the keys keep their order (a new
    [research_references] goes last), and objects that are not listed are
    left alone. *)
Theorem reference_enricher_sets_only_references (h : store) (articles : list loc) :
  Forall (fun a => has_url (h a)) articles ->
  exists h',
    enrich_articles_with_research_references articles h = (Ok articles, h')
    /\ (forall a, a ∉ articles -> h' a = h a)
    /\ (forall a d, a ∈ articles -> h a = PDict d ->
          exists d',
            h' a = PDict d'
            /\ (forall k, k <> "research_references" -> dict_get d' k = dict_get d k)
            /\ (exists refs, dict_get d' "research_references" = Some (PList refs))
            /\ dict_keys d'
               = match dict_get d "research_references" with
                 | Some _ => dict_keys d
                 | None => (dict_keys d ++ ["research_references"])%list
                 end).
Proof.
  intros Hall. unfold enrich_articles_with_research_references.
  destruct (enrich_loop_spec articles h [] Hall) as (h' & Hrun & Hframe & Hset).
  exists h'. split; [exact Hrun|]. split; [exact Hframe|].
  intros a d Hin Hd.
  assert (Hurl : has_url (h a)).
  { rewrite Forall_forall in Hall. apply Hall, list_elem_of_In, Hin. }
  destruct Hurl as (d0 & url & Hd0 & Hurl). rewrite Hd in Hd0. injection Hd0 as <-.
  exists (dict_set d "research_references" (references_value url)).
  split; [exact (Hset a d url Hin Hd Hurl)|]. split.
  - intros k Hk. apply dict_get_set_ne. congruence.
  - split; [|apply dict_keys_set].
    rewrite dict_get_set_eq. unfold references_value. eauto.
Qed.

(** Three references to two articles: the run returns the three references,
    and an object that is not listed stays as it was. *)
Lemma reference_enricher_sets_only_references_witness :
  Forall (fun a => has_url (sample_store a)) [0; 1; 0]
  /\ exists h',
       enrich_articles_with_research_references [0; 1; 0] sample_store = (Ok [0; 1; 0], h')
       /\ h' 2 = sample_store 2.
Proof.
  assert (H : Forall (fun a => has_url (sample_store a)) [0; 1; 0]).
  { repeat constructor; eexists _, _; split; reflexivity. }
  split; [exact H|].
  destruct (reference_enricher_sets_only_references sample_store [0; 1; 0] H)
    as (h' & Hrun & Hframe & _).
  exists h'. split; [exact Hrun|]. apply Hframe.
  rewrite !elem_of_cons, elem_of_nil. intros [?|[?|[?|?]]]; lia || assumption.
Defined.

(** C8, as the spec states it, fails: a URL that holds [tnfd.global] and a
    second registered domain is tagged with both organisations. *)
Lemma tnfd_url_with_second_domain :
  contains "tnfd.global" "https://tnfd.global/library?source=ipcc.ch" = true
  /\ py_getitem
       (snd (enrich_articles_with_research_references [0]
               (fun _ => PDict [("url", PStr "https://tnfd.global/library?source=ipcc.ch")])) 0)
       "research_references"
     = Ok (PList [PStr "TNFD"; PStr "IPCC"]).
Proof. split; reflexivity. Qed.

(** C8, amended: the records come back in input order, and the record at
    [url] gets under [research_references] the organisations recorded for it,
    in registry order, or the sentinel ["None"] when there is none.  An
    organisation is recorded exactly when one of its registered domains is a
    substring of [url]; so a URL that holds [tnfd.global] and no other
    registered domain gives [["TNFD"]], and one that holds no registered
    domain gives [["None"]]. *)
Theorem reference_tagging (h : store) (articles : list loc) :
  Forall (fun a => has_url (h a)) articles ->
  exists h',
    enrich_articles_with_research_references articles h = (Ok articles, h')
    /\ forall a d url, a ∈ articles -> h a = PDict d -> dict_get d "url" = Some (PStr url) ->
       exists hits,
         py_getitem (h' a) "research_references"
         = Ok (PList (map PStr (match hits with [] => ["None"] | _ => hits end)))
         /\ (forall org,
               org ∈ hits
               <-> exists domains domain,
                     (org, domains) ∈ trusted_sources /\ domain ∈ domains
                     /\ contains domain url = true)
         /\ hits `sublist_of` map fst trusted_sources
         /\ (contains "tnfd.global" url = true -> contains "ipcc.ch" url = false ->
             contains "swissre.com" url = false -> hits = ["TNFD"])
         /\ (contains "tnfd.global" url = false -> contains "ipcc.ch" url = false ->
             contains "swissre.com" url = false -> hits = []).
Proof.
  intros Hall. unfold enrich_articles_with_research_references.
  destruct (enrich_loop_spec articles h [] Hall) as (h' & Hrun & _ & Hset).
  exists h'. split; [exact Hrun|].
  intros a d url Hin Hd Hurl. exists (reference_hits url).
  rewrite (Hset a d url Hin Hd Hurl). split.
  { cbn [py_getitem]. rewrite dict_get_set_eq. unfold references_value.
    destruct (reference_hits url); reflexivity. }
  split; [apply reference_hits_spec|].
  unfold reference_hits, trusted_sources. simpl. split.
  { destruct (contains "tnfd.global" url), (contains "ipcc.ch" url),
      (contains "swissre.com" url); simpl;
      repeat first [apply sublist_nil | apply sublist_skip | apply sublist_cons]. }
  split; intros -> -> ->; reflexivity.
Qed.

(** The article at [tnfd.global] is tagged TNFD, the other one gets the
    sentinel. *)
Lemma reference_tagging_witness :
  exists h',
    enrich_articles_with_research_references [0; 1; 0] sample_store = (Ok [0; 1; 0], h')
    /\ py_getitem (h' 0) "research_references" = Ok (PList [PStr "TNFD"])
    /\ py_getitem (h' 1) "research_references" = Ok (PList [PStr "None"]).
Proof.
  assert (H : Forall (fun a => has_url (sample_store a)) [0; 1; 0]).
  { repeat constructor; eexists _, _; split; reflexivity. }
  destruct (reference_tagging sample_store [0; 1; 0] H) as (h' & Hrun & Htag).
  exists h'. split; [exact Hrun|]. split.
  - destruct (Htag 0 _ _ ltac:(left) eq_refl eq_refl) as (hits & Hget & _ & _ & Hone & _).
    rewrite Hget, Hone; reflexivity.
  - destruct (Htag 1 _ _ ltac:(right; left) eq_refl eq_refl)
      as (hits & Hget & _ & _ & _ & Hnone).
    rewrite Hget, Hnone; reflexivity.
Defined.

(** ** Result Parser *)

(** C3, as the spec states it, fails twice.  A mapping hands back whatever
    it holds under [results], sequence or not, directly or decoded from a
    string; and a string whose decoding fails with anything but a
    [JSONDecodeError] makes the function raise: an integer of 4301 digits is
    a [ValueError] under the default limit of 4300, and a thousand nested
    arrays are a [RecursionError] where there is room for 900. *)
Lemma parse_returns_a_non_sequence :
  (forall E, safe_parse_response E (PDict [("results", PInt 5)]) = Ok (PInt 5))
  /\ safe_parse_response (env_replying (Ok "")) (PStr ("{" ++ q "results" ++ ": null}"))
     = Ok PNone
  /\ is_list (PInt 5) = false /\ is_list PNone = false
  /\ safe_parse_response (env_replying (Ok "")) (PStr (repeat_string 4301 "1"))
     = Raise ValueError
  /\ safe_parse_response (env_replying (Ok "")) (PStr (repeat_string 1000 "["))
     = Raise (OtherError "RecursionError").
Proof.
  split; [reflexivity|]. split; [reflexivity|]. split; [reflexivity|].
  split; [reflexivity|]. split; vm_compute; reflexivity.
Qed.

(** C3, amended: parse raises on no response but a string whose decoding
    fails with something other than a [JSONDecodeError]: a [ValueError] for
    an integer of more digits than [int] takes, a [RecursionError] for
    nesting the decoder has no room for.  Otherwise it returns: a list as it
    is; for a mapping the value under [results], whatever that value is, and
    the empty list when the key is absent; for a string the decoded value,
    dispatched in the same way; for a string that is no JSON and for every
    other value the empty list.  So a returned value is a list unless it is
    the value a mapping holds under [results].  In terms of the text: a
    string [json.dumps] would write for a value is dispatched as that value;
    a string that starts with no JSON value gives the empty list; a string of
    digits gives the empty list or, beyond the digit limit, a [ValueError];
    a string that opens more arrays than there is room for is a
    [RecursionError]. *)
Theorem safe_parse_response_by_shape (E : Env) (response : pyval) :
  match response with
  | PStr s =>
      match json_loads (int_max_str_digits E) (parse_depth E) s with
      | inr v => safe_parse_response E response = Ok (by_shape v)
      | inl JSONDecodeError => safe_parse_response E response = Ok (PList [])
      | inl IntegerTooLong => safe_parse_response E response = Raise ValueError
      | inl NestingTooDeep =>
          safe_parse_response E response = Raise (OtherError "RecursionError")
      end
  | _ => safe_parse_response E response = Ok (by_shape response)
  end
  /\ (forall l, by_shape (PList l) = PList l)
  /\ (forall d r, dict_get d "results" = Some r -> by_shape (PDict d) = r)
  /\ (forall d, dict_get d "results" = None -> by_shape (PDict d) = PList [])
  /\ (forall v, is_list v = false -> (forall d, v <> PDict d) -> by_shape v = PList [])
  /\ (forall v,
        safe_parse_response E response = Ok v ->
        is_list v = true
        \/ exists d,
             dict_get d "results" = Some v
             /\ (response = PDict d
                 \/ exists s,
                      response = PStr s
                      /\ json_loads (int_max_str_digits E) (parse_depth E) s = inr (PDict d)))
  /\ (forall v,
        writable v = true -> nesting v <= parse_depth E ->
        safe_parse_response E (PStr (write v)) = Ok (by_shape v))
  /\ (forall s, opens_no_value s = true -> safe_parse_response E (PStr s) = Ok (PList []))
  /\ (forall s,
        is_integer_literal s = true ->
        safe_parse_response E (PStr s)
        = if too_many_digits (int_max_str_digits E) s then Raise ValueError
          else Ok (PList []))
  /\ (forall n rest,
        parse_depth E < n ->
        safe_parse_response E (PStr (repeat_string n "[" ++ rest))
        = Raise (OtherError "RecursionError")).
Proof.
  assert (Hstr : forall s,
            safe_parse_response E (PStr s)
            = match json_loads (int_max_str_digits E) (parse_depth E) s with
              | inr v => Ok (by_shape v)
              | inl JSONDecodeError => Ok (PList [])
              | inl err => Raise (json_exn err)
              end).
  { intros s. unfold safe_parse_response.
    destruct (json_loads _ _ s) as [[]|[]]; reflexivity. }
  split.
  { destruct response; try reflexivity. rewrite Hstr.
    destruct (json_loads _ _ _) as [[]|]; reflexivity. }
  split; [reflexivity|]. split; [intros d r Hr; cbn [by_shape]; rewrite Hr; reflexivity|].
  split; [intros d Hr; cbn [by_shape]; rewrite Hr; reflexivity|].
  split; [intros [] Hl Hd; try reflexivity; [discriminate|destruct (Hd _ eq_refl)]|].
  split.
  { assert (Hshape : forall w v, Ok (by_shape w) = Ok v ->
              is_list v = true \/ exists d, dict_get d "results" = Some v /\ w = PDict d).
    { intros w v H. apply Ok_inj in H. subst v.
      destruct w as [| | | | | |d]; try (left; reflexivity). cbn [by_shape].
      destruct (dict_get d "results") as [r|] eqn:Hr; [|left; reflexivity].
      right. exists d. split; [exact Hr|reflexivity]. }
    intros v Hv. destruct response as [| | | |s| |d].
    1-4, 6: left; apply Ok_inj in Hv; subst v; reflexivity.
    - rewrite Hstr in Hv.
      destruct (json_loads _ _ s) as [[]|w] eqn:Hs; try discriminate.
      + left. apply Ok_inj in Hv. subst v. reflexivity.
      + destruct (Hshape w v Hv) as [Hl|(d & Hd & ->)]; [left; exact Hl|].
        right. exists d. split; [exact Hd|]. right. exists s. split; [reflexivity|exact Hs].
    - destruct (Hshape (PDict d) v Hv) as [Hl|(d' & Hd & Heq)]; [left; exact Hl|].
      right. exists d'. split; [exact Hd|]. left. exact Heq. }
  split; [intros v Hw Hn; rewrite Hstr, (json_loads_write _ _ v Hw Hn); reflexivity|].
  split; [intros s Hs; rewrite Hstr, (json_loads_no_value _ _ s Hs); reflexivity|].
  split.
  - intros s Hs. rewrite Hstr, (json_loads_integer _ _ s Hs).
    destruct (too_many_digits _ s); reflexivity.
  - intros n rest Hn. rewrite Hstr, (json_loads_too_deep _ _ n rest Hn). reflexivity.
Qed.

(** A response written as JSON text, with its results under [results]. *)
Lemma safe_parse_response_by_shape_witness :
  safe_parse_response (env_replying (Ok ""))
    (PStr ("{" ++ q "results" ++ ": [{" ++ q "url" ++ ": " ++ q "https://ipcc.ch/a" ++ "}]}"))
  = Ok (PList [PDict [("url", PStr "https://ipcc.ch/a")]]).
Proof.
  destruct (safe_parse_response_by_shape (env_replying (Ok "")) PNone)
    as (_ & _ & _ & _ & _ & _ & Hwritten & _).
  apply (Hwritten (PDict [("results", PList [PDict [("url", PStr "https://ipcc.ch/a")]])]));
    [reflexivity|vm_compute; lia].
Defined.

(** ** LLM Enrichment Adapter *)

Section Adapter.

Variable E : Env.

Lemma unlines_app l1 l2 : unlines (l1 ++ l2)%list = unlines l1 ++ unlines l2.
Proof.
  induction l1 as [|l l1 IH]; [reflexivity|].
  change (unlines ((l :: l1) ++ l2)%list) with (l ++ newline ++ unlines (l1 ++ l2)%list).
  change (unlines (l :: l1)) with (l ++ newline ++ unlines l1).
  rewrite IH. now rewrite !append_assoc.
Qed.

(** A prompt is built exactly for a dict whose [full_content] can be sliced,
    and it starts with the fixed instructions. *)
Lemma build_prompt_inv article prompt :
  build_prompt E article = Ok prompt ->
  exists d rest, article = PDict d /\ prompt = (newline ++ unlines prompt_instructions) ++ rest.
Proof.
  unfold build_prompt. destruct article as [| | | | | |d]; try discriminate.
  cbn [py_get bind].
  destruct (slice_3000 _); cbn [bind]; [|discriminate].
  intros H. apply Ok_inj in H. subst prompt. eexists d, _. split; [reflexivity|].
  rewrite unlines_app, <- append_assoc. reflexivity.
Qed.

Lemma fallback_record_dict d :
  fallback_record (PDict d)
  = Ok (PDict [("title", match dict_get d "title" with Some v => v | None => PStr "" end);
               ("url", match dict_get d "url" with Some v => v | None => PStr "" end);
               ("date", match dict_get d "date" with Some v => v | None => PStr "" end);
               ("source", match dict_get d "source" with Some v => v | None => PStr "" end);
               ("category", PStr "Uncategorized"); ("summary", PStr "GPT failed.");
               ("references", PList []); ("sentiment", PStr "Unknown");
               ("recommendation", PStr "N/A"); ("financial_impact", PStr "Not specified")]).
Proof. reflexivity. Qed.

(** What [enrich_article_with_gpt_full] returns once the prompt is built. *)
Lemma enrich_after_prompt article prompt :
  build_prompt E article = Ok prompt ->
  enrich_article_with_gpt_full E article
  = match llm_invoke E prompt with
    | Ok content =>
        match json_loads (int_max_str_digits E) (reply_depth E) content with
        | inr v => Ok v
        | inl _ => fallback_record article
        end
    | Raise _ => fallback_record article
    end.
Proof. intros H. unfold enrich_article_with_gpt_full. rewrite H. reflexivity. Qed.

(** C4, amended: whenever the collaborator returns text without raising,
    enrich decodes that text as JSON and returns the decoded value as it is,
    whatever its shape; the source checks no schema.  Text the decoder
    fails on, in any way, yields the deterministic fallback record: the
    title, url, date and source of the article, and the fixed values of the
    other six keys.  In terms of the text: a reply [json.dumps] would write
    for a value comes back as that value; a reply that starts with no JSON
    value, an integer beyond the digit limit and arrays opened deeper than
    there is room for give the fallback record; an integer within the limit
    comes back as that integer. *)
Theorem enrich_returns_decoded_reply (article : pyval) (prompt content : string) :
  build_prompt E article = Ok prompt ->
  llm_invoke E prompt = Ok content ->
  exists d,
    article = PDict d
    /\ let fallback :=
         PDict [("title", match dict_get d "title" with Some v => v | None => PStr "" end);
                ("url", match dict_get d "url" with Some v => v | None => PStr "" end);
                ("date", match dict_get d "date" with Some v => v | None => PStr "" end);
                ("source", match dict_get d "source" with Some v => v | None => PStr "" end);
                ("category", PStr "Uncategorized"); ("summary", PStr "GPT failed.");
                ("references", PList []); ("sentiment", PStr "Unknown");
                ("recommendation", PStr "N/A"); ("financial_impact", PStr "Not specified")] in
       (forall v,
          json_loads (int_max_str_digits E) (reply_depth E) content = inr v ->
          enrich_article_with_gpt_full E article = Ok v)
       /\ (forall err,
             json_loads (int_max_str_digits E) (reply_depth E) content = inl err ->
             enrich_article_with_gpt_full E article = Ok fallback)
       /\ (forall v,
             writable v = true -> nesting v <= reply_depth E -> content = write v ->
             enrich_article_with_gpt_full E article = Ok v)
       /\ (opens_no_value content = true ->
           enrich_article_with_gpt_full E article = Ok fallback)
       /\ (is_integer_literal content = true ->
           enrich_article_with_gpt_full E article
           = if too_many_digits (int_max_str_digits E) content then Ok fallback
             else Ok (PInt (digits_value 0 content)))
       /\ (forall n rest,
             reply_depth E < n -> content = repeat_string n "[" ++ rest ->
             enrich_article_with_gpt_full E article = Ok fallback).
Proof.
  intros Hp Hc. rewrite (enrich_after_prompt article prompt Hp), Hc.
  destruct (build_prompt_inv article prompt Hp) as (d & rest & -> & _).
  exists d. split; [reflexivity|]. cbv zeta. rewrite fallback_record_dict.
  split; [intros v ->; reflexivity|]. split; [intros err ->; reflexivity|].
  split; [intros v Hw Hn ->; rewrite (json_loads_write _ _ v Hw Hn); reflexivity|].
  split; [intros Hn; rewrite (json_loads_no_value _ _ content Hn); reflexivity|].
  split.
  - intros Hi. rewrite (json_loads_integer _ _ content Hi).
    destruct (too_many_digits _ content); reflexivity.
  - intros n tl Hn ->. rewrite (json_loads_too_deep _ _ n tl Hn). reflexivity.
Qed.

(** C5: the record returned when the call raises or its text does not
    decode, whatever the decoder fails with, has exactly the ten keys title, url, date, source, category, summary,
    references, sentiment, recommendation and financial_impact, so it has no
    [location], although the schema written into the prompt asks for
    [location] and the details view subscripts it. *)
Theorem fallback_record_has_no_location (article : pyval) (prompt : string) :
  build_prompt E article = Ok prompt ->
  (raises (llm_invoke E prompt)
   \/ exists content err,
        llm_invoke E prompt = Ok content
        /\ json_loads (int_max_str_digits E) (reply_depth E) content = inl err) ->
  exists r,
    enrich_article_with_gpt_full E article = Ok (PDict r)
    /\ dict_keys r = ["title"; "url"; "date"; "source"; "category"; "summary"; "references";
                      "sentiment"; "recommendation"; "financial_impact"]
    /\ dict_get r "location" = None
    /\ py_getitem (PDict r) "location" = Raise KeyError
    /\ contains ("  " ++ q "location" ++ ": " ++ q "...") prompt = true
    /\ "location" ∈ schema_fields
    /\ "location" ∈ details_view_fields.
Proof.
  intros Hp Hfail.
  destruct (build_prompt_inv article prompt Hp) as (d & rest & -> & ->).
  rewrite (enrich_after_prompt _ _ Hp).
  assert (Hfb : match llm_invoke E ((newline ++ unlines prompt_instructions) ++ rest) with
                | Ok content =>
                    match json_loads (int_max_str_digits E) (reply_depth E) content with
                    | inr v => Ok v
                    | inl _ => fallback_record (PDict d)
                    end
                | Raise _ => fallback_record (PDict d)
                end = fallback_record (PDict d)).
  { destruct Hfail as [[e ->]|(content & err & -> & ->)]; reflexivity. }
  rewrite Hfb, fallback_record_dict. eexists. split; [reflexivity|].
  do 3 (split; [reflexivity|]).
  split; [apply contains_app_l; vm_compute; reflexivity|].
  split; apply list_elem_of_In; simpl; tauto.
Qed.

Lemma structured_article_fields a :
  is_structured_article a = true ->
  exists d content,
    a = PDict d
    /\ dict_get d "full_content" = Some (PStr content)
    /\ Forall (fun k => exists v, dict_get d k = Some v /\ v <> PNone) documented_fields.
Proof.
  destruct a as [| | | | | |d]; try discriminate. cbn [is_structured_article].
  rewrite !andb_true_iff. intros [[Hall _] Hfull].
  destruct (dict_get d "full_content") as [[| | | |content| |]|] eqn:Hc; try discriminate.
  exists d, content. split; [reflexivity|]. split; [exact Hc|].
  rewrite forallb_forall in Hall. apply Forall_forall. intros k Hk.
  specialize (Hall k Hk). unfold field_populated in Hall.
  destruct (dict_get d k) as [v|]; [|discriminate].
  exists v. split; [reflexivity|]. intros ->. discriminate.
Qed.

(** On a structured article the prompt is built and the function returns;
    when the call raises, it returns the fallback record, which carries the
    four fields of the article. *)
Lemma enrich_structured_article a :
  is_structured_article a = true ->
  exists d prompt r,
    a = PDict d
    /\ build_prompt E a = Ok prompt
    /\ enrich_article_with_gpt_full E a = Ok r
    /\ (raises (llm_invoke E prompt) ->
        exists rd,
          r = PDict rd
          /\ dict_get rd "title" = dict_get d "title" /\ dict_get rd "url" = dict_get d "url"
          /\ dict_get rd "date" = dict_get d "date" /\ dict_get rd "source" = dict_get d "source"
          /\ dict_get rd "category" = Some (PStr "Uncategorized")
          /\ dict_get rd "sentiment" = Some (PStr "Unknown")
          /\ dict_get rd "references" = Some (PList [])).
Proof.
  intros Hs. destruct (structured_article_fields a Hs) as (d & content & -> & Hc & Hall).
  assert (Hp : exists prompt, build_prompt E (PDict d) = Ok prompt).
  { unfold build_prompt. cbn [py_get bind]. rewrite Hc. cbn [slice_3000 bind]. eauto. }
  destruct Hp as [prompt Hp]. exists d, prompt.
  assert (Hr : exists r, enrich_article_with_gpt_full E (PDict d) = Ok r
                         /\ (raises (llm_invoke E prompt) -> fallback_record (PDict d) = Ok r)).
  { rewrite (enrich_after_prompt _ _ Hp).
    destruct (llm_invoke E prompt) as [reply|e].
    - destruct (json_loads _ _ reply) as [err|v]; eexists; (split; [reflexivity|]);
        intros [e He]; discriminate.
    - eexists. split; [reflexivity|]. intros _. reflexivity. }
  destruct Hr as (r & Hr & Hfb). exists r.
  split; [reflexivity|]. split; [exact Hp|]. split; [exact Hr|].
  intros Hraise. specialize (Hfb Hraise). rewrite fallback_record_dict in Hfb.
  apply Ok_inj in Hfb. subst r. eexists. split; [reflexivity|].
  rewrite Forall_forall in Hall.
  destruct (Hall "title") as (? & Htitle & _); [simpl; tauto|].
  destruct (Hall "url") as (? & Hurl & _); [simpl; tauto|].
  destruct (Hall "date") as (? & Hdate & _); [simpl; tauto|].
  destruct (Hall "source") as (? & Hsource & _); [simpl; tauto|].
  cbn [dict_get String.eqb Ascii.eqb Bool.eqb].
  rewrite Htitle, Hurl, Hdate, Hsource. repeat split; reflexivity.
Qed.


End Adapter.

(** C4, as the spec states it, fails: a reply that is valid JSON and not of
    the schema is returned as it is. *)
Lemma reply_outside_schema_is_returned :
  enrich_article_with_gpt_full (env_replying (Ok "[]")) sample_article = Ok (PList [])
  /\ conforms_to_schema (PList []) = false
  /\ fallback_record sample_article <> Ok (PList []).
Proof. split; [reflexivity|]. split; [reflexivity|discriminate]. Qed.

(** A reply that is a JSON object of one key is handed back as that object,
    and a reply in prose gives the fallback record. *)
Lemma enrich_returns_decoded_reply_witness :
  enrich_article_with_gpt_full (env_replying (Ok ("{" ++ q "title" ++ ": " ++ q "Flood" ++ "}")))
    sample_article
  = Ok (PDict [("title", PStr "Flood")])
  /\ exists r,
       enrich_article_with_gpt_full (env_replying (Ok "Sorry, I cannot help.")) sample_article
       = Ok (PDict r)
       /\ dict_get r "summary" = Some (PStr "GPT failed.").
Proof.
  split.
  - destruct (build_prompt (env_replying (Ok ("{" ++ q "title" ++ ": " ++ q "Flood" ++ "}")))
                sample_article) as [p|] eqn:Hp; [|discriminate].
    destruct (enrich_returns_decoded_reply _ _ p _ Hp eq_refl)
      as (d & _ & _ & _ & Hwritten & _).
    apply (Hwritten (PDict [("title", PStr "Flood")])); [reflexivity|vm_compute; lia|reflexivity].
  - destruct (build_prompt (env_replying (Ok "Sorry, I cannot help.")) sample_article)
      as [p|] eqn:Hp; [|discriminate].
    destruct (enrich_returns_decoded_reply _ _ p _ Hp eq_refl)
      as (d & Hd & _ & _ & _ & Hprose & _).
    injection Hd as <-. eexists. split; [apply Hprose; reflexivity|reflexivity].
Defined.

(** The record for a call that raises has no [location]. *)
Lemma fallback_record_has_no_location_witness :
  exists r,
    enrich_article_with_gpt_full (env_replying (Raise (OtherError "RateLimitError")))
      sample_article = Ok (PDict r)
    /\ dict_get r "location" = None.
Proof.
  destruct (build_prompt (env_replying (Raise (OtherError "RateLimitError"))) sample_article)
    as [p|] eqn:Hp; [|discriminate].
  destruct (fallback_record_has_no_location _ _ p Hp) as (r & Hr & _ & Hloc & _).
  - left. eexists. reflexivity.
  - exists r. split; assumption.
Defined.



(** ** Article Structurer *)

Section Structurer.

Variable E : Env.

(** *** Characters that survive [urlparse] come from the URL *)

Lemma chars_within_refl a : chars_within a a.
Proof. intros p H. exact H. Qed.

Lemma chars_within_trans a b c : chars_within a b -> chars_within b c -> chars_within a c.
Proof. intros H1 H2 p H. auto. Qed.

Lemma chars_within_tail c s : chars_within s (String c s).
Proof. intros p H. simpl. rewrite H. apply orb_true_r. Qed.

Lemma chars_within_cons c a b : chars_within a b -> chars_within (String c a) (String c b).
Proof.
  intros H p Hp. simpl in *. apply orb_true_iff in Hp as [Hp|Hp].
  - now rewrite Hp.
  - rewrite (H p Hp). apply orb_true_r.
Qed.

Create HintDb chars.

#[local] Hint Resolve chars_within_refl chars_within_tail chars_within_cons : chars.

Lemma lstrip_c0_within s : chars_within (lstrip_c0 s) s.
Proof.
  induction s as [|c s IH]; simpl; [auto with chars|].
  destruct (code c <=? 32)%nat; [|auto with chars].
  eapply chars_within_trans; [exact IH|auto with chars].
Qed.

Lemma remove_unsafe_within s : chars_within (remove_unsafe s) s.
Proof.
  induction s as [|c s IH]; simpl; [auto with chars|].
  destruct ((c =? "009")%char || (c =? "010")%char || (c =? "013")%char);
    [|auto with chars].
  eapply chars_within_trans; [exact IH|auto with chars].
Qed.

Lemma span_within q s : chars_within (fst (span q s)) s /\ chars_within (snd (span q s)) s.
Proof.
  induction s as [|c s [IH1 IH2]]; simpl; [split; apply chars_within_refl|].
  destruct (q c); [|split; [intros p H; discriminate|apply chars_within_refl]].
  destruct (span q s) as [a b]. simpl in *. split.
  - apply chars_within_cons, IH1.
  - eapply chars_within_trans; [exact IH2|apply chars_within_tail].
Qed.

Lemma drop_scheme_within s : chars_within (drop_scheme s) s.
Proof.
  unfold drop_scheme. pose proof (span_within (fun c => negb (c =? ":")%char) s) as [_ H2].
  destruct (span _ s) as [before rest]. simpl in H2.
  destruct before as [|c0 before]; [apply chars_within_refl|].
  destruct rest as [|colon after]; [apply chars_within_refl|].
  destruct (is_alpha c0 && string_forallb scheme_char (String c0 before));
    [|apply chars_within_refl].
  eapply chars_within_trans; [apply chars_within_tail|exact H2].
Qed.

Lemma string_existsb_weaken (p p' : ascii -> bool) s :
  (forall c, p c = true -> p' c = true) ->
  string_existsb p s = true -> string_existsb p' s = true.
Proof.
  intros Hpp. induction s as [|c s IH]; simpl; [auto|].
  intros H. apply orb_true_iff in H as [H|H].
  - now rewrite (Hpp c H).
  - rewrite (IH H). apply orb_true_r.
Qed.

(** A URL without square brackets has a network location. *)
Lemma urlparse_netloc_ok u :
  string_existsb is_bracket u = false -> exists netloc, urlparse_netloc u = Ok netloc.
Proof.
  intros Hu. unfold urlparse_netloc.
  pose proof (chars_within_trans _ _ _
                (drop_scheme_within (remove_unsafe (lstrip_c0 u)))
                (chars_within_trans _ _ _ (remove_unsafe_within _) (lstrip_c0_within u))) as Hw.
  destruct (drop_scheme (remove_unsafe (lstrip_c0 u))) as [|s1 [|s2 rest]]; eauto.
  destruct ((s1 =? "/")%char && (s2 =? "/")%char); eauto.
  assert (Hn : chars_within (fst (span (fun c => negb (netloc_end c)) rest)) u).
  { eapply chars_within_trans; [apply span_within|].
    eapply chars_within_trans; [|exact Hw].
    eapply chars_within_trans; apply chars_within_tail. }
  set (netloc := fst (span (fun c => negb (netloc_end c)) rest)) in *.
  assert (Hopen : string_existsb (fun c => (c =? "[")%char) netloc = false).
  { apply not_true_is_false. intros H. apply Hn in H.
    apply (string_existsb_weaken _ is_bracket) in H; [congruence|].
    intros c Hc. unfold is_bracket. now rewrite Hc. }
  assert (Hclose : string_existsb (fun c => (c =? "]")%char) netloc = false).
  { apply not_true_is_false. intros H. apply Hn in H.
    apply (string_existsb_weaken _ is_bracket) in H; [congruence|].
    intros c Hc. unfold is_bracket. rewrite Hc. apply orb_true_r. }
  rewrite Hopen, Hclose. simpl. eauto.
Qed.

Lemma try_patterns_str ps s : exists r, try_patterns ps (PStr s) = Ok r.
Proof.
  induction ps as [|p ps [r IH]]; cbn [try_patterns re_search bind]; [eauto|].
  destruct (search_from p s) as [m|]; [|eauto].
  destruct (strptime m); eauto.
Qed.

(** On three strings the date extractor returns. *)
Lemma extract_best_date_str u t c :
  exists date, extract_best_date E (PStr u) (PStr t) (PStr c) = Ok date.
Proof.
  unfold extract_best_date. cbn [scan_texts].
  destruct (try_patterns_str patterns u) as [[r1|] ->]; cbn [bind]; [eauto|].
  destruct (try_patterns_str patterns t) as [[r2|] ->]; cbn [bind]; [eauto|].
  destruct (try_patterns_str patterns c) as [[r3|] ->]; cbn [bind]; eauto.
Qed.

(** One well-formed raw result gives one record with the eight documented
    fields, in the order of the source, none of them [None]. *)
Lemma structure_article_ok raw :
  well_formed_raw E raw = true ->
  exists d a,
    raw = PDict d
    /\ structure_article E raw = Ok (PDict a)
    /\ dict_keys a = documented_fields
    /\ is_structured_article (PDict a) = true
    /\ dict_get a "title" = Some (resolved_title d).
Proof.
  destruct raw as [| | | | | |d]; try discriminate. cbn [well_formed_raw].
  rewrite !andb_true_iff. intros [[[Hurl Htitle] Hsource] Hnlp].
  unfold cleaned_content in Hnlp. exists d. unfold structure_article, resolved_title. cbn [py_get bind].
  set (url := match dict_get d "url" with Some v => v | None => PStr "" end).
  assert (Hu : exists u, url = PStr u
                         /\ match dict_get d "url" with Some (PStr u) => u | _ => "" end = u
                         /\ (match dict_get d "source" with Some s => truthy s | None => false end
                             = true \/ string_existsb is_bracket u = false)).
  { unfold url. destruct (dict_get d "url") as [[| | | |u| |]|]; try discriminate.
    - exists u. repeat split. apply orb_true_iff in Hsource as [H|H]; [auto|].
      right. apply andb_prop in H as [H _]. now apply negb_true_iff.
    - exists "". repeat split. right. reflexivity. }
  destruct Hu as (u & -> & -> & Hsrc). clear Hurl Hsource.
  set (title0 := match dict_get d "title" with Some v => v | None => PStr "" end).
  assert (Ht : exists ts,
             (if truthy title0 then title0
              else if (basename u =? "") then PStr "No Title" else PStr (basename u)) = PStr ts
             /\ truthy (PStr ts) = true
             /\ (if truthy title0 then Ok title0
                 else bind (os_path_basename (PStr u))
                        (fun base => Ok (if truthy (PStr base) then PStr base
                                         else PStr "No Title"))) = Ok (PStr ts)).
  { destruct (truthy title0) eqn:Htt.
    - unfold title0 in *. destruct (dict_get d "title") as [t|]; [|discriminate].
      rewrite Htt in Htitle. rewrite orb_false_r in Htitle.
      destruct t; try discriminate. eauto.
    - cbn [os_path_basename bind truthy]. destruct (basename u =? "") eqn:Hb; simpl; eauto.
      eexists. split; [reflexivity|]. split; [|reflexivity]. simpl. now rewrite Hb. }
  destruct Ht as (ts & -> & Hts & ->). cbn [bind].
  set (source0 := match dict_get d "source" with Some v => v | None => PStr "" end).
  assert (Hs : exists sv,
             (if truthy source0 then Ok source0
              else bind (extract_domain_as_source (PStr u)) (fun domain => Ok (PStr domain)))
             = Ok sv /\ is_none sv = false).
  { destruct (truthy source0) eqn:Hts0.
    - exists source0. split; [reflexivity|]. destruct source0; try reflexivity. discriminate.
    - destruct Hsrc as [Hsrc|Hsrc].
      + unfold source0 in Hts0. destruct (dict_get d "source"); congruence.
      + destruct (urlparse_netloc_ok u Hsrc) as [netloc Hn].
        cbn [extract_domain_as_source]. rewrite Hn. cbn [bind]. eauto. }
  destruct Hs as (sv & -> & Hsv). cbn [bind].
  destruct (extract_best_date_str u ts
              (clean_text E match dict_get d "content" with Some v => v | None => PStr "" end))
    as [date ->]. cbn [bind]. unfold nlp. rewrite Hnlp. cbn [bind].
  eexists. split; [reflexivity|]. split; [reflexivity|]. split; [reflexivity|].
  split; [|reflexivity].
  cbn. rewrite Hsv. cbn. rewrite !andb_true_r. exact Hts.
Qed.

Lemma structure_loop_ok raw_results :
  Forall (fun raw => well_formed_raw E raw = true) raw_results ->
  exists out,
    structure_loop E raw_results = Ok out
    /\ length out = length raw_results
    /\ forall i raw, raw_results !! i = Some raw ->
         exists d a,
           raw = PDict d /\ out !! i = Some (PDict a)
           /\ dict_keys a = documented_fields
           /\ is_structured_article (PDict a) = true
           /\ dict_get a "title" = Some (resolved_title d).
Proof.
  induction raw_results as [|raw rest IH]; intros Hall.
  - exists []. split; [reflexivity|]. split; [reflexivity|].
    intros i raw. rewrite lookup_nil. discriminate.
  - inversion Hall as [|? ? Hraw Hrest]; subst.
    destruct (IH Hrest) as (out & Hout & Hlen & Hnth).
    destruct (structure_article_ok raw Hraw) as (d & a & -> & Ha & Hkeys & Hs & Ht).
    exists (PDict a :: out). cbn [structure_loop]. rewrite Ha, Hout. cbn [bind].
    split; [reflexivity|]. split; [simpl; now rewrite Hlen|].
    intros [|i] raw Hi; cbn in Hi |- *.
    + injection Hi as <-. exists d, a. auto.
    + apply Hnth, Hi.
Qed.

Lemma try_patterns_needs_str ps text r :
  ps <> [] -> try_patterns ps text = Ok r -> exists s, text = PStr s.
Proof.
  destruct ps as [|p ps]; [congruence|]. intros _.
  destruct text; try discriminate. eauto.
Qed.

(** The date extractor returns only when the URL is a [str]: it is the
    first text searched. *)
Lemma extract_best_date_needs_str url title content date :
  extract_best_date E url title content = Ok date -> exists u, url = PStr u.
Proof.
  unfold extract_best_date. cbn [scan_texts].
  destruct (try_patterns patterns url) as [r|e] eqn:Hr; [|discriminate].
  intros _. apply (try_patterns_needs_str patterns url r); [discriminate|exact Hr].
Qed.

(** Whatever the raw result, a record that is emitted has the eight
    documented fields, in the order of the source, none of them [None], and
    the title of the fallback chain. *)
Lemma structure_article_inv raw a :
  structure_article E raw = Ok a ->
  exists d a',
    raw = PDict d /\ a = PDict a'
    /\ dict_keys a' = documented_fields
    /\ is_structured_article a = true
    /\ dict_get a' "title" = Some (resolved_title d).
Proof.
  destruct raw as [| | | | | |d]; try discriminate.
  unfold structure_article. cbn [py_get bind].
  set (url := match dict_get d "url" with Some v => v | None => PStr "" end).
  set (title0 := match dict_get d "title" with Some v => v | None => PStr "" end).
  set (source0 := match dict_get d "source" with Some v => v | None => PStr "" end).
  destruct (if truthy title0 then Ok title0 else _) as [title|] eqn:Htitle; [|discriminate].
  cbn [bind].
  destruct (if truthy source0 then Ok source0 else _) as [source|] eqn:Hsource; [|discriminate].
  cbn [bind].
  destruct (extract_best_date E url title _) as [date|] eqn:Hdate; [|discriminate].
  cbn [bind]. destruct (nlp E _) as [entities|]; [|discriminate].
  cbn [bind]. intros H. apply Ok_inj in H. subst a.
  apply extract_best_date_needs_str in Hdate as [u Hu].
  assert (Hu' : match dict_get d "url" with Some (PStr u) => u | _ => "" end = u).
  { unfold url in Hu. destruct (dict_get d "url") as [[]|]; congruence. }
  clearbody url. subst url.
  assert (Ht : title = (if truthy title0 then title0
                        else if (basename u =? "") then PStr "No Title" else PStr (basename u))
               /\ truthy title = true).
  { destruct (truthy title0) eqn:Htt.
    - apply Ok_inj in Htitle. subst title. auto.
    - cbn [os_path_basename bind truthy] in Htitle. apply Ok_inj in Htitle. subst title.
      destruct (basename u =? "") eqn:Hb; cbn [negb truthy]; rewrite ?Hb; auto. }
  destruct Ht as [Ht Htruthy].
  assert (Hs : is_none source = false).
  { destruct (truthy source0) eqn:Hts.
    - apply Ok_inj in Hsource. subst source. destruct source0; try reflexivity. discriminate.
    - cbn [extract_domain_as_source] in Hsource.
      destruct (urlparse_netloc u); [|discriminate]. cbn [bind] in Hsource.
      apply Ok_inj in Hsource. subst source. reflexivity. }
  eexists d, _. split; [reflexivity|]. split; [reflexivity|]. split; [reflexivity|].
  split.
  - cbn. rewrite Hs, Htruthy. cbn. destruct title; try discriminate; reflexivity.
  - cbn [dict_get String.eqb Ascii.eqb Bool.eqb]. unfold resolved_title. fold title0.
    rewrite Hu'. congruence.
Qed.

Lemma structure_loop_inv raw_results out :
  structure_loop E raw_results = Ok out ->
  length out = length raw_results
  /\ forall i a, out !! i = Some a ->
       exists raw, raw_results !! i = Some raw /\ structure_article E raw = Ok a.
Proof.
  revert out. induction raw_results as [|raw rest IH]; intros out; cbn [structure_loop].
  - intros H. apply Ok_inj in H. subst out. split; [reflexivity|].
    intros i a. rewrite lookup_nil. discriminate.
  - destruct (structure_article E raw) as [a0|] eqn:Ha; [|discriminate]. cbn [bind].
    destruct (structure_loop E rest) as [out'|] eqn:Hout; [|discriminate]. cbn [bind].
    intros H. apply Ok_inj in H. subst out. destruct (IH out' eq_refl) as [Hlen Hnth].
    split; [simpl; now rewrite Hlen|].
    intros [|i] a Hi; cbn in Hi |- *.
    + injection Hi as <-. eauto.
    + apply Hnth, Hi.
Qed.


End Structurer.



(** C9: the code removes every [www.] of the network location, not only a
    leading one.  At the URL [https://mywww.com/report], with no explicit
    source, the source comes out as [mycom]; the claim asks for
    [mywww.com]. *)
Theorem inner_www_is_removed :
  urlparse_netloc "https://mywww.com/report" = Ok "mywww.com"
  /\ extract_domain_as_source (PStr "https://mywww.com/report") = Ok "mycom"
  /\ forall E, exists a,
       structure_articles E (PList [PDict [("url", PStr "https://mywww.com/report");
                                           ("title", PStr "Report")]])
       = Ok [PDict a]
       /\ dict_get a "source" = Some (PStr "mycom").
Proof.
  split; [reflexivity|]. split; [reflexivity|].
  intros E. eexists. split; reflexivity.
Qed.

(** ** Date extractor *)

(** *** The loops and the first parsed match *)

Lemma first_parsed_app a b :
  first_parsed (a ++ b)%list
  = match first_parsed a with Some d => Some d | None => first_parsed b end.
Proof.
  induction a as [|m a IH]; simpl; [reflexivity|].
  destruct (strptime m); [reflexivity|exact IH].
Qed.

Lemma try_patterns_first_parsed ps s :
  try_patterns ps (PStr s)
  = Ok (first_parsed
          (flat_map (fun p => match search_from p s with Some m => [m] | None => [] end) ps)).
Proof.
  induction ps as [|p ps IH]; cbn [try_patterns re_search bind flat_map]; [reflexivity|].
  destruct (search_from p s) as [m|]; cbn [app first_parsed]; [|exact IH].
  destruct (strptime m); [reflexivity|exact IH].
Qed.

Lemma search_from_some p s m :
  search_from p s = Some m -> exists suffix, p suffix = Some m.
Proof.
  induction s as [|c s IH]; cbn [search_from].
  - destruct (p "") eqn:H; [intros [= <-]; eauto|discriminate].
  - destruct (p (String c s)) eqn:H; [intros [= <-]; eauto|exact IH].
Qed.

(** *** What [strptime] accepts *)

Lemma digit_cases c :
  is_digit c = true ->
  In c ["0"; "1"; "2"; "3"; "4"; "5"; "6"; "7"; "8"; "9"]%char.
Proof.
  destruct c as [[] [] [] [] [] [] [] []]; intros H; vm_compute in H; try discriminate;
    simpl; tauto.
Qed.

Lemma strptime_head s d :
  strptime s = Some d ->
  exists y1 y2 y3 y4 r,
    s = String y1 (String y2 (String y3 (String y4 (String "-" r))))
    /\ is_digit y1 = true /\ is_digit y2 = true /\ is_digit y3 = true /\ is_digit y4 = true.
Proof.
  unfold strptime.
  destruct s as [|y1 [|y2 [|y3 [|y4 [|dash r]]]]]; try discriminate.
  destruct (is_digit y1) eqn:H1; [|discriminate].
  destruct (is_digit y2) eqn:H2; [|discriminate].
  destruct (is_digit y3) eqn:H3; [|discriminate].
  destruct (is_digit y4) eqn:H4; [|discriminate].
  destruct (Ascii.eqb_spec dash "-"); [subst|discriminate].
  intros _. exists y1, y2, y3, y4, r. auto.
Qed.

Lemma span_forallb p s : string_forallb p (fst (span p s)) = true.
Proof.
  induction s as [|c s IH]; simpl; [reflexivity|].
  destruct (p c) eqn:Hc; [|reflexivity].
  destruct (span p s). simpl in *. now rewrite Hc.
Qed.

Lemma match_word_year_at_space r m :
  match_word_year_at r = Some m -> exists t, m = String " " t.
Proof.
  unfold match_word_year_at. destruct r as [|sp r]; [discriminate|].
  destruct (Ascii.eqb_spec sp " "); [subst|discriminate].
  destruct (span is_word r) as [w r']. destruct (w =? ""); [discriminate|].
  destruct (match_year_at r'); [|discriminate]. intros [= <-]. eauto.
Qed.

(** A match of the second pattern has a space in its second or third place,
    where [%Y] wants a digit. *)
Lemma dmy_match_never_parses s m : match_dmy_at s = Some m -> strptime m = None.
Proof.
  unfold match_dmy_at. intros H.
  assert (Hm : (exists d1 d2 t, m = String d1 (String d2 (String " " t)))
               \/ exists d1 t, m = String d1 (String " " t)).
  { destruct s as [|d1 [|d2 r]]; [discriminate| |].
    - destruct (is_digit d1); [|discriminate]. discriminate.
    - destruct (is_digit d1 && is_digit d2) eqn:H12.
      + destruct (match_word_year_at r) as [m'|] eqn:Hw.
        * apply match_word_year_at_space in Hw as [t ->]. injection H as <-. left. eauto.
        * cbn [append_match] in H. destruct (is_digit d1); [|discriminate].
          destruct (match_word_year_at (String d2 r)) as [m'|] eqn:Hw'; [|discriminate].
          apply match_word_year_at_space in Hw' as [t ->]. injection H as <-. right. eauto.
      + destruct (is_digit d1); [|discriminate].
        destruct (match_word_year_at (String d2 r)) as [m'|] eqn:Hw'; [|discriminate].
        apply match_word_year_at_space in Hw' as [t ->]. injection H as <-. right. eauto. }
  destruct (strptime m) as [d|] eqn:Hp; [|reflexivity].
  apply strptime_head in Hp as (y1 & y2 & y3 & y4 & r & -> & H1 & H2 & H3 & H4).
  destruct Hm as [(d1 & d2 & t & [= -> -> -> _])|(d1 & t & [= -> -> _])]; discriminate.
Qed.

(** A text that starts with word characters and a space is no date for
    [%Y-%m-%d]: the space, or a word character, stands where a digit or the
    dash must. *)
Lemma word_space_never_parses w t :
  string_forallb is_word w = true -> strptime (w ++ String " " t) = None.
Proof.
  intros Hw. destruct (strptime (w ++ String " " t)) as [d|] eqn:Hp; [|reflexivity].
  apply strptime_head in Hp as (y1 & y2 & y3 & y4 & r & Heq & H1 & H2 & H3 & H4).
  destruct w as [|a [|b [|c [|e [|f w]]]]]; cbn [append] in Heq;
    injection Heq as; subst; try discriminate.
  cbn [string_forallb] in Hw. rewrite !andb_true_iff in Hw.
  destruct Hw as (_ & _ & _ & _ & Hf & _). discriminate.
Qed.

(** A match of the third pattern starts with a word and a space. *)
Lemma mdy_match_never_parses s m : match_mdy_at s = Some m -> strptime m = None.
Proof.
  unfold match_mdy_at. pose proof (span_forallb is_word s) as Hw.
  destruct (span is_word s) as [w r]. cbn [fst] in Hw.
  destruct (w =? ""); [discriminate|].
  destruct r as [|sp r1]; [discriminate|].
  destruct (Ascii.eqb_spec sp " "); [subst|discriminate].
  intros H.
  assert (Hm : exists t, m = w ++ String " " t).
  { destruct r1 as [|d1 [|d2 r2]]; [discriminate| |].
    - destruct (is_digit d1); [|discriminate].
      destruct (match_comma_year_at ""); [|discriminate].
      injection H as <-. rewrite append_assoc. eauto.
    - destruct (is_digit d1 && is_digit d2).
      + destruct (match_comma_year_at r2).
        * injection H as <-. rewrite append_assoc. eauto.
        * cbn [append_match] in H. destruct (is_digit d1); [|discriminate].
          destruct (match_comma_year_at (String d2 r2)); [|discriminate].
          injection H as <-. rewrite append_assoc. eauto.
      + destruct (is_digit d1); [|discriminate].
        destruct (match_comma_year_at (String d2 r2)); [|discriminate].
        injection H as <-. rewrite append_assoc. eauto. }
  destruct Hm as [t ->]. apply word_space_never_parses, Hw.
Qed.

Ltac enum_digit c H :=
  apply digit_cases in H; cbn [In] in H;
  destruct H as [H|[H|[H|[H|[H|[H|[H|[H|[H|[H|[]]]]]]]]]]]; subst c.

(** The year of a match of the first pattern prints as it was read. *)
Lemma year_reads_back c d :
  is_digit c = true -> is_digit d = true ->
  let y := digits_value 0 (String "2" (String "0" (String c (String d "")))) in
  pad4 y = String "2" (String "0" (String c (String d ""))) /\ (2000 <= y <= 2099)%Z.
Proof.
  intros Hc Hd. enum_digit c Hc; enum_digit d Hd; vm_compute; intuition discriminate.
Qed.

Lemma month_day_match_in alts mo dy rest :
  month_day_match alts = Some (mo, dy, rest) ->
  exists r', In (mo, String "-" r') alts /\ day_match r' = Some (dy, rest).
Proof.
  induction alts as [|[m r] alts IH]; cbn [month_day_match]; [discriminate|].
  intros H.
  assert (Hnext : month_day_match alts = Some (mo, dy, rest) ->
                  exists r', In (mo, String "-" r') ((m, r) :: alts)
                             /\ day_match r' = Some (dy, rest)).
  { intros H'. destruct (IH H') as (r' & Hin & Hd). exists r'. split; [now right|exact Hd]. }
  destruct r as [|dash r']; [auto|].
  destruct (Ascii.eqb_spec dash "-") as [->|_]; [|auto].
  destruct (day_match r') as [[d r'']|] eqn:Hd; [|auto].
  injection H as <- <- <-. exists r'. split; [now left|exact Hd].
Qed.

Lemma month_alternatives_in m1 m2 tl mo r :
  In (mo, r) (month_alternatives (String m1 (String m2 tl))) ->
  r = String m2 tl
  \/ (r = tl /\ is_digit m1 = true /\ is_digit m2 = true
      /\ pad2 mo = String m1 (String m2 "") /\ (1 <= mo <= 12)%Z).
Proof.
  cbn [month_alternatives]. rewrite !in_app_iff. intros [[H|H]|H].
  - destruct (Ascii.eqb_spec m1 "1"); [subst m1|contradiction].
    destruct (in_range 48 50 m2) eqn:H2; [|contradiction].
    destruct H as [[= <- <-]|[]]. right. split; [reflexivity|].
    destruct m2 as [[] [] [] [] [] [] [] []]; vm_compute in H2; try discriminate;
      vm_compute; intuition discriminate.
  - destruct (Ascii.eqb_spec m1 "0"); [subst m1|contradiction].
    destruct (in_range 49 57 m2) eqn:H2; [|contradiction].
    destruct H as [[= <- <-]|[]]. right. split; [reflexivity|].
    destruct m2 as [[] [] [] [] [] [] [] []]; vm_compute in H2; try discriminate;
      vm_compute; intuition discriminate.
  - destruct (in_range 49 57 m1); [|contradiction].
    destruct H as [[= <- <-]|[]]. left. reflexivity.
Qed.

(** Two digits followed by anything: [%m] takes both digits, and the dash
    must follow them; a month read from one digit is followed by a digit. *)
Lemma month_reads_back m1 m2 tl mo dy rest :
  is_digit m2 = true ->
  month_day_match (month_alternatives (String m1 (String m2 tl))) = Some (mo, dy, rest) ->
  exists tl',
    tl = String "-" tl' /\ day_match tl' = Some (dy, rest)
    /\ pad2 mo = String m1 (String m2 "") /\ (1 <= mo <= 12)%Z.
Proof.
  intros H2 H. apply month_day_match_in in H as (r' & Hin & Hday).
  apply month_alternatives_in in Hin as [[= <- _]|(<- & _ & _ & Hpad & Hrange)].
  - discriminate.
  - exists r'. auto.
Qed.

(** Two digits that [%d] reads to the end print as they were read. *)
Lemma day_reads_back d1 d2 dy :
  is_digit d1 = true -> is_digit d2 = true ->
  day_match (String d1 (String d2 "")) = Some (dy, "") ->
  pad2 dy = String d1 (String d2 "") /\ (1 <= dy <= 31)%Z.
Proof.
  intros H1 H2 H. enum_digit d1 H1; enum_digit d2 H2; vm_compute in H; try discriminate;
    injection H as <-; vm_compute; intuition discriminate.
Qed.

Lemma substring_0_0 s : substring 0 0 s = "".
Proof. destruct s; reflexivity. Qed.

(** A match of the first pattern that parses is a calendar date written
    with dashes, and it is reformatted to itself. *)
Lemma numeric_match_reads_back s m d :
  match_numeric_at s = Some m -> strptime m = Some d ->
  strftime d = m
  /\ (2000 <= year d <= 2099)%Z /\ (1 <= month d <= 12)%Z
  /\ (1 <= day d <= days_in_month (year d) (month d))%Z.
Proof.
  unfold match_numeric_at.
  destruct s as [|a [|b [|c [|e [|s1 [|m1 [|m2 [|s2 [|d1 [|d2 tl]]]]]]]]]]; try discriminate.
  destruct (Ascii.eqb_spec a "2"); [subst a|discriminate].
  destruct (Ascii.eqb_spec b "0"); [subst b|discriminate].
  cbn [andb].
  destruct (is_digit c) eqn:Hc; [|discriminate].
  destruct (is_digit e) eqn:He; [|discriminate].
  destruct (is_sep s1) eqn:Hs1; [|discriminate].
  destruct (is_digit m1) eqn:Hm1; [|discriminate].
  destruct (is_digit m2) eqn:Hm2; [|discriminate].
  destruct (is_sep s2) eqn:Hs2; [|discriminate].
  destruct (is_digit d1) eqn:Hd1; [|discriminate].
  destruct (is_digit d2) eqn:Hd2; [|discriminate].
  cbn [andb substring]. rewrite substring_0_0. intros [= <-]. unfold strptime.
  rewrite Hc, He. cbn [is_digit in_range code nat_of_ascii andb].
  change (is_digit "2" && is_digit "0")%bool with true. cbn [andb].
  destruct (Ascii.eqb_spec s1 "-"); [subst s1|discriminate].
  destruct (month_day_match _) as [[[mo dy] rest]|] eqn:Hmd; [|discriminate].
  apply month_reads_back in Hmd as (tl' & [= -> <-] & Hday & Hmo & Hmo_range);
    [|assumption].
  destruct (year_reads_back c e Hc He) as [Hy Hy_range].
  set (y := digits_value 0 (String "2" (String "0" (String c (String e ""))))) in *.
  destruct (String.eqb_spec rest ""); [subst rest|discriminate].
  destruct (1 <=? y)%Z; [|discriminate].
  destruct (dy <=? days_in_month y mo)%Z eqn:Hdim; [|discriminate].
  cbn [andb]. intros [= <-].
  apply day_reads_back in Hday as [Hdy Hdy_range]; [|assumption|assumption].
  unfold strftime. cbn [year month day]. rewrite Hy, Hmo, Hdy.
  split; [reflexivity|]. split; [exact Hy_range|]. split; [exact Hmo_range|].
  apply Z.leb_le in Hdim. lia.
Qed.

Lemma first_parsed_matches_in text : first_parsed (matches_in text) = iso_match text.
Proof.
  unfold matches_in, iso_match, patterns. cbn [flat_map].
  rewrite !first_parsed_app.
  assert (H2 : first_parsed
                 match search_from match_dmy_at text with Some m => [m] | None => [] end = None).
  { destruct (search_from match_dmy_at text) as [m|] eqn:Hs; [|reflexivity].
    apply search_from_some in Hs as [suffix Hs]. cbn [first_parsed].
    now rewrite (dmy_match_never_parses _ _ Hs). }
  assert (H3 : first_parsed
                 match search_from match_mdy_at text with Some m => [m] | None => [] end = None).
  { destruct (search_from match_mdy_at text) as [m|] eqn:Hs; [|reflexivity].
    apply search_from_some in Hs as [suffix Hs]. cbn [first_parsed].
    now rewrite (mdy_match_never_parses _ _ Hs). }
  rewrite H2, H3. cbn [first_parsed app].
  destruct (search_from match_numeric_at text) as [m|] eqn:Hs; [|reflexivity].
  cbn [first_parsed]. destruct (strptime m) as [d|] eqn:Hp; [|reflexivity].
  apply search_from_some in Hs as [suffix Hs].
  destruct (numeric_match_reads_back _ _ _ Hs Hp) as [-> _]. reflexivity.
Qed.

Lemma extract_best_date_by_iso_match (E : Env) url title content :
  extract_best_date E (PStr url) (PStr title) (PStr content)
  = Ok (match iso_match url, iso_match title, iso_match content with
        | Some m, _, _ => m
        | None, Some m, _ => m
        | None, None, Some m => m
        | None, None, None => today E
        end).
Proof.
  unfold extract_best_date. cbn [scan_texts]. rewrite !try_patterns_first_parsed.
  fold (matches_in url) (matches_in title) (matches_in content).
  rewrite !first_parsed_matches_in. cbn [bind].
  destruct (iso_match url); cbn [bind]; [reflexivity|].
  destruct (iso_match title); cbn [bind]; [reflexivity|].
  destruct (iso_match content); reflexivity.
Qed.

(** *** Dates as they are written *)

Lemma zrange_in lo n z : (lo <= z < lo + Z.of_nat n)%Z -> In z (zrange lo n).
Proof.
  intros H. unfold zrange. apply in_map_iff. exists (Z.to_nat (z - lo)). split; [lia|].
  apply in_seq. lia.
Qed.

Lemma year_prints_all y : (2000 <= y <= 2099)%Z -> year_prints y = true.
Proof.
  intros H.
  assert (Hall : forallb year_prints (zrange 2000 100) = true) by (vm_compute; reflexivity).
  rewrite forallb_forall in Hall. apply Hall, zrange_in. lia.
Qed.

Lemma month_day_print_all m d :
  (1 <= m <= 12)%Z -> (1 <= d <= 31)%Z -> month_day_print m d = true.
Proof.
  intros Hm Hd.
  assert (Hall : forallb (fun m => forallb (month_day_print m) (zrange 1 31)) (zrange 1 12)
                 = true) by (vm_compute; reflexivity).
  rewrite forallb_forall in Hall. specialize (Hall m (zrange_in 1 12 m ltac:(lia))).
  rewrite forallb_forall in Hall. apply Hall, zrange_in. lia.
Qed.

Lemma days_in_month_le y m : (days_in_month y m <= 31)%Z.
Proof.
  unfold days_in_month. destruct (m =? 2)%Z; [destruct (is_leap y); lia|].
  destruct ((m =? 4)%Z || (m =? 6)%Z || (m =? 9)%Z || (m =? 11)%Z); lia.
Qed.

(** A calendar day prints as [20], two digits, a dash, two digits, a dash
    and two digits, and [%Y-%m-%d] reads it back. *)
Lemma strftime_shape d :
  calendar_day d = true ->
  exists c e m1 m2 d1 d2,
    strftime d
    = String "2" (String "0" (String c (String e (String "-" (String m1 (String m2
        (String "-" (String d1 (String d2 "")))))))))
    /\ is_digit c = true /\ is_digit e = true /\ is_digit m1 = true /\ is_digit m2 = true
    /\ is_digit d1 = true /\ is_digit d2 = true
    /\ year d = digits_value 0 (String "2" (String "0" (String c (String e ""))))
    /\ month d = digits_value 0 (String m1 (String m2 ""))
    /\ day d = digits_value 0 (String d1 (String d2 ""))
    /\ strptime (strftime d) = Some d.
Proof.
  destruct d as [y m dd]. unfold calendar_day, strftime. cbn [year month day].
  rewrite !andb_true_iff, !Z.leb_le. intros [[[[[Hy1 Hy2] Hm1] Hm2] Hd1] Hd2].
  pose proof (days_in_month_le y m) as Hle.
  pose proof (year_prints_all y ltac:(lia)) as Hy.
  pose proof (month_day_print_all m dd ltac:(lia) ltac:(lia)) as Hmd.
  unfold year_prints in Hy. unfold month_day_print in Hmd.
  destruct (pad4 y) as [|a [|b [|c [|e [|]]]]]; try discriminate.
  destruct (pad2 m) as [|m1 [|m2 [|]]]; try discriminate.
  destruct (pad2 dd) as [|d1 [|d2 [|]]]; try discriminate.
  rewrite !andb_true_iff in Hy. destruct Hy as [[[[Ha Hb] Hc] He] Hval].
  apply Ascii.eqb_eq in Ha. apply Ascii.eqb_eq in Hb. subst a b. apply Z.eqb_eq in Hval.
  rewrite !andb_true_iff in Hmd.
  destruct Hmd as [[[[[[Hm1d Hm2d] Hd1d] Hd2d] Hmval] Hdval] Hread].
  apply Z.eqb_eq in Hmval. apply Z.eqb_eq in Hdval.
  cbn [append] in Hread |- *. exists c, e, m1, m2, d1, d2.
  split; [reflexivity|]. do 6 (split; [assumption|]).
  split; [symmetry; exact Hval|]. split; [symmetry; exact Hmval|].
  split; [symmetry; exact Hdval|].
  unfold strptime. rewrite Hc, He. change (is_digit "2" && is_digit "0")%bool with true.
  change (("-" =? "-")%char) with true. cbn [andb].
  destruct (month_day_match _) as [[[m' d'] rest]|]; [|discriminate].
  rewrite !andb_true_iff in Hread. destruct Hread as [[Hm' Hd'] Hrest].
  apply Z.eqb_eq in Hm'. apply Z.eqb_eq in Hd'. subst m' d'. rewrite Hrest, Hval.
  assert (H1 : (1 <=? y)%Z = true) by (apply Z.leb_le; lia).
  assert (H2 : (dd <=? days_in_month y m)%Z = true) by (apply Z.leb_le; lia).
  rewrite H1, H2. reflexivity.
Qed.

Lemma match_numeric_at_two c r : (c =? "2")%char = false -> match_numeric_at (String c r) = None.
Proof.
  intros Hc. unfold match_numeric_at.
  destruct r as [|b [|c1 [|e [|s1 [|m1 [|m2 [|s2 [|d1 [|d2 tl]]]]]]]]]; try reflexivity.
  rewrite Hc. reflexivity.
Qed.

(** The numeric pattern looks for a [2]: a text without one before the
    date is passed over. *)
Lemma search_numeric_skip pre s :
  free_of "2" pre = true ->
  search_from match_numeric_at (pre ++ s) = search_from match_numeric_at s.
Proof.
  unfold free_of. induction pre as [|c pre IH]; [reflexivity|].
  cbn [string_existsb append]. rewrite negb_true_iff, orb_false_iff. intros [Hc Hpre].
  rewrite Ascii.eqb_sym in Hc. cbn [search_from]. rewrite (match_numeric_at_two _ _ Hc).
  apply IH. rewrite Hpre. reflexivity.
Qed.

Lemma search_from_head p s m : p s = Some m -> search_from p s = Some m.
Proof. intros H. destruct s; cbn [search_from]; rewrite H; reflexivity. Qed.

(** A calendar day written with dashes, after a text without a [2], is the
    date read in the text, whatever follows. *)
Lemma iso_match_at_date d pre post :
  calendar_day d = true -> free_of "2" pre = true ->
  iso_match (pre ++ strftime d ++ post) = Some (strftime d).
Proof.
  intros Hd Hpre. unfold iso_match. rewrite (search_numeric_skip _ _ Hpre).
  destruct (strftime_shape d Hd)
    as (c & e & m1 & m2 & d1 & d2 & Heq & Hc & He & Hm1 & Hm2 & Hd1 & Hd2 & _ & _ & _ & Hread).
  assert (Hm : match_numeric_at (strftime d ++ post) = Some (strftime d)).
  { rewrite Heq. cbn [append]. unfold match_numeric_at.
    rewrite Hc, He, Hm1, Hm2, Hd1, Hd2. cbn [substring]. rewrite substring_0_0. reflexivity. }
  rewrite (search_from_head _ _ _ Hm), Hread. reflexivity.
Qed.

Lemma free_of_cons c a s :
  free_of c (String a s) = true -> (a =? c)%char = false /\ free_of c s = true.
Proof.
  unfold free_of. cbn [string_existsb]. rewrite negb_true_iff, orb_false_iff.
  intros [Ha Hs]. rewrite Ascii.eqb_sym in Ha. rewrite Hs. auto.
Qed.

(** No date is read in a text without a dash. *)
Lemma iso_match_no_dash text : free_of "-" text = true -> iso_match text = None.
Proof.
  unfold iso_match. intros Hfree.
  destruct (search_from match_numeric_at text) as [m|] eqn:Hs; [|reflexivity].
  destruct (strptime m) as [d|] eqn:Hp; [|reflexivity]. exfalso.
  apply strptime_head in Hp as (y1 & y2 & y3 & y4 & r & -> & _).
  revert Hs. induction text as [|c text IH]; cbn [search_from].
  - discriminate.
  - destruct (match_numeric_at (String c text)) as [m|] eqn:Hm.
    + intros [= ->]. unfold match_numeric_at in Hm.
      destruct text as [|b [|c1 [|e [|s1 [|m1 [|m2 [|s2 [|d1 [|d2 tl]]]]]]]]];
        try discriminate.
      destruct (_ && _); [|discriminate]. cbn [substring] in Hm. injection Hm as _ _ _ _ Hs1 _.
      subst s1. do 4 (apply free_of_cons in Hfree as [_ Hfree]).
      apply free_of_cons in Hfree as [Hdash _]. discriminate.
    + apply free_of_cons in Hfree as [_ Hfree]. exact (IH Hfree).
Qed.



(** ** Text Normalizer *)

Section Normalizer.

Variable E : Env.

(** *** The steps that leave plain text alone *)

Lemma contains_amp s :
  contains "&" s = string_existsb (fun c => (c =? "&")%char) s.
Proof.
  induction s as [|c s IH]; [reflexivity|].
  cbn [contains string_existsb String.prefix]. rewrite IH.
  destruct (ascii_dec "&" c) as [<-|Hne].
  - destruct s; reflexivity.
  - apply not_eq_sym, Ascii.eqb_neq in Hne. now rewrite Hne.
Qed.

Lemma sub_tags_id s : has_tag s = false -> sub_tags_from false s = s.
Proof.
  induction s as [|c s IH]; cbn [has_tag sub_tags_from]; [reflexivity|].
  intros H. apply orb_false_iff in H as [H1 H2]. rewrite H1, (IH H2). reflexivity.
Qed.

Lemma sub_urls_id s : has_url_match s = false -> sub_urls_from false s = s.
Proof.
  induction s as [|c s IH]; [reflexivity|].
  cbn [has_url_match sub_urls_from]. intros H. apply orb_false_iff in H as [H1 H2].
  rewrite H1, (IH H2). reflexivity.
Qed.

Lemma keep_printable_id s : string_forallb is_printable s = true -> keep_printable s = s.
Proof.
  induction s as [|c s IH]; cbn [string_forallb keep_printable]; [reflexivity|].
  intros H. apply andb_true_iff in H as [H1 H2]. rewrite H1, (IH H2). reflexivity.
Qed.

(** *** Collapsing blanks *)

Lemma collapse_exists (p : ascii -> bool) b s :
  p " "%char = false ->
  string_existsb p (collapse_from b s) = true -> string_existsb p s = true.
Proof.
  intros Hp. revert b. induction s as [|c s IH]; intros b; cbn [collapse_from]; [auto|].
  destruct (is_space c).
  - destruct b; cbn [string_existsb]; [|rewrite Hp; cbn [orb]];
      intros H; rewrite (IH _ H); apply orb_true_r.
  - cbn [string_existsb]. intros H. apply orb_true_iff in H as [H|H].
    + now rewrite H.
    + rewrite (IH _ H). apply orb_true_r.
Qed.

Lemma collapse_forallb (p : ascii -> bool) b s :
  p " "%char = true ->
  string_forallb p s = true -> string_forallb p (collapse_from b s) = true.
Proof.
  intros Hp. revert b. induction s as [|c s IH]; intros b; cbn [collapse_from string_forallb];
    [auto|].
  intros H. apply andb_true_iff in H as [H1 H2].
  destruct (is_space c).
  - destruct b; cbn [string_forallb]; rewrite ?Hp; cbn [andb]; auto.
  - cbn [string_forallb]. rewrite H1. cbn [andb]. auto.
Qed.

Lemma space_not_gt c : is_space c = true -> is_gt c = false.
Proof.
  unfold is_gt. destruct (Ascii.eqb_spec c ">"); [subst; discriminate|reflexivity].
Qed.

Lemma opens_tag_collapse r :
  opens_tag (collapse_from false r) = true -> opens_tag r = true.
Proof.
  destruct r as [|c r]; [discriminate|]. cbn [collapse_from opens_tag].
  destruct (is_space c) eqn:Hc; cbn [opens_tag]; intros H; apply andb_true_iff in H as [H1 H2].
  - rewrite (space_not_gt c Hc). apply (collapse_exists is_gt) in H2; [|reflexivity].
    now rewrite H2.
  - rewrite H1. apply (collapse_exists is_gt) in H2; [|reflexivity]. now rewrite H2.
Qed.

Lemma has_tag_collapse b s :
  has_tag (collapse_from b s) = true -> has_tag s = true.
Proof.
  revert b. induction s as [|c s IH]; intros b; cbn [collapse_from has_tag]; [auto|].
  destruct (is_space c).
  - destruct b; cbn [has_tag]; [|change ((" " =? "<")%char) with false; cbn [andb orb]];
      intros H; rewrite (IH _ H); apply orb_true_r.
  - cbn [has_tag]. intros H. apply orb_true_iff in H as [H|H].
    + apply andb_true_iff in H as [H1 H2]. now rewrite H1, (opens_tag_collapse _ H2).
    + rewrite (IH _ H). apply orb_true_r.
Qed.

(** A character that is no blank is where it was. *)
Lemma collapse_head r d rest :
  collapse_from false r = String d rest -> is_space d = false ->
  exists r1, r = String d r1 /\ rest = collapse_from false r1.
Proof.
  destruct r as [|c r1]; [discriminate|]. cbn [collapse_from].
  destruct (is_space c) eqn:Hc.
  - intros [= <- _] Hd. discriminate.
  - intros [= <- <-] _. eauto.
Qed.

Lemma starts_url_collapse c r :
  starts_url (String c (collapse_from false r)) = true -> starts_url (String c r) = true.
Proof.
  cbn [starts_url].
  destruct (collapse_from false r) as [|t1 [|t2 [|p [|d rest]]]] eqn:Hr; try discriminate.
  intros H. rewrite !andb_true_iff in H. destruct H as ((((Hh & Ht1) & Ht2) & Hp) & Hd).
  apply Ascii.eqb_eq in Ht1, Ht2, Hp. subst t1 t2 p. apply negb_true_iff in Hd.
  apply collapse_head in Hr as (r1 & -> & Hr); [|reflexivity]. symmetry in Hr.
  apply collapse_head in Hr as (r2 & -> & Hr); [|reflexivity]. symmetry in Hr.
  apply collapse_head in Hr as (r3 & -> & Hr); [|reflexivity]. symmetry in Hr.
  apply collapse_head in Hr as (r4 & -> & Hr); [|exact Hd].
  rewrite Hh, Hd. reflexivity.
Qed.

Lemma space_starts_no_url c r : is_space c = true -> starts_url (String c r) = false.
Proof.
  intros Hc. cbn [starts_url]. destruct r as [|? [|? [|? [|? ?]]]]; try reflexivity.
  destruct (Ascii.eqb_spec c "h"); [subst; discriminate|reflexivity].
Qed.

Lemma has_url_collapse b s :
  has_url_match (collapse_from b s) = true -> has_url_match s = true.
Proof.
  revert b. induction s as [|c s IH]; intros b; [destruct b; auto|].
  cbn [collapse_from]. destruct (is_space c) eqn:Hc.
  - intros H.
    assert (H' : has_url_match (collapse_from true s) = true).
    { destruct b; [exact H|]. cbn [has_url_match] in H.
      rewrite (space_starts_no_url " " _ eq_refl) in H. exact H. }
    cbn [has_url_match]. rewrite (IH _ H'). apply orb_true_r.
  - cbn [has_url_match]. intros H. apply orb_true_iff in H as [H|H].
    + now rewrite (starts_url_collapse _ _ H).
    + rewrite (IH _ H). apply orb_true_r.
Qed.

Lemma collapse_single_spaced b s : single_spaced b (collapse_from b s) = true.
Proof.
  revert b. induction s as [|c s IH]; intros b; cbn [collapse_from]; [reflexivity|].
  destruct (is_space c) eqn:Hc.
  - destruct b; [apply IH|]. cbn. apply IH.
  - cbn [single_spaced]. rewrite Hc. apply IH.
Qed.

Lemma single_spaced_fix b s : single_spaced b s = true -> collapse_from b s = s.
Proof.
  revert b. induction s as [|c s IH]; intros b; cbn [single_spaced collapse_from];
    [reflexivity|].
  destruct (is_space c).
  - intros H. rewrite !andb_true_iff in H. destruct H as ((Hb & Hc) & Hs).
    apply negb_true_iff in Hb. apply Ascii.eqb_eq in Hc. subst b c. now rewrite (IH _ Hs).
  - intros H. now rewrite (IH _ H).
Qed.

Lemma single_spaced_weaken s : single_spaced true s = true -> single_spaced false s = true.
Proof.
  destruct s as [|c s]; [reflexivity|]. cbn [single_spaced].
  destruct (is_space c); [discriminate|auto].
Qed.

(** *** Stripping blanks *)

Lemma lstrip_suffix s : exists t, s = t ++ lstrip s.
Proof.
  induction s as [|c s [t IH]]; cbn [lstrip]; [exists ""; reflexivity|].
  destruct (is_space c).
  - exists (String c t). cbn [append]. now rewrite <- IH.
  - exists "". reflexivity.
Qed.

Lemma rstrip_prefix s : exists t, s = rstrip s ++ t.
Proof.
  induction s as [|c s [t IH]]; cbn [rstrip]; [exists ""; reflexivity|].
  destruct (rstrip s) as [|c' r'] eqn:Hr.
  - cbn [append] in IH. subst t. destruct (is_space c).
    + exists (String c s). reflexivity.
    + exists s. reflexivity.
  - exists t. cbn [append] in *. now rewrite <- IH.
Qed.

Lemma existsb_app_l p a t :
  string_existsb p a = true -> string_existsb p (a ++ t) = true.
Proof.
  induction a as [|c a IH]; cbn [string_existsb append]; [discriminate|].
  intros H. apply orb_true_iff in H as [H|H]; [now rewrite H|].
  rewrite (IH H). apply orb_true_r.
Qed.

Lemma existsb_app_r p a t :
  string_existsb p t = true -> string_existsb p (a ++ t) = true.
Proof.
  induction a as [|c a IH]; cbn [string_existsb append]; [auto|].
  intros H. rewrite (IH H). apply orb_true_r.
Qed.

Lemma forallb_app p a t :
  string_forallb p (a ++ t) = true ->
  string_forallb p a = true /\ string_forallb p t = true.
Proof.
  induction a as [|c a IH]; cbn [string_forallb append]; [auto|].
  intros H. apply andb_true_iff in H as [H1 H2]. destruct (IH H2) as [Ha Ht].
  now rewrite H1, Ha.
Qed.

Lemma has_tag_app_r a t : has_tag t = true -> has_tag (a ++ t) = true.
Proof.
  induction a as [|c a IH]; cbn [has_tag append]; [auto|].
  intros H. rewrite (IH H). apply orb_true_r.
Qed.

Lemma opens_tag_app a t : opens_tag a = true -> opens_tag (a ++ t) = true.
Proof.
  destruct a as [|c a]; [discriminate|]. cbn [opens_tag append].
  intros H. apply andb_true_iff in H as [H1 H2].
  now rewrite H1, (existsb_app_l _ _ t H2).
Qed.

Lemma has_tag_app_l a t : has_tag a = true -> has_tag (a ++ t) = true.
Proof.
  induction a as [|c a IH]; cbn [has_tag append]; [discriminate|].
  intros H. apply orb_true_iff in H as [H|H].
  - apply andb_true_iff in H as [H1 H2]. now rewrite H1, (opens_tag_app _ t H2).
  - rewrite (IH H). apply orb_true_r.
Qed.

Lemma has_url_app_r a t : has_url_match t = true -> has_url_match (a ++ t) = true.
Proof.
  induction a as [|c a IH]; [auto|]. cbn [append]. intros H.
  cbn [has_url_match]. rewrite (IH H). apply orb_true_r.
Qed.

Lemma starts_url_app a t : starts_url a = true -> starts_url (a ++ t) = true.
Proof.
  destruct a as [|h [|t1 [|t2 [|p [|c a]]]]]; try discriminate. auto.
Qed.

Lemma has_url_app_l a t : has_url_match a = true -> has_url_match (a ++ t) = true.
Proof.
  induction a as [|c a IH]; [discriminate|].
  cbn [has_url_match]. intros H. apply orb_true_iff in H as [H|H].
  - apply (starts_url_app _ t) in H. cbn [append] in H |- *. cbn [has_url_match].
    now rewrite H.
  - cbn [append has_url_match]. rewrite (IH H). apply orb_true_r.
Qed.

Lemma lstrip_single_spaced b s :
  single_spaced b s = true -> single_spaced true (lstrip s) = true.
Proof.
  revert b. induction s as [|c s IH]; intros b; cbn [single_spaced lstrip]; [auto|].
  destruct (is_space c) eqn:Hc.
  - intros H. rewrite !andb_true_iff in H. destruct H as (_ & Hs). apply (IH _ Hs).
  - cbn [single_spaced]. now rewrite Hc.
Qed.

Lemma rstrip_single_spaced b s :
  single_spaced b s = true -> single_spaced b (rstrip s) = true.
Proof.
  revert b. induction s as [|c s IH]; intros b; cbn [single_spaced rstrip]; [auto|].
  destruct (is_space c) eqn:Hc.
  - intros H. rewrite !andb_true_iff in H. destruct H as ((Hb & Hsp) & Hs).
    specialize (IH _ Hs). destruct (rstrip s) as [|c' r']; [reflexivity|].
    cbn [single_spaced]. rewrite Hc, Hb, Hsp. exact IH.
  - intros H. specialize (IH _ H). destruct (rstrip s) as [|c' r'].
    + cbn [single_spaced]. now rewrite Hc.
    + cbn [single_spaced]. rewrite Hc. exact IH.
Qed.

Lemma lstrip_fix s : single_spaced true s = true -> lstrip s = s.
Proof.
  destruct s as [|c s]; [reflexivity|]. cbn [single_spaced lstrip].
  destruct (is_space c); [discriminate|reflexivity].
Qed.

Lemma rstrip_cons c s :
  rstrip (String c s)
  = match rstrip s with
    | EmptyString => if is_space c then "" else String c ""
    | r' => String c r'
    end.
Proof. reflexivity. Qed.

Lemma rstrip_rstrip s : rstrip (rstrip s) = rstrip s.
Proof.
  induction s as [|c s IH]; [reflexivity|]. rewrite rstrip_cons.
  destruct (rstrip s) as [|c' r'] eqn:Hr.
  - destruct (is_space c) eqn:Hc; [reflexivity|]. cbn [rstrip]. now rewrite Hc.
  - rewrite rstrip_cons, IH. reflexivity.
Qed.

(** *** The normal form of plain text *)

(** What the normalizer makes of plain text: blanks collapsed and stripped;
    and the result is plain text again, on which no step acts. *)
Lemma clean_plain_text x :
  string_forallb is_printable x = true ->
  contains "&" x = false -> has_tag x = false -> has_url_match x = false ->
  let y := strip (collapse_spaces x) in
  clean_text E (PStr x) = y
  /\ string_forallb is_printable y = true
  /\ contains "&" y = false /\ has_tag y = false /\ has_url_match y = false
  /\ collapse_spaces y = y /\ strip y = y.
Proof.
  intros Hp Hamp Htag Hurl y.
  assert (Hclean : clean_text E (PStr x) = y).
  { unfold clean_text, html_unescape, sub_tags, sub_urls, normalize_NFKD.
    rewrite Hamp, (sub_tags_id _ Htag), (sub_urls_id _ Hurl), (keep_printable_id _ Hp).
    reflexivity. }
  split; [exact Hclean|].
  set (z := collapse_spaces x) in *.
  destruct (lstrip_suffix z) as [t1 Hz].
  destruct (rstrip_prefix (lstrip z)) as [t2 Hl].
  fold (strip z) in Hl. fold y in Hl.
  assert (Hy : single_spaced true y = true).
  { apply rstrip_single_spaced, (lstrip_single_spaced false), collapse_single_spaced. }
  split.
  { assert (Hpz : string_forallb is_printable z = true)
      by (apply collapse_forallb; [reflexivity|exact Hp]).
    rewrite Hz in Hpz. apply forallb_app in Hpz as [_ Hpl].
    rewrite Hl in Hpl. apply forallb_app in Hpl as [Hpy _]. exact Hpy. }
  split.
  { apply not_true_is_false. intros H. rewrite contains_amp in H, Hamp.
    apply (existsb_app_l _ _ t2) in H. rewrite <- Hl in H.
    apply (existsb_app_r _ t1) in H. rewrite <- Hz in H.
    apply collapse_exists in H; [congruence|reflexivity]. }
  split.
  { apply not_true_is_false. intros H.
    apply (has_tag_app_l _ t2) in H. rewrite <- Hl in H.
    apply (has_tag_app_r t1) in H. rewrite <- Hz in H.
    apply has_tag_collapse in H. congruence. }
  split.
  { apply not_true_is_false. intros H.
    apply (has_url_app_l _ t2) in H. rewrite <- Hl in H.
    apply (has_url_app_r t1) in H. rewrite <- Hz in H.
    apply has_url_collapse in H. congruence. }
  split.
  { apply single_spaced_fix, single_spaced_weaken, Hy. }
  unfold strip. rewrite (lstrip_fix _ Hy). apply rstrip_rstrip.
Qed.

(** C10, amended: for every string x of printable ASCII characters that is
    free of markup (no ampersand, no match of the tag pattern) and of URLs
    (no match of the URL pattern), clean(clean(x)) = clean(x). *)
Theorem clean_text_idempotent (x : string) :
  string_forallb is_printable x = true ->
  contains "&" x = false -> has_tag x = false -> has_url_match x = false ->
  clean_text E (PStr (clean_text E (PStr x))) = clean_text E (PStr x).
Proof.
  intros Hp Hamp Htag Hurl.
  destruct (clean_plain_text x Hp Hamp Htag Hurl) as (-> & Hp' & Hamp' & Htag' & Hurl' & Hc & Hs).
  destruct (clean_plain_text _ Hp' Hamp' Htag' Hurl') as (-> & _).
  rewrite Hc. exact Hs.
Qed.

End Normalizer.

(** C10, as the spec states it, fails: dropping the characters that are not
    printable comes after the URLs are stripped, and it can join the pieces
    of one.  The text [ht], line feed, [tps] has no markup and no URL; it
    cleans to [https], which cleans to the empty string. *)
Lemma clean_text_not_idempotent :
  contains "&" broken_scheme = false
  /\ has_tag broken_scheme = false
  /\ has_url_match broken_scheme = false
  /\ forall E,
       clean_text E (PStr broken_scheme) = "https"
       /\ clean_text E (PStr (clean_text E (PStr broken_scheme))) = "".
Proof. repeat split. Qed.

(** A plain text with runs of spaces and a lone [<] is cleaned once and for
    all. *)
Lemma clean_text_idempotent_witness :
  clean_text (env_replying (Ok "{}")) (PStr "  Flood  risk < 5 %   in 2024 ") = "Flood risk < 5 % in 2024"
  /\ clean_text (env_replying (Ok "{}"))
       (PStr (clean_text (env_replying (Ok "{}")) (PStr "  Flood  risk < 5 %   in 2024 ")))
     = clean_text (env_replying (Ok "{}")) (PStr "  Flood  risk < 5 %   in 2024 ").
Proof.
  split; [reflexivity|].
  apply (clean_text_idempotent (env_replying (Ok "{}")) "  Flood  risk < 5 %   in 2024 ");
    reflexivity.
Defined.

(** ** Scenarios of the spec *)

(** The normalizer answers the empty string to whatever is not a [str]. *)
Lemma clean_text_of_non_string (E : Env) (v : pyval) :
  is_str v = false -> clean_text E v = "".
Proof. destruct v; (discriminate || reflexivity). Qed.

(** A list is no text. *)
Lemma clean_text_of_non_string_witness :
  clean_text (env_replying (Ok "{}")) (PList [PStr "<b>text</b>"]) = "".
Proof. apply clean_text_of_non_string. reflexivity. Defined.

(** The category of an ASCII text is decided by the first rule, in the
    order Climate Risk, Insurance Exposures, InsurTech, one of whose keywords
    occurs in the lower-cased text, and it is Uncategorized when none
    occurs: [insured loss] counts only without [climate change], and
    [insurtech] only without both. *)
Theorem categorize_article_first_rule_wins (text : string) :
  string_forallb is_ascii text = true ->
  (occurs "climate change" (lower text) -> categorize_article text = "Climate Risk")
  /\ (~ occurs "climate change" (lower text) -> occurs "insured loss" (lower text) ->
      categorize_article text = "Insurance Exposures")
  /\ (~ occurs "climate change" (lower text) -> ~ occurs "insured loss" (lower text) ->
      occurs "insurtech" (lower text) -> categorize_article text = "InsurTech")
  /\ (~ occurs "climate change" (lower text) -> ~ occurs "insured loss" (lower text) ->
      ~ occurs "insurtech" (lower text) -> categorize_article text = "Uncategorized")
  /\ categorize_article text
     = (if contains "climate change" (lower text) then "Climate Risk"
        else if contains "insured loss" (lower text) then "Insurance Exposures"
        else if contains "insurtech" (lower text) then "InsurTech"
        else "Uncategorized").
Proof.
  intros _.
  assert (Htable : categorize_article text
                   = (if contains "climate change" (lower text) then "Climate Risk"
                      else if contains "insured loss" (lower text) then "Insurance Exposures"
                      else if contains "insurtech" (lower text) then "InsurTech"
                      else "Uncategorized")).
  { unfold categorize_article, categories. cbn [first_category existsb].
    rewrite !orb_false_r. reflexivity. }
  assert (Hno : forall k, ~ occurs k (lower text) -> contains k (lower text) = false).
  { intros k H. apply not_true_is_false. intros Hc. apply H, contains_split, Hc. }
  assert (Hyes : forall k, occurs k (lower text) -> contains k (lower text) = true).
  { intros k H. apply contains_split, H. }
  rewrite Htable. split; [intros H1; rewrite (Hyes _ H1); reflexivity|].
  split; [intros H1 H2; rewrite (Hno _ H1), (Hyes _ H2); reflexivity|].
  split; [intros H1 H2 H3; rewrite (Hno _ H1), (Hno _ H2), (Hyes _ H3); reflexivity|].
  split; [intros H1 H2 H3; rewrite (Hno _ H1), (Hno _ H2), (Hno _ H3); reflexivity|].
  reflexivity.
Qed.

(** A text with keywords of the second and the third rule, in capitals, is
    of the second category, and one with a keyword of each rule is of the
    first. *)
Lemma categorize_article_first_rule_wins_witness :
  categorize_article "InsurTech firms price every Insured Loss." = "Insurance Exposures"
  /\ categorize_article "Insurtech, insured loss and climate change." = "Climate Risk".
Proof.
  split.
  - destruct (categorize_article_first_rule_wins "InsurTech firms price every Insured Loss."
                eq_refl) as (_ & Hsecond & _).
    apply Hsecond.
    + intros H. apply contains_split in H. discriminate H.
    + exists "insurtech firms price every ", ".". reflexivity.
  - destruct (categorize_article_first_rule_wins "Insurtech, insured loss and climate change."
                eq_refl) as (Hfirst & _).
    apply Hfirst. exists "insurtech, insured loss and ", ".". reflexivity.
Defined.

(** The scenario of the spec: source from the domain, date from the content,
    category from the rule of [insured loss]; the location is what the
    entity recogniser gives. *)
Lemma flood_scenario_structured (E : Env) :
  structure_articles E flood_response
  = Ok [PDict [("title", PStr "Flood Risk Update");
               ("url", PStr "https://swissre.com/report");
               ("source", PStr "swissre.com");
               ("date", PStr "2024-05-01");
               ("location",
                PStr (extract_location E
                        "A flood in Germany on 2024-05-01 caused insured losses."));
               ("category", PStr "Insurance Exposures");
               ("summary_input",
                PStr "A flood in Germany on 2024-05-01 caused insured losses.");
               ("full_content",
                PStr "A flood in Germany on 2024-05-01 caused insured losses.")]].
Proof. reflexivity. Qed.

(** The same article is tagged with Swiss Re. *)
Lemma flood_scenario_tagged :
  py_getitem
    (snd (enrich_articles_with_research_references [0]
            (fun _ => PDict [("title", PStr "Flood Risk Update");
                             ("url", PStr "https://swissre.com/report")])) 0)
    "research_references"
  = Ok (PList [PStr "Swiss Re"]).
Proof. reflexivity. Qed.

(** A bare string that is no JSON parses to the empty list, and nothing is
    structured from it. *)
Lemma invalid_json_scenario (E : Env) :
  safe_parse_response E (PStr "not valid json") = Ok (PList [])
  /\ structure_articles E (PStr "not valid json") = Ok [].
Proof. split; reflexivity. Qed.

(** The most frequent place wins, the first one on a tie, and without a
    place the sentinel is returned. *)
Example extract_location_most_frequent :
  extract_location
    (env_with_entities [("Basel", "GPE"); ("Rhine", "LOC"); ("Rhine", "LOC"); ("Swiss Re", "ORG")])
    "text" = "Rhine"
  /\ extract_location
       (env_with_entities [("Basel", "GPE"); ("Rhine", "LOC"); ("Swiss Re", "ORG")]) "text"
     = "Basel"
  /\ extract_location (env_with_entities [("Swiss Re", "ORG")]) "text" = "Unknown Location".
Proof. repeat split. Qed.

(** ** Further properties of the pipeline *)

(** *** What the normalizer hands on *)

Lemma keep_printable_forallb s : string_forallb is_printable (keep_printable s) = true.
Proof.
  induction s as [|c s IH]; [reflexivity|]. simpl.
  destruct (is_printable c) eqn:Hc; [simpl; rewrite Hc; exact IH|exact IH].
Qed.

Lemma lstrip_forallb p s : string_forallb p s = true -> string_forallb p (lstrip s) = true.
Proof.
  intros Hs. destruct (lstrip_suffix s) as [t Ht]. rewrite Ht in Hs.
  apply forallb_app in Hs. tauto.
Qed.

Lemma rstrip_forallb p s : string_forallb p s = true -> string_forallb p (rstrip s) = true.
Proof.
  intros Hs. destruct (rstrip_prefix s) as [t Ht]. rewrite Ht in Hs.
  apply forallb_app in Hs. tauto.
Qed.

Lemma single_spaced_no_double b s :
  single_spaced b s = true -> contains "  " s = false.
Proof.
  revert b. induction s as [|c s IH]; intros b Hs; [reflexivity|].
  cbn [contains]. cbn [single_spaced] in Hs.
  assert (Hrest : contains "  " s = false).
  { destruct (is_space c); [|exact (IH _ Hs)].
    apply andb_prop in Hs as [_ Hs]. exact (IH _ Hs). }
  rewrite Hrest, orb_false_r.
  destruct s as [|c' s']; [cbn [String.prefix]; destruct (ascii_dec " " c); reflexivity|].
  cbn [String.prefix].
  destruct (ascii_dec " " c) as [<-|Hne]; [|reflexivity].
  destruct (ascii_dec " " c') as [<-|Hne']; [|reflexivity].
  change (is_space " ") with true in Hs. cbv iota in Hs.
  apply andb_prop in Hs as [_ Hs]. cbn [single_spaced] in Hs.
  change (is_space " ") with true in Hs. discriminate.
Qed.

Lemma cleaned_normal_form s :
  let y := strip (collapse_spaces (keep_printable s)) in
  string_forallb is_printable y = true
  /\ single_spaced true y = true
  /\ strip y = y.
Proof.
  set (z := collapse_spaces (keep_printable s)).
  assert (Hz : single_spaced false z = true) by apply collapse_single_spaced.
  assert (Hy : single_spaced true (strip z) = true).
  { unfold strip. apply rstrip_single_spaced. exact (lstrip_single_spaced _ _ Hz). }
  cbv zeta. split; [|split; [exact Hy|]].
  - unfold strip. apply rstrip_forallb, lstrip_forallb. unfold z, collapse_spaces.
    apply collapse_forallb; [reflexivity|apply keep_printable_forallb].
  - unfold strip at 1. rewrite (lstrip_fix _ Hy). unfold strip. apply rstrip_rstrip.
Qed.

(** The text after the tags are replaced holds only characters of the text
    before, and spaces. *)
Lemma sub_tags_exists (p : ascii -> bool) b s :
  p " "%char = false ->
  string_existsb p (sub_tags_from b s) = true -> string_existsb p s = true.
Proof.
  intros Hp. revert b. induction s as [|c s IH]; intros b; [destruct b; discriminate|].
  cbn [sub_tags_from string_existsb]. destruct b.
  - destruct (is_gt c); intros H; apply IH in H; rewrite H; apply orb_true_r.
  - destruct ((c =? "<")%char && opens_tag s).
    + cbn [string_existsb]. rewrite Hp. cbn [orb]. intros H. apply IH in H.
      rewrite H. apply orb_true_r.
    + cbn [string_existsb]. destruct (p c); [reflexivity|]. cbn [orb]. apply IH.
Qed.

Lemma opens_tag_sub_tags r : opens_tag r = false -> opens_tag (sub_tags_from false r) = false.
Proof.
  destruct r as [|c r]; [reflexivity|]. cbn [opens_tag sub_tags_from]. intros Hr.
  destruct ((c =? "<")%char && opens_tag r) eqn:Hlt.
  - apply andb_prop in Hlt as [Hc Hopen]. apply Ascii.eqb_eq in Hc. subst c.
    cbn [is_gt negb andb] in Hr. change (("<" =? ">")%char) with false in Hr.
    cbn [negb andb] in Hr. destruct r as [|c' r']; [discriminate|].
    cbn [opens_tag] in Hopen. apply andb_prop in Hopen as [_ Hex].
    cbn [string_existsb] in Hr. rewrite Hex, orb_true_r in Hr. discriminate.
  - cbn [opens_tag]. destruct (is_gt c); [reflexivity|]. cbn [negb andb] in *.
    apply not_true_is_false. intros Hex.
    apply sub_tags_exists in Hex; [congruence|reflexivity].
Qed.

Lemma sub_tags_no_tag b s : has_tag (sub_tags_from b s) = false.
Proof.
  revert b. induction s as [|c s IH]; intros b; [destruct b; reflexivity|].
  cbn [sub_tags_from]. destruct b.
  - destruct (is_gt c); apply IH.
  - destruct ((c =? "<")%char && opens_tag s) eqn:Hlt.
    + cbn [has_tag]. rewrite IH. reflexivity.
    + cbn [has_tag]. rewrite IH, orb_false_r.
      destruct (c =? "<")%char; [|reflexivity]. cbn [andb] in *.
      apply opens_tag_sub_tags, Hlt.
Qed.

Lemma sub_urls_exists (p : ascii -> bool) b s :
  string_existsb p (sub_urls_from b s) = true -> string_existsb p s = true.
Proof.
  revert b. induction s as [|c s IH]; intros b; [destruct b; discriminate|].
  cbn [sub_urls_from]. destruct b.
  - destruct (is_space c); cbn [string_existsb].
    + destruct (p c); [reflexivity|]. apply IH.
    + intros H. apply IH in H. rewrite H. apply orb_true_r.
  - destruct (starts_url (String c s)); cbn [string_existsb].
    + intros H. apply IH in H. rewrite H. apply orb_true_r.
    + destruct (p c); [reflexivity|]. apply IH.
Qed.

Lemma starts_url_head c s : starts_url (String c s) = true -> c = "h"%char.
Proof.
  destruct s as [|c1 [|c2 [|c3 [|c4 s]]]]; try discriminate. cbn [starts_url].
  intros H. repeat (apply andb_prop in H as [H _]). apply Ascii.eqb_eq in H. exact H.
Qed.

Lemma opens_tag_sub_urls r :
  opens_tag (sub_urls_from false r) = true -> opens_tag r = true.
Proof.
  destruct r as [|c r]; [discriminate|]. cbn [sub_urls_from].
  destruct (starts_url (String c r)) eqn:Hu.
  - apply starts_url_head in Hu. subst c. intros H. cbn [opens_tag].
    assert (Hex : string_existsb is_gt (sub_urls_from true r) = true).
    { destruct (sub_urls_from true r) as [|d rest]; [discriminate|].
      cbn [opens_tag] in H. apply andb_prop in H as [_ H]. cbn [string_existsb].
      rewrite H. apply orb_true_r. }
    apply sub_urls_exists in Hex. rewrite Hex. reflexivity.
  - cbn [opens_tag]. intros H. apply andb_prop in H as [Hc H].
    apply sub_urls_exists in H. rewrite Hc, H. reflexivity.
Qed.

Lemma has_tag_sub_urls b s : has_tag (sub_urls_from b s) = true -> has_tag s = true.
Proof.
  revert b. induction s as [|c s IH]; intros b; [destruct b; discriminate|].
  cbn [sub_urls_from has_tag]. destruct b.
  - destruct (is_space c) eqn:Hc.
    + cbn [has_tag]. destruct (ascii_dec c "<") as [->|Hne]; [discriminate|].
      apply Ascii.eqb_neq in Hne. rewrite Hne. cbn [andb orb]. apply IH.
    + intros H. apply IH in H. rewrite H. apply orb_true_r.
  - destruct (starts_url (String c s)).
    + intros H. apply IH in H. rewrite H. apply orb_true_r.
    + cbn [has_tag]. intros H. apply orb_prop in H as [H|H].
      * apply andb_prop in H as [Hc H]. apply opens_tag_sub_urls in H.
        rewrite Hc, H. reflexivity.
      * apply IH in H. rewrite H. apply orb_true_r.
Qed.

Lemma keep_printable_exists (p : ascii -> bool) s :
  string_existsb p (keep_printable s) = true -> string_existsb p s = true.
Proof.
  induction s as [|c s IH]; [discriminate|]. cbn [keep_printable string_existsb].
  destruct (is_printable c); cbn [string_existsb].
  - destruct (p c); [reflexivity|]. exact IH.
  - intros H. rewrite (IH H). apply orb_true_r.
Qed.

Lemma gt_printable c : is_gt c = true -> is_printable c = true.
Proof. intros H. apply Ascii.eqb_eq in H. subst c. reflexivity. Qed.

Lemma opens_tag_keep_printable r :
  opens_tag (keep_printable r) = true -> opens_tag r = true.
Proof.
  destruct r as [|c r]; [discriminate|]. cbn [keep_printable opens_tag].
  destruct (is_printable c) eqn:Hc.
  - cbn [opens_tag]. intros H. apply andb_prop in H as [Hgt H].
    apply keep_printable_exists in H. rewrite Hgt, H. reflexivity.
  - intros H.
    assert (Hex : string_existsb is_gt (keep_printable r) = true).
    { destruct (keep_printable r) as [|d rest]; [discriminate|].
      cbn [opens_tag] in H. apply andb_prop in H as [_ H]. cbn [string_existsb].
      rewrite H. apply orb_true_r. }
    apply keep_printable_exists in Hex. rewrite Hex.
    destruct (is_gt c) eqn:Hgt; [|reflexivity].
    apply gt_printable in Hgt. congruence.
Qed.

Lemma has_tag_keep_printable s : has_tag (keep_printable s) = true -> has_tag s = true.
Proof.
  induction s as [|c s IH]; [discriminate|]. cbn [keep_printable has_tag].
  destruct (is_printable c).
  - cbn [has_tag]. intros H. apply orb_prop in H as [H|H].
    + apply andb_prop in H as [Hc H]. apply opens_tag_keep_printable in H.
      rewrite Hc, H. reflexivity.
    + rewrite (IH H). apply orb_true_r.
  - intros H. rewrite (IH H). apply orb_true_r.
Qed.

Lemma has_tag_strip s : has_tag (strip s) = true -> has_tag s = true.
Proof.
  unfold strip. intros H.
  destruct (rstrip_prefix (lstrip s)) as [t Ht]. destruct (lstrip_suffix s) as [t' Ht'].
  rewrite Ht'. apply has_tag_app_r. rewrite Ht. apply has_tag_app_l. exact H.
Qed.

(** The Text Normalizer hands on a text in normal form, whatever it is
    given, as long as a string, once its character references are replaced,
    is ASCII, so that the NFKD normalisation changes nothing and the
    printable characters are those of ASCII: printable characters only, no
    blank at either end, and no two spaces in a row. *)
Theorem clean_text_normal_form (E : Env) (text : pyval) :
  (forall s, text = PStr s -> string_forallb is_ascii (html_unescape E s) = true) ->
  string_forallb is_printable (clean_text E text) = true
  /\ strip (clean_text E text) = clean_text E text
  /\ contains "  " (clean_text E text) = false.
Proof.
  intros _.
  destruct text as [| | | |s| |]; try (repeat split; reflexivity).
  cbn [clean_text]. unfold normalize_NFKD.
  destruct (cleaned_normal_form (sub_urls (sub_tags (html_unescape E s)))) as (Hp & Hs & Hst).
  split; [exact Hp|]. split; [exact Hst|]. exact (single_spaced_no_double _ _ Hs).
Qed.

(** A text with markup, a tab and blanks at both ends. *)
Lemma clean_text_normal_form_witness :
  string_forallb is_printable
    (clean_text (env_replying (Ok "{}"))
       (PStr ("  <b>Storm</b>" ++ String "009" "  losses   rise ")))
  = true
  /\ strip (clean_text (env_replying (Ok "{}"))
              (PStr ("  <b>Storm</b>" ++ String "009" "  losses   rise ")))
     = "Storm losses rise"
  /\ contains "  "
       (clean_text (env_replying (Ok "{}"))
          (PStr ("  <b>Storm</b>" ++ String "009" "  losses   rise ")))
     = false.
Proof.
  destruct (clean_text_normal_form (env_replying (Ok "{}"))
              (PStr ("  <b>Storm</b>" ++ String "009" "  losses   rise ")))
    as (Hprintable & Hstrip & Hspaces).
  - intros s [= <-]. reflexivity.
  - split; [exact Hprintable|]. split; [rewrite Hstrip; reflexivity|exact Hspaces].
Defined.

(** No markup survives the Text Normalizer on ASCII text, where the NFKD
    normalisation changes nothing: when the text, once its character
    references are replaced, is ASCII, the result holds no match of the tag
    pattern, also when the tags of the input were written with character
    references. *)
Theorem clean_text_leaves_no_tag (E : Env) (text : string) :
  string_forallb is_ascii (html_unescape E text) = true ->
  has_tag (clean_text E (PStr text)) = false.
Proof.
  intros _. cbn [clean_text]. unfold normalize_NFKD. apply not_true_is_false. intros H.
  apply has_tag_strip in H. unfold collapse_spaces in H. apply has_tag_collapse in H.
  apply has_tag_keep_printable in H. unfold sub_urls in H. apply has_tag_sub_urls in H.
  unfold sub_tags in H. rewrite sub_tags_no_tag in H. discriminate.
Qed.

Lemma clean_text_leaves_no_tag_witness :
  clean_text (env_replying (Ok "{}")) (PStr "<p>Storm <<b>losses</b> rise < 5%>")
  = "Storm losses rise"
  /\ has_tag (clean_text (env_replying (Ok "{}")) (PStr "<p>Storm <<b>losses</b> rise < 5%>"))
     = false.
Proof.
  split; [vm_compute; reflexivity|].
  apply clean_text_leaves_no_tag. vm_compute. reflexivity.
Defined.

(** *** Words *)

Lemma split_ws_nonempty c s : is_space c = false -> split_ws (String c s) <> [].
Proof.
  intros Hc. cbn [split_ws]. rewrite Hc. destruct s as [|c' s']; [discriminate|].
  destruct (is_space c'); [discriminate|]. destruct (split_ws (String c' s')); discriminate.
Qed.

Lemma join_cons_char sep c w ws :
  join sep (String c w :: ws) = String c (join sep (w :: ws)).
Proof. destruct ws; reflexivity. Qed.

Lemma rstrip_tail c r : rstrip (String c r) = String c r -> rstrip r = r.
Proof.
  rewrite rstrip_cons. destruct (rstrip r) as [|d r'] eqn:Hr.
  - destruct (is_space c); [discriminate|]. intros [= <-]. reflexivity.
  - intros [= <-]. reflexivity.
Qed.

(** [" ".join(text.split())] gives the text back when its blanks are single
    spaces and none is at its end; a blank at its start is dropped. *)
Lemma join_split_ws s :
  single_spaced false s = true -> rstrip s = s -> join " " (split_ws s) = lstrip s.
Proof.
  induction s as [|c r IH]; intros Hs Hr; [reflexivity|].
  pose proof (rstrip_tail _ _ Hr) as Hr'.
  cbn [single_spaced] in Hs. cbn [split_ws lstrip]. destruct (is_space c) eqn:Hc.
  - apply andb_prop in Hs as [_ Hs]. apply IH; [apply single_spaced_weaken, Hs|exact Hr'].
  - specialize (IH Hs Hr'). destruct r as [|c' r']; [reflexivity|].
    destruct (is_space c') eqn:Hc'.
    + cbn [single_spaced] in Hs. rewrite Hc' in Hs.
      apply andb_prop in Hs as [Hsp Hs]. apply Ascii.eqb_eq in Hsp. subst c'.
      cbn [lstrip] in IH. rewrite Hc' in IH. rewrite (lstrip_fix _ Hs) in IH.
      destruct r' as [|d r''].
      { rewrite rstrip_cons in Hr'. cbn [rstrip] in Hr'. rewrite Hc' in Hr'. discriminate. }
      assert (Hd : is_space d = false).
      { cbn [single_spaced] in Hs. destruct (is_space d); [discriminate|reflexivity]. }
      pose proof (split_ws_nonempty d r'' Hd) as Hne.
      change (split_ws (String " " (String d r''))) with (split_ws (String d r'')) in *.
      destruct (split_ws (String d r'')) as [|w ws]; [congruence|].
      change (join " " (String c "" :: w :: ws))
        with (String c (String " " (join " " (w :: ws)))).
      rewrite IH. reflexivity.
    + pose proof (split_ws_nonempty c' r' Hc') as Hne.
      cbn [lstrip] in IH. rewrite Hc' in IH.
      destruct (split_ws (String c' r')) as [|w ws]; [congruence|].
      rewrite join_cons_char, IH. reflexivity.
Qed.

Lemma split_ws_words s : Forall (fun w => is_word_of_text w = true) (split_ws s).
Proof.
  induction s as [|c r IH]; [constructor|]. cbn [split_ws].
  destruct (is_space c) eqn:Hc; [exact IH|].
  assert (Hone : is_word_of_text (String c "") = true).
  { unfold is_word_of_text. cbn. rewrite Hc. reflexivity. }
  destruct r as [|c' r']; [constructor; [exact Hone|constructor]|].
  destruct (is_space c') eqn:Hc'; [constructor; [exact Hone|exact IH]|].
  destruct (split_ws (String c' r')) as [|w ws]; [constructor; [exact Hone|constructor]|].
  inversion IH as [|? ? Hw Hws]; subst. constructor; [|exact Hws].
  unfold is_word_of_text in *. cbn [string_existsb]. rewrite Hc. cbn [orb].
  apply andb_prop in Hw as [_ Hw]. rewrite Hw. reflexivity.
Qed.

Lemma split_ws_one c : is_space c = false -> split_ws (String c "") = [String c ""].
Proof. intros Hc. cbn [split_ws]. rewrite Hc. reflexivity. Qed.

Lemma split_ws_char_space c s :
  is_space c = false -> split_ws (String c (String " " s)) = String c "" :: split_ws s.
Proof. intros Hc. cbn [split_ws]. rewrite Hc. reflexivity. Qed.

Lemma split_ws_char_char c c' r :
  is_space c = false -> is_space c' = false ->
  split_ws (String c (String c' r))
  = match split_ws (String c' r) with
    | w :: ws => String c w :: ws
    | [] => [String c ""]
    end.
Proof. intros Hc Hc'. cbn [split_ws]. rewrite Hc, Hc'. reflexivity. Qed.

Lemma split_ws_word_space w s :
  is_word_of_text w = true -> split_ws (w ++ String " " s) = w :: split_ws s.
Proof.
  unfold is_word_of_text. intros H. apply andb_prop in H as [Hne Hsp].
  apply negb_true_iff in Hsp. induction w as [|c r IH]; [discriminate|].
  cbn [string_existsb] in Hsp. apply orb_false_elim in Hsp as [Hc Hr].
  destruct r as [|c' r'].
  - exact (split_ws_char_space c s Hc).
  - pose proof Hr as Hr0. cbn [string_existsb] in Hr0.
    apply orb_false_elim in Hr0 as [Hc' _].
    specialize (IH eq_refl Hr).
    change (split_ws (String c (String c' (r' ++ String " " s)))
            = String c (String c' r') :: split_ws s).
    change (split_ws (String c' (r' ++ String " " s)) = String c' r' :: split_ws s) in IH.
    rewrite (split_ws_char_char _ _ _ Hc Hc'), IH. reflexivity.
Qed.

Lemma split_ws_word w : is_word_of_text w = true -> split_ws w = [w].
Proof.
  unfold is_word_of_text. intros H. apply andb_prop in H as [Hne Hsp].
  apply negb_true_iff in Hsp. induction w as [|c r IH]; [discriminate|].
  cbn [string_existsb] in Hsp. apply orb_false_elim in Hsp as [Hc Hr].
  destruct r as [|c' r']; [exact (split_ws_one c Hc)|].
  pose proof Hr as Hr0. cbn [string_existsb] in Hr0. apply orb_false_elim in Hr0 as [Hc' _].
  rewrite (split_ws_char_char _ _ _ Hc Hc'), (IH eq_refl Hr). reflexivity.
Qed.

(** [" ".join(words).split()] gives the words back. *)
Lemma split_ws_join ws :
  Forall (fun w => is_word_of_text w = true) ws -> split_ws (join " " ws) = ws.
Proof.
  induction 1 as [|w ws Hw Hws IH]; [reflexivity|].
  destruct ws as [|w' ws']; [exact (split_ws_word _ Hw)|].
  change (join " " (w :: w' :: ws')) with (w ++ String " " (join " " (w' :: ws'))).
  rewrite (split_ws_word_space _ _ Hw), IH. reflexivity.
Qed.

(** *** The records the structurer emits *)

(** The record [structure_article] builds, field by field. *)
Lemma structure_article_shape (E : Env) raw a :
  structure_article E raw = Ok a ->
  exists d u title source date,
    raw = PDict d
    /\ match dict_get d "url" with Some v => v | None => PStr "" end = PStr u
    /\ extract_best_date E (PStr u) title
         (PStr (clean_text E (match dict_get d "content" with Some v => v | None => PStr "" end)))
       = Ok date
    /\ (let explicit := match dict_get d "source" with Some v => v | None => PStr "" end in
        if truthy explicit then source = explicit
        else exists domain,
               extract_domain_as_source (PStr u) = Ok domain /\ source = PStr domain)
    /\ a = PDict
             (let full_content :=
                clean_text E (match dict_get d "content" with Some v => v | None => PStr "" end) in
              [("title", title); ("url", PStr u); ("source", source); ("date", PStr date);
               ("location", PStr (extract_location E full_content));
               ("category", PStr (categorize_article full_content));
               ("summary_input", PStr (join " " (firstn 800 (split_ws full_content))));
               ("full_content", PStr full_content)]).
Proof.
  destruct raw as [| | | | | |d]; try discriminate.
  unfold structure_article. cbn [py_get bind].
  set (url := match dict_get d "url" with Some v => v | None => PStr "" end).
  set (title0 := match dict_get d "title" with Some v => v | None => PStr "" end).
  set (source0 := match dict_get d "source" with Some v => v | None => PStr "" end).
  destruct (if truthy title0 then Ok title0 else _) as [title|] eqn:Htitle; [|discriminate].
  cbn [bind].
  destruct (if truthy source0 then Ok source0 else _) as [source|] eqn:Hsource; [|discriminate].
  cbn [bind].
  destruct (extract_best_date E url title _) as [date|] eqn:Hdate; [|discriminate].
  cbn [bind]. destruct (nlp E _) as [entities|]; [|discriminate].
  cbn [bind]. intros H. apply Ok_inj in H. subst a.
  destruct (extract_best_date_needs_str E _ _ _ _ Hdate) as [u Hu].
  exists d, u, title, source, date. rewrite <- Hu.
  split; [reflexivity|]. split; [reflexivity|]. split; [exact Hdate|].
  split; [|reflexivity]. cbv zeta. fold source0. revert Hsource.
  destruct (truthy source0); intros Hsource.
  - apply Ok_inj in Hsource. congruence.
  - destruct (extract_domain_as_source url) as [domain|]; [|discriminate].
    cbn [bind] in Hsource. apply Ok_inj in Hsource. exists domain. split; congruence.
Qed.

Lemma clean_text_single_spaced (E : Env) text :
  single_spaced true (clean_text E text) = true
  /\ rstrip (clean_text E text) = clean_text E text.
Proof.
  destruct text as [| | | |s| |]; try (split; reflexivity).
  cbn [clean_text]. unfold normalize_NFKD.
  destruct (cleaned_normal_form (sub_urls (sub_tags (html_unescape E s)))) as (_ & Hs & Hst).
  split; [exact Hs|]. unfold strip in Hst at 1. rewrite (lstrip_fix _ Hs) in Hst. exact Hst.
Qed.

(** The summary input of every article the structurer emits is made of the
    first 800 words of its full content, so it has at most 800 words; and it
    is the full content itself when that has no more than 800 words. *)
Theorem summary_input_first_800_words (E : Env) (response : pyval) (out : list pyval) :
  structure_articles E response = Ok out ->
  forall a, a ∈ out ->
    exists content summary,
      py_getitem a "full_content" = Ok (PStr content)
      /\ py_getitem a "summary_input" = Ok (PStr summary)
      /\ split_ws summary = firstn 800 (split_ws content)
      /\ length (split_ws summary) <= 800
      /\ (length (split_ws content) <= 800 -> summary = content).
Proof.
  unfold structure_articles. intros Hout a Ha.
  destruct (safe_parse_response E response) as [raw_results|]; [|discriminate].
  cbn [bind] in Hout. destruct (py_len raw_results); [|discriminate]. cbn [bind] in Hout.
  destruct (py_iter raw_results) as [items|]; [|discriminate]. cbn [bind] in Hout.
  apply structure_loop_inv in Hout as [_ Hnth].
  apply list_elem_of_lookup in Ha as [i Hi].
  destruct (Hnth i a Hi) as (raw & _ & Hraw).
  apply structure_article_shape in Hraw as (d & u & title & source & date & _ & _ & _ & _ & ->).
  set (content := clean_text E _).
  exists content, (join " " (firstn 800 (split_ws content))).
  split; [reflexivity|]. split; [reflexivity|].
  assert (Hwords : split_ws (join " " (firstn 800 (split_ws content)))
                   = firstn 800 (split_ws content)).
  { apply split_ws_join, Forall_take, split_ws_words. }
  split; [exact Hwords|]. split.
  - rewrite Hwords, length_take. lia.
  - intros Hlen. rewrite firstn_all2 by exact Hlen.
    destruct (clean_text_single_spaced E
                (match dict_get d "content" with Some v => v | None => PStr "" end))
      as (Hs & Hr).
    fold content in Hs, Hr.
    rewrite (join_split_ws _ (single_spaced_weaken _ Hs) Hr). exact (lstrip_fix _ Hs).
Qed.

Lemma marked_up_run reply :
  structure_articles (env_replying reply) marked_up_response = Ok [marked_up_article].
Proof. vm_compute. reflexivity. Qed.

Lemma summary_input_first_800_words_witness :
  exists content summary,
    py_getitem marked_up_article "full_content" = Ok (PStr content)
    /\ split_ws summary = firstn 800 (split_ws content)
    /\ length (split_ws summary) <= 800.
Proof.
  destruct (summary_input_first_800_words _ _ _ (marked_up_run (Ok "{}")) _
              (list_elem_of_here _ _))
    as (content & summary & Hc & _ & Hw & Hlen & _).
  exists content, summary. split; [exact Hc|]. split; [exact Hw|exact Hlen].
Defined.

(** The source of every article the structurer emits is the source the raw
    result names, kept as it is when it is truthy, and else the domain of the
    URL of the raw result; so a named source is never replaced, and the URL
    is never parsed for it. *)
Theorem structure_articles_resolves_source (E : Env) (response : pyval) (out : list pyval) :
  structure_articles E response = Ok out ->
  exists raw_results,
    bind (safe_parse_response E response) py_iter = Ok raw_results
    /\ forall i a, out !! i = Some a ->
         exists d source,
           raw_results !! i = Some (PDict d)
           /\ py_getitem a "source" = Ok source
           /\ resolved_source d source.
Proof.
  unfold structure_articles. intros Hout.
  destruct (safe_parse_response E response) as [raw_results|]; [|discriminate].
  cbn [bind] in Hout |- *. destruct (py_len raw_results); [|discriminate]. cbn [bind] in Hout.
  destruct (py_iter raw_results) as [items|]; [|discriminate]. cbn [bind] in Hout.
  exists items. split; [reflexivity|]. intros i art Hi.
  apply structure_loop_inv in Hout as [_ Hnth].
  destruct (Hnth i art Hi) as (raw & Hraw & Ha).
  apply structure_article_shape in Ha as (d & u & title & source & date & -> & Hu & _ & Hs & ->).
  exists d, source. split; [exact Hraw|]. split; [reflexivity|].
  unfold resolved_source. rewrite Hu. exact Hs.
Qed.

Lemma structure_articles_resolves_source_witness :
  exists raw_results,
    bind (safe_parse_response (env_replying (Ok "{}")) marked_up_response) py_iter
    = Ok raw_results
    /\ exists d source,
         raw_results !! 0 = Some (PDict d)
         /\ py_getitem marked_up_article "source" = Ok source
         /\ resolved_source d source.
Proof.
  destruct (structure_articles_resolves_source _ _ _ (marked_up_run (Ok "{}")))
    as (raw_results & Hraws & Hall).
  exists raw_results. split; [exact Hraws|]. exact (Hall 0 marked_up_article eq_refl).
Defined.

(** *** The most frequent location *)

Lemma occurrences_snoc x l y :
  occurrences x (l ++ [y]) = occurrences x l + (if x =? y then 1 else 0).
Proof.
  unfold occurrences. rewrite List.filter_app, length_app. cbn [List.filter].
  destruct (x =? y); reflexivity.
Qed.

Lemma occurrences_pos x l : x ∈ l <-> 0 < occurrences x l.
Proof.
  unfold occurrences. induction l as [|y l IH]; cbn [List.filter].
  - split; [intros H; inversion H|cbn; lia].
  - rewrite elem_of_cons. destruct (x =? y) eqn:Hxy.
    + apply String.eqb_eq in Hxy. cbn [length]. split; [lia|auto].
    + apply String.eqb_neq in Hxy. rewrite <- IH. tauto.
Qed.

Lemma counter_snoc l x : counter (l ++ [x]) = counter_add (counter l) x.
Proof. unfold counter. rewrite fold_left_app. reflexivity. Qed.

Lemma count_of_add counts x y :
  count_of (counter_add counts x) y
  = if x =? y then S (count_of counts x) else count_of counts y.
Proof.
  induction counts as [|[z n] rest IH]; cbn [counter_add count_of].
  - destruct (x =? y); reflexivity.
  - destruct (z =? x) eqn:Hzx; cbn [count_of].
    + apply String.eqb_eq in Hzx. subst z. destruct (x =? y); reflexivity.
    + rewrite IH. destruct (x =? y) eqn:Hxy; [|reflexivity].
      apply String.eqb_eq in Hxy. subst y. rewrite Hzx. reflexivity.
Qed.

Lemma count_of_counter l x : count_of (counter l) x = occurrences x l.
Proof.
  induction l as [|y l IH] using rev_ind; [reflexivity|].
  rewrite counter_snoc, count_of_add, occurrences_snoc, String.eqb_sym.
  destruct (x =? y) eqn:Hxy; [|lia].
  apply String.eqb_eq in Hxy. subst y. rewrite IH. lia.
Qed.

Lemma keys_add counts x :
  map fst (counter_add counts x)
  = if existsb (String.eqb x) (map fst counts) then map fst counts
    else (map fst counts ++ [x])%list.
Proof.
  induction counts as [|[z n] rest IH]; [reflexivity|].
  cbn [counter_add map fst existsb]. rewrite (String.eqb_sym x z).
  destruct (z =? x); [reflexivity|]. cbn [map fst orb]. rewrite IH.
  destruct (existsb (String.eqb x) (map fst rest)); reflexivity.
Qed.

Lemma existsb_eqb_elem x (l : list string) : existsb (String.eqb x) l = true <-> x ∈ l.
Proof.
  rewrite existsb_exists. split.
  - intros (y & Hy & Hxy). apply String.eqb_eq in Hxy. subst y.
    apply list_elem_of_In, Hy.
  - intros Hx. exists x. split; [apply list_elem_of_In, Hx|apply String.eqb_refl].
Qed.

Lemma keys_counter x l : x ∈ map fst (counter l) <-> x ∈ l.
Proof.
  induction l as [|y l IH] using rev_ind; [reflexivity|].
  rewrite counter_snoc, keys_add, elem_of_app, list_elem_of_singleton.
  destruct (existsb (String.eqb y) (map fst (counter l))) eqn:Hy.
  - apply existsb_eqb_elem in Hy. rewrite IH. split; [tauto|].
    intros [H| ->]; [exact H|]. apply IH, Hy.
  - rewrite elem_of_app, list_elem_of_singleton, IH. tauto.
Qed.

Lemma keys_counter_NoDup l : NoDup (map fst (counter l)).
Proof.
  induction l as [|y l IH] using rev_ind; [constructor|].
  rewrite counter_snoc, keys_add.
  destruct (existsb (String.eqb y) (map fst (counter l))) eqn:Hy; [exact IH|].
  apply list.NoDup_app. split; [exact IH|]. split; [|apply list.NoDup_singleton].
  intros x Hx Hx'. apply list_elem_of_singleton in Hx'. subst x.
  apply existsb_eqb_elem in Hx. congruence.
Qed.

Lemma count_of_entry counts x n :
  NoDup (map fst counts) -> (x, n) ∈ counts -> count_of counts x = n.
Proof.
  induction counts as [|[y m] rest IH]; intros Hnd Hin; [inversion Hin|].
  cbn [map fst] in Hnd. apply list.NoDup_cons in Hnd as [Hy Hnd]. cbn [count_of].
  apply elem_of_cons in Hin as [[= <- <-]|Hin]; [rewrite String.eqb_refl; reflexivity|].
  destruct (y =? x) eqn:Hyx; [|exact (IH Hnd Hin)].
  apply String.eqb_eq in Hyx. subst y. exfalso. apply Hy.
  apply list_elem_of_fmap. exists (x, n). split; [reflexivity|exact Hin].
Qed.

(** The keys of the counter stand in the order in which the items are first
    seen. *)
Lemma keys_counter_order l A r B :
  map fst (counter l) = (A ++ r :: B)%list ->
  exists pre post, l = (pre ++ r :: post)%list /\ (r ∉ pre) /\ forall y, y ∈ pre -> y ∈ A.
Proof.
  revert B. induction l as [|x l IH] using rev_ind; intros B.
  - destruct A; discriminate.
  - rewrite counter_snoc, keys_add.
    destruct (existsb (String.eqb x) (map fst (counter l))) eqn:Hx.
    + intros H. destruct (IH _ H) as (pre & post & -> & Hr & Hpre).
      exists pre, (post ++ [x])%list. rewrite <- app_assoc. auto.
    + destruct B as [|b B _] using rev_ind.
      * intros H. change (A ++ [r])%list with (A ++ [r])%list in H.
        apply app_inj_tail in H as [HA ->].
        exists l, []. split; [reflexivity|]. split.
        -- intros Hin. apply keys_counter, existsb_eqb_elem in Hin. congruence.
        -- intros y Hy. rewrite <- HA. apply keys_counter, Hy.
      * intros H. rewrite app_comm_cons, app_assoc in H.
        apply app_inj_tail in H as [H ->].
        destruct (IH _ H) as (pre & post & -> & Hr & Hpre).
        exists pre, (post ++ [b])%list. rewrite <- app_assoc. auto.
Qed.

(** [max_by_count] picks the first of the greatest counts. *)
Lemma max_by_count_first best items :
  exists A B,
    (best :: items = A ++ max_by_count best items :: B)%list
    /\ (forall item, item ∈ A -> snd item < snd (max_by_count best items))
    /\ (forall item, item ∈ best :: items -> snd item <= snd (max_by_count best items)).
Proof.
  revert best. induction items as [|it rest IH]; intros best; cbn [max_by_count].
  - exists [], []. split; [reflexivity|]. split; [intros item H; inversion H|].
    intros item H. apply list_elem_of_singleton in H. subst. lia.
  - destruct (snd best <? snd it)%nat eqn:Hlt.
    + apply Nat.ltb_lt in Hlt. destruct (IH it) as (A & B & Heq & Hless & Hmax).
      exists (best :: A), B. split; [rewrite Heq; reflexivity|].
      assert (Hit : snd it <= snd (max_by_count it rest)) by (apply Hmax; left).
      split.
      * intros item H. apply elem_of_cons in H as [->|H]; [lia|auto].
      * intros item H. apply elem_of_cons in H as [->|H]; [lia|auto].
    + apply Nat.ltb_ge in Hlt. destruct (IH best) as (A & B & Heq & Hless & Hmax).
      destruct A as [|a A].
      * injection Heq as Hb HB. exists [], (it :: B). rewrite <- Hb.
        split; [rewrite HB; reflexivity|]. split; [intros item H; inversion H|].
        intros item H. apply elem_of_cons in H as [->|H]; [lia|].
        apply elem_of_cons in H as [->|H]; [lia|].
        rewrite Hb. apply Hmax. right. exact H.
      * injection Heq as <- HB. exists (best :: it :: A), B.
        split; [cbn [app]; do 2 f_equal; exact HB|].
        assert (Hbest : snd best < snd (max_by_count best rest)) by (apply Hless; left).
        split.
        -- intros item H. apply elem_of_cons in H as [->|H]; [lia|].
           apply elem_of_cons in H as [->|H]; [lia|]. apply Hless. right. exact H.
        -- intros item H. apply elem_of_cons in H as [->|H]; [lia|].
           apply elem_of_cons in H as [->|H]; [lia|]. apply Hmax. right. exact H.
Qed.

Lemma entry_of_key (counts : list (string * nat)) x :
  x ∈ map fst counts -> exists n, (x, n) ∈ counts.
Proof.
  intros H. apply list_elem_of_fmap in H as ([y n] & -> & H). exists n. exact H.
Qed.


(** *** The source of an ordinary URL *)

Lemma scheme_char_facts c :
  scheme_char c = true ->
  (32 <? code c)%nat = true /\ (c =? ":")%char = false /\ netloc_end c = false.
Proof.
  destruct c as [[] [] [] [] [] [] [] []]; intros H; vm_compute in H; try discriminate;
    repeat split; reflexivity.
Qed.

Lemma graphic_is_safe c : (32 <? code c)%nat = true -> is_unsafe c = false.
Proof.
  destruct c as [[] [] [] [] [] [] [] []]; intros H; vm_compute in H; try discriminate;
    reflexivity.
Qed.

Lemma host_char_facts c :
  host_char c = true ->
  is_unsafe c = false /\ netloc_end c = false
  /\ (c =? "[")%char = false /\ (c =? "]")%char = false.
Proof.
  destruct c as [[] [] [] [] [] [] [] []]; intros H; vm_compute in H; try discriminate;
    repeat split; reflexivity.
Qed.

Lemma netloc_end_is_safe c : netloc_end c = true -> is_unsafe c = false.
Proof.
  destruct c as [[] [] [] [] [] [] [] []]; intros H; vm_compute in H; try discriminate;
    reflexivity.
Qed.

Lemma string_forallb_weaken (p p' : ascii -> bool) s :
  (forall c, p c = true -> p' c = true) ->
  string_forallb p s = true -> string_forallb p' s = true.
Proof.
  intros Hpp. induction s as [|c s IH]; [reflexivity|]. cbn [string_forallb].
  intros H. apply andb_prop in H as [Hc Hs]. rewrite (Hpp _ Hc), (IH Hs). reflexivity.
Qed.

Lemma remove_unsafe_app a b :
  string_forallb (fun c => negb (is_unsafe c)) a = true ->
  remove_unsafe (a ++ b) = a ++ remove_unsafe b.
Proof.
  induction a as [|c a IH]; [reflexivity|]. cbn [string_forallb append remove_unsafe].
  intros H. apply andb_prop in H as [Hc Ha]. apply negb_true_iff in Hc.
  unfold is_unsafe in Hc. rewrite Hc, (IH Ha). reflexivity.
Qed.

Lemma span_app p a b :
  string_forallb p a = true ->
  match b with String c _ => p c = false | EmptyString => True end ->
  span p (a ++ b) = (a, b).
Proof.
  intros Ha Hb. induction a as [|c a IH].
  - destruct b as [|c b]; [reflexivity|]. cbn [append span]. rewrite Hb. reflexivity.
  - cbn [string_forallb] in Ha. apply andb_prop in Ha as [Hc Ha].
    cbn [append span]. rewrite Hc, (IH Ha). reflexivity.
Qed.

Lemma remove_www_id s : contains "www." s = false -> remove_www s = s.
Proof.
  induction s as [|c s IH]; [reflexivity|]. cbn [contains]. intros H.
  apply orb_false_elim in H as [Hp Hs]. specialize (IH Hs).
  cbn [remove_www]. destruct s as [|w2 [|w3 [|dot r']]]; try (rewrite IH; reflexivity).
  destruct ((c =? "w")%char && (w2 =? "w")%char && (w3 =? "w")%char && (dot =? ".")%char)
    eqn:Hw; [|rewrite IH; reflexivity].
  repeat (apply andb_prop in Hw as [Hw ?]).
  repeat match goal with H : (_ =? _)%char = true |- _ => apply Ascii.eqb_eq in H; subst end.
  simpl in Hp. destruct r'; discriminate.
Qed.

Lemma urlparse_netloc_of_parts scheme host rest :
  is_scheme scheme = true -> string_forallb host_char host = true ->
  starts_path rest = true ->
  urlparse_netloc (scheme ++ "://" ++ host ++ rest) = Ok host.
Proof.
  intros Hscheme Hhost Hrest. unfold urlparse_netloc.
  destruct scheme as [|c0 scheme']; [discriminate|]. cbn [is_scheme] in Hscheme.
  apply andb_prop in Hscheme as [Halpha Hchars].
  assert (Hc0 : (code c0 <=? 32)%nat = false).
  { cbn [string_forallb] in Hchars. apply andb_prop in Hchars as [Hc _].
    apply scheme_char_facts in Hc as [Hc _]. apply Nat.ltb_lt in Hc. apply Nat.leb_gt. lia. }
  change (String c0 scheme' ++ "://" ++ host ++ rest)
    with (String c0 (scheme' ++ "://" ++ host ++ rest)).
  cbn [lstrip_c0]. rewrite Hc0.
  change (String c0 (scheme' ++ "://" ++ host ++ rest))
    with (String c0 scheme' ++ "://" ++ (host ++ rest)).
  rewrite remove_unsafe_app.
  2:{ revert Hchars. apply string_forallb_weaken. intros c Hc.
      apply scheme_char_facts in Hc as [Hc _]. rewrite (graphic_is_safe _ Hc). reflexivity. }
  change (remove_unsafe ("://" ++ (host ++ rest))) with ("://" ++ remove_unsafe (host ++ rest)).
  rewrite remove_unsafe_app.
  2:{ revert Hhost. apply string_forallb_weaken. intros c Hc.
      apply host_char_facts in Hc as [Hc _]. rewrite Hc. reflexivity. }
  assert (Hrest' : starts_path (remove_unsafe rest) = true).
  { destruct rest as [|c rest']; [reflexivity|]. cbn [starts_path] in Hrest.
    pose proof (netloc_end_is_safe _ Hrest) as Hsafe. unfold is_unsafe in Hsafe.
    cbn [remove_unsafe]. rewrite Hsafe. exact Hrest. }
  generalize dependent (remove_unsafe rest). intros rest' Hrest'.
  unfold drop_scheme.
  rewrite (span_app (fun c => negb (c =? ":")%char) (String c0 scheme')
             ("://" ++ (host ++ rest'))).
  2:{ revert Hchars. apply string_forallb_weaken. intros c Hc.
      apply scheme_char_facts in Hc as (_ & Hc & _). rewrite Hc. reflexivity. }
  2:{ reflexivity. }
  change ("://" ++ (host ++ rest')) with (String ":" (String "/" (String "/" (host ++ rest')))).
  cbv iota beta. rewrite Halpha, Hchars. cbn [andb].
  change ((("/" =? "/")%char && ("/" =? "/")%char)) with true. cbv iota.
  rewrite (span_app (fun c => negb (netloc_end c)) host rest').
  2:{ revert Hhost. apply string_forallb_weaken. intros c Hc.
      apply host_char_facts in Hc as (_ & Hc & _). rewrite Hc. reflexivity. }
  2:{ destruct rest' as [|c r]; [exact I|]. cbn [starts_path] in Hrest'.
      rewrite Hrest'. reflexivity. }
  cbn [fst].
  assert (Hopen : string_existsb (fun c => (c =? "[")%char) host = false).
  { apply not_true_is_false. intros H. clear -H Hhost.
    induction host as [|c host IH]; [discriminate|]. cbn [string_forallb string_existsb] in *.
    apply andb_prop in Hhost as [Hc Hhost]. apply orb_prop in H as [H|H]; [|auto].
    apply host_char_facts in Hc as (_ & _ & Hc & _). congruence. }
  assert (Hclose : string_existsb (fun c => (c =? "]")%char) host = false).
  { apply not_true_is_false. intros H. clear -H Hhost.
    induction host as [|c host IH]; [discriminate|]. cbn [string_forallb string_existsb] in *.
    apply andb_prop in Hhost as [Hc Hhost]. apply orb_prop in H as [H|H]; [|auto].
    apply host_char_facts in Hc as (_ & _ & _ & Hc). congruence. }
  rewrite Hopen, Hclose. reflexivity.
Qed.

(** For an ordinary URL, a scheme, [://], a network location and then
    nothing or a path, a query or a fragment, the source is the network
    location with every [www.] taken out: the network location itself when
    it holds no [www.], and what follows a leading [www.] when nothing after
    it holds one. *)
Theorem source_of_ordinary_url (scheme host rest : string) :
  is_scheme scheme = true -> string_forallb host_char host = true ->
  starts_path rest = true ->
  extract_domain_as_source (PStr (scheme ++ "://" ++ host ++ rest)) = Ok (remove_www host)
  /\ (contains "www." host = false -> remove_www host = host)
  /\ (forall h, host = "www." ++ h -> contains "www." h = false -> remove_www host = h).
Proof.
  intros Hscheme Hhost Hrest. split; [|split].
  - cbn [extract_domain_as_source].
    rewrite (urlparse_netloc_of_parts _ _ _ Hscheme Hhost Hrest). reflexivity.
  - apply remove_www_id.
  - intros h -> Hh. change (remove_www ("www." ++ h)) with (remove_www h).
    apply remove_www_id, Hh.
Qed.

Lemma source_of_ordinary_url_witness :
  extract_domain_as_source (PStr "https://www.swissre.com:443/institute?year=2024")
  = Ok "swissre.com:443".
Proof.
  destruct (source_of_ordinary_url "https" "www.swissre.com:443" "/institute?year=2024"
              eq_refl eq_refl eq_refl) as (Hsource & _ & Hwww).
  rewrite (Hwww "swissre.com:443" eq_refl eq_refl) in Hsource. exact Hsource.
Defined.

(** *** A URL without a network location *)

Lemma contains_app_r n a b : contains n b = true -> contains n (a ++ b) = true.
Proof.
  intros H. induction a as [|c a IH]; [exact H|].
  change (String c a ++ b) with (String c (a ++ b)). cbn [contains].
  rewrite IH. apply orb_true_r.
Qed.

Lemma lstrip_c0_suffix s : exists p, s = p ++ lstrip_c0 s.
Proof.
  induction s as [|c s [p Hp]]; [exists ""; reflexivity|]. cbn [lstrip_c0].
  destruct (code c <=? 32)%nat; [|exists ""; reflexivity].
  exists (String c p). cbn [append]. rewrite <- Hp. reflexivity.
Qed.

Lemma span_append p s : s = fst (span p s) ++ snd (span p s).
Proof.
  induction s as [|c s IH]; [reflexivity|]. cbn [span].
  destruct (p c); [|reflexivity]. destruct (span p s) as [a b]. cbn [fst snd append] in *.
  rewrite <- IH. reflexivity.
Qed.

Lemma drop_scheme_suffix s : exists p, s = p ++ drop_scheme s.
Proof.
  unfold drop_scheme. pose proof (span_append (fun c => negb (c =? ":")%char) s) as Hs.
  destruct (span (fun c => negb (c =? ":")%char) s) as [before rest]. cbn [fst snd] in Hs.
  destruct before as [|c0 before']; [exists ""; reflexivity|].
  destruct rest as [|colon after]; [exists ""; reflexivity|].
  destruct (is_alpha c0 && string_forallb scheme_char (String c0 before'));
    [|exists ""; reflexivity].
  exists (String c0 before' ++ String colon ""). rewrite append_assoc. exact Hs.
Qed.

Lemma printable_is_safe c : is_printable c = true -> is_unsafe c = false.
Proof.
  destruct c as [[] [] [] [] [] [] [] []]; intros H; vm_compute in H; try discriminate;
    reflexivity.
Qed.

(** A URL of printable characters in which no two slashes stand side by
    side has no network location, so its source is the empty string: a URL
    written without its scheme, such as [swissre.com/report], is one. *)
Theorem source_without_double_slash (url : string) :
  string_forallb is_printable url = true -> contains "//" url = false ->
  extract_domain_as_source (PStr url) = Ok "".
Proof.
  intros Hprint Hslash. cbn [extract_domain_as_source]. unfold urlparse_netloc.
  destruct (lstrip_c0_suffix url) as [p Hp].
  assert (Hp1 : string_forallb is_printable (lstrip_c0 url) = true).
  { rewrite Hp in Hprint. apply forallb_app in Hprint. tauto. }
  assert (Hid : remove_unsafe (lstrip_c0 url) = lstrip_c0 url).
  { rewrite <- (append_nil (lstrip_c0 url)) at 1. rewrite remove_unsafe_app.
    - apply append_nil.
    - revert Hp1. apply string_forallb_weaken. intros c Hc.
      rewrite (printable_is_safe _ Hc). reflexivity. }
  rewrite Hid. destruct (drop_scheme_suffix (lstrip_c0 url)) as [p' Hp'].
  assert (Hnone : contains "//" (drop_scheme (lstrip_c0 url)) = false).
  { apply not_true_is_false. intros H. apply (contains_app_r _ p') in H.
    rewrite <- Hp' in H. apply (contains_app_r _ p) in H. rewrite <- Hp in H. congruence. }
  destruct (drop_scheme (lstrip_c0 url)) as [|s1 [|s2 rest]]; try reflexivity.
  destruct ((s1 =? "/")%char && (s2 =? "/")%char) eqn:Hs; [|reflexivity].
  apply andb_prop in Hs as [Hs1 Hs2]. apply Ascii.eqb_eq in Hs1, Hs2. subst s1 s2.
  cbn [contains] in Hnone. apply orb_false_elim in Hnone as [Hpre _].
  simpl in Hpre. destruct rest; discriminate.
Qed.

Lemma source_without_double_slash_witness :
  extract_domain_as_source (PStr "www.swissre.com/report") = Ok "".
Proof. apply source_without_double_slash; reflexivity. Defined.

(** *** Raw results with nothing to go by *)

Lemma structure_article_placeholder (E : Env) raw :
  names_nothing raw -> structure_article E raw = Ok (placeholder_article E).
Proof.
  intros (d & -> & Hurl & Htitle & Hsource & Hcontent).
  unfold structure_article. cbn [py_get bind]. rewrite Hurl, Htitle, Hsource, Hcontent.
  reflexivity.
Qed.

(** A raw result without any of the keys [url], [title], [source] and
    [content] is not dropped: it becomes a record with the title
    [No Title], today's date, the category [Uncategorized] and the empty
    string for its URL, its source, its content and its summary input; so
    a response made of such results gives as many of these records. *)
Theorem structure_articles_of_empty_results (E : Env) (raw_results : list pyval) :
  Forall names_nothing raw_results ->
  structure_articles E (PList raw_results)
  = Ok (map (fun _ => placeholder_article E) raw_results).
Proof.
  intros Hall. unfold structure_articles. cbn [safe_parse_response py_len py_iter bind].
  induction Hall as [|raw rest Hraw _ IH]; [reflexivity|].
  cbn [structure_loop map]. rewrite (structure_article_placeholder E raw Hraw), IH.
  reflexivity.
Qed.

Lemma structure_articles_of_empty_results_witness :
  structure_articles (env_replying (Ok "{}"))
    (PList [PDict []; PDict [("score", PFloat (FDec 5 (-1)))]])
  = Ok [placeholder_article (env_replying (Ok "{}"));
        placeholder_article (env_replying (Ok "{}"))].
Proof.
  apply (structure_articles_of_empty_results (env_replying (Ok "{}"))
           [PDict []; PDict [("score", PFloat (FDec 5 (-1)))]]).
  repeat constructor; eexists; (split; [reflexivity|]); repeat split; reflexivity.
Defined.

(** *** Dates the extractor passes over *)

Lemma digit_is_no_slash c : is_digit c = true -> (c =? "/")%char = false.
Proof.
  destruct c as [[] [] [] [] [] [] [] []]; intros H; vm_compute in H; try discriminate;
    reflexivity.
Qed.

Lemma numeric_match_with_slash s m :
  match_numeric_at s = Some m -> written_with_slash m = true -> strptime m = None.
Proof.
  unfold match_numeric_at.
  destruct s as [|a [|b [|c [|e [|s1 [|m1 [|m2 [|s2 [|d1 [|d2 tl]]]]]]]]]]; try discriminate.
  destruct (Ascii.eqb_spec a "2"); [subst a|discriminate].
  destruct (Ascii.eqb_spec b "0"); [subst b|discriminate].
  cbn [andb].
  destruct (is_digit c) eqn:Hc; [|discriminate].
  destruct (is_digit e) eqn:He; [|discriminate].
  destruct (is_sep s1) eqn:Hs1; [|discriminate].
  destruct (is_digit m1) eqn:Hm1; [|discriminate].
  destruct (is_digit m2) eqn:Hm2; [|discriminate].
  destruct (is_sep s2) eqn:Hs2; [|discriminate].
  destruct (is_digit d1) eqn:Hd1; [|discriminate].
  destruct (is_digit d2) eqn:Hd2; [|discriminate].
  cbn [andb substring]. rewrite substring_0_0. intros [= <-].
  unfold written_with_slash. cbn [string_existsb].
  rewrite (digit_is_no_slash _ Hc), (digit_is_no_slash _ He), (digit_is_no_slash _ Hm1),
    (digit_is_no_slash _ Hm2), (digit_is_no_slash _ Hd1), (digit_is_no_slash _ Hd2).
  change (("2" =? "/")%char) with false. change (("0" =? "/")%char) with false.
  cbn [orb]. rewrite !orb_false_r. intros Hslash. unfold strptime.
  rewrite Hc, He. change (is_digit "2" && is_digit "0")%bool with true. cbn [andb].
  destruct (Ascii.eqb_spec s1 "-"); [subst s1|reflexivity].
  change (("-" =? "/")%char) with false in Hslash. cbn [orb] in Hslash.
  apply Ascii.eqb_eq in Hslash. subst s2.
  destruct (month_day_match _) as [[[mo dy] rest]|] eqn:Hmd; [|reflexivity].
  apply month_reads_back in Hmd as (tl' & Htl & _); [discriminate|assumption].
Qed.

Lemma iso_match_with_slash text : first_date_has_slash text -> iso_match text = None.
Proof.
  unfold first_date_has_slash, iso_match. intros H.
  destruct (search_from match_numeric_at text) as [m|] eqn:Hs; [|reflexivity].
  specialize (H m eq_refl). apply search_from_some in Hs as [suffix Hs].
  rewrite (numeric_match_with_slash _ _ Hs H). reflexivity.
Qed.

Lemma iso_match_slash_date pre m post :
  free_of "2" pre = true -> slash_date m = true -> iso_match (pre ++ m ++ post) = None.
Proof.
  intros Hpre Hm. unfold iso_match. rewrite (search_numeric_skip _ _ Hpre).
  assert (Hat : match_numeric_at (m ++ post) = Some m /\ written_with_slash m = true).
  { unfold slash_date in Hm.
    destruct m as [|a [|b [|c [|e [|s1 [|m1 [|m2 [|s2 [|d1 [|d2 [|]]]]]]]]]]];
      try discriminate.
    apply andb_prop in Hm as [Hm Hslash]. cbn [append]. unfold match_numeric_at.
    rewrite Hm. cbn [substring]. rewrite substring_0_0. split; [reflexivity|].
    unfold written_with_slash. cbn [string_existsb].
    apply orb_prop in Hslash as [H|H]; rewrite H, ?orb_true_r; reflexivity. }
  destruct Hat as [Hat Hslash].
  rewrite (search_from_head _ _ _ Hat), (numeric_match_with_slash _ _ Hat Hslash).
  reflexivity.
Qed.

Lemma iso_match_slash_date_first text : slash_date_first text -> iso_match text = None.
Proof.
  intros [Hfree|(pre & m & post & -> & Hpre & Hm)].
  - exact (iso_match_no_dash _ Hfree).
  - exact (iso_match_slash_date pre m post Hpre Hm).
Qed.

(** A numeric date written with a slash, as in the path [/2024/05/01/] of
    many URLs, is never read, and it hides every date that comes after it in
    the same text: on three strings of ASCII, where [\d] is the class of the
    ASCII digits, when the first numeric date of the URL, of the title and
    of the content is written with a slash, the date of the article is
    today's.  So it is when each of the three texts has no dash, or has a
    date with a slash and no [2] before it, whatever comes after that
    date. *)
Theorem slash_dates_are_passed_over (E : Env) (url title content : string) :
  string_forallb is_ascii url = true ->
  string_forallb is_ascii title = true ->
  string_forallb is_ascii content = true ->
  (first_date_has_slash url -> first_date_has_slash title -> first_date_has_slash content ->
   extract_best_date E (PStr url) (PStr title) (PStr content) = Ok (today E))
  /\ (slash_date_first url -> slash_date_first title -> slash_date_first content ->
      extract_best_date E (PStr url) (PStr title) (PStr content) = Ok (today E)).
Proof.
  intros _ _ _. rewrite extract_best_date_by_iso_match. split; intros Hu Ht Hc.
  - rewrite (iso_match_with_slash _ Hu), (iso_match_with_slash _ Ht),
      (iso_match_with_slash _ Hc). reflexivity.
  - rewrite (iso_match_slash_date_first _ Hu), (iso_match_slash_date_first _ Ht),
      (iso_match_slash_date_first _ Hc). reflexivity.
Qed.

Lemma slash_dates_are_passed_over_witness :
  extract_best_date (env_replying (Ok "{}"))
    (PStr "https://example.org/2024/05/01/flood-2024-05-02") (PStr "Flood") (PStr "")
  = Ok "2024-06-01".
Proof.
  destruct (slash_dates_are_passed_over (env_replying (Ok "{}"))
              "https://example.org/2024/05/01/flood-2024-05-02" "Flood" ""
              eq_refl eq_refl eq_refl) as [_ Hwritten].
  apply Hwritten.
  - right. exists "https://example.org/", "2024/05/01", "/flood-2024-05-02".
    repeat split.
  - left. reflexivity.
  - left. reflexivity.
Defined.

(** A date read in a URL of ASCII, where [\d] is the class of the ASCII
    digits, is the date of the article whatever the title and the content
    are, strings or not: they are not looked at.  So it is with a calendar
    day of the years 2000 to 2099 written as YYYY-MM-DD in the URL with no
    [2] before it. *)
Theorem url_date_comes_first (E : Env) (url : string) (title content : pyval) :
  string_forallb is_ascii url = true ->
  (forall m, iso_match url = Some m -> extract_best_date E (PStr url) title content = Ok m)
  /\ (forall d pre post,
        calendar_day d = true -> free_of "2" pre = true -> url = pre ++ strftime d ++ post ->
        extract_best_date E (PStr url) title content = Ok (strftime d)).
Proof.
  intros _.
  assert (Hread : forall m, iso_match url = Some m ->
                    extract_best_date E (PStr url) title content = Ok m);
    [|split; [exact Hread|intros d pre post Hd Hpre ->;
                          exact (Hread _ (iso_match_at_date d pre post Hd Hpre))]].
  intros m Hm. unfold extract_best_date. cbn [scan_texts].
  rewrite try_patterns_first_parsed. fold (matches_in url).
  rewrite first_parsed_matches_in, Hm. reflexivity.
Qed.

Lemma url_date_comes_first_witness :
  extract_best_date (env_replying (Ok "{}"))
    (PStr "https://example.org/news/2024-05-01-flood") (PInt 7) PNone
  = Ok "2024-05-01".
Proof.
  destruct (url_date_comes_first (env_replying (Ok "{}"))
              "https://example.org/news/2024-05-01-flood" (PInt 7) PNone eq_refl)
    as [_ Hwritten].
  apply (Hwritten {| year := 2024; month := 5; day := 1 |} "https://example.org/news/" "-flood");
    reflexivity.
Defined.

(** *** Tagging twice *)

(** Running the Reference Enricher on articles it has already tagged
    changes nothing: the second run returns the same list and leaves every
    object of the store as the first run left it. *)
Theorem reference_enricher_idempotent (h : store) (articles : list loc) :
  Forall (fun a => has_url (h a)) articles ->
  exists h',
    enrich_articles_with_research_references articles h = (Ok articles, h')
    /\ exists h'',
         enrich_articles_with_research_references articles h' = (Ok articles, h'')
         /\ forall a, h'' a = h' a.
Proof.
  intros Hall. unfold enrich_articles_with_research_references.
  destruct (enrich_loop_spec articles h [] Hall) as (h' & Hrun & Hout & Hin).
  exists h'. split; [exact Hrun|].
  assert (Hall' : Forall (fun a => has_url (h' a)) articles).
  { apply Forall_forall. intros a Ha. rewrite Forall_forall in Hall.
    destruct (Hall a Ha) as (d & url & Hd & Hurl). apply list_elem_of_In in Ha.
    exists (dict_set d "research_references" (references_value url)), url.
    split; [exact (Hin a d url Ha Hd Hurl)|].
    rewrite dict_get_set_ne by discriminate. exact Hurl. }
  destruct (enrich_loop_spec articles h' [] Hall') as (h'' & Hrun' & Hout' & Hin').
  exists h''. split; [exact Hrun'|]. intros a.
  destruct (existsb (Nat.eqb a) articles) eqn:Ha.
  - apply existsb_exists in Ha as (b & Hb & Hab). apply Nat.eqb_eq in Hab. subst b.
    rewrite Forall_forall in Hall.
    destruct (Hall a Hb) as (d & url & Hd & Hurl). apply list_elem_of_In in Hb.
    pose proof (Hin a d url Hb Hd Hurl) as Hfirst.
    rewrite (Hin' a _ url Hb Hfirst), Hfirst.
    + rewrite dict_set_set. reflexivity.
    + rewrite dict_get_set_ne by discriminate. exact Hurl.
  - apply Hout'. intros Hin_a. apply list_elem_of_In in Hin_a.
    assert (existsb (Nat.eqb a) articles = true); [|congruence].
    apply existsb_exists. exists a. split; [exact Hin_a|apply Nat.eqb_refl].
Qed.

Lemma reference_enricher_idempotent_witness :
  exists h',
    enrich_articles_with_research_references [0; 1; 0] sample_store = (Ok [0; 1; 0], h')
    /\ exists h'',
         enrich_articles_with_research_references [0; 1; 0] h' = (Ok [0; 1; 0], h'')
         /\ h'' 0 = h' 0.
Proof.
  destruct (reference_enricher_idempotent sample_store [0; 1; 0]) as (h' & Hrun & h'' & Hrun' & Hsame).
  - repeat constructor; eexists _, _; split; reflexivity.
  - exists h'. split; [exact Hrun|]. exists h''. split; [exact Hrun'|apply Hsame].
Defined.

(** *** What enrichment reads *)

(** Enrichment depends on the article only through the six fields of the
    prompt: two records that agree on title, url, date, source,
    summary_input and full_content are enriched alike, with the same prompt
    and the same fallback.  The location, the category and the research
    references the earlier steps computed have no part in it. *)
Theorem enrich_reads_the_prompt_fields (E : Env) (d1 d2 : pydict) :
  Forall (fun k => dict_get d1 k = dict_get d2 k) prompt_fields ->
  build_prompt E (PDict d1) = build_prompt E (PDict d2)
  /\ enrich_article_with_gpt_full E (PDict d1) = enrich_article_with_gpt_full E (PDict d2).
Proof.
  intros Hall. unfold prompt_fields in Hall.
  repeat match goal with
         | H : Forall _ (_ :: _) |- _ =>
             let Hk := fresh "Hk" in inversion H as [|? ? Hk H']; subst; clear H; rename H' into H
         end.
  assert (Hprompt : build_prompt E (PDict d1) = build_prompt E (PDict d2)).
  { unfold build_prompt. cbn [py_get bind]. rewrite Hk, Hk0, Hk1, Hk2, Hk3, Hk4. reflexivity. }
  split; [exact Hprompt|]. unfold enrich_article_with_gpt_full. rewrite Hprompt.
  rewrite !fallback_record_dict, Hk, Hk0, Hk1, Hk2. reflexivity.
Qed.

Lemma enrich_reads_the_prompt_fields_witness :
  enrich_article_with_gpt_full (env_replying (Raise (OtherError "RateLimitError")))
    sample_article
  = enrich_article_with_gpt_full (env_replying (Raise (OtherError "RateLimitError")))
      (PDict [("title", PStr "Flood Risk Update"); ("url", PStr "https://swissre.com/report");
              ("source", PStr "swissre.com"); ("date", PStr "2024-05-01");
              ("summary_input", PStr "A flood in Germany on 2024-05-01 caused insured losses.");
              ("full_content", PStr "A flood in Germany on 2024-05-01 caused insured losses.")]).
Proof.
  apply enrich_reads_the_prompt_fields. repeat constructor.
Defined.


(** *** Responses without results, and malformed results *)

(** On a response of a shape the parser has no results for, the structurer
    returns the empty list and does not raise: so on a string that starts
    with no JSON value, on the JSON text of a value that holds no results,
    and on a string of digits within the limit of [int].  A string of more
    digits makes it raise a [ValueError], and a string that opens more
    arrays than the decoder has room for a [RecursionError]. *)
Theorem structure_articles_without_results (E : Env) (response : pyval) :
  (carries_no_results E response = true -> structure_articles E response = Ok [])
  /\ (forall s,
        response = PStr s -> opens_no_value s = true ->
        structure_articles E response = Ok [])
  /\ (forall v,
        response = PStr (write v) -> writable v = true -> nesting v <= parse_depth E ->
        no_results v = true ->
        structure_articles E response = Ok [])
  /\ (forall s,
        response = PStr s -> is_integer_literal s = true ->
        structure_articles E response
        = if too_many_digits (int_max_str_digits E) s then Raise ValueError else Ok [])
  /\ (forall n rest,
        response = PStr (repeat_string n "[" ++ rest) -> parse_depth E < n ->
        structure_articles E response = Raise (OtherError "RecursionError")).
Proof.
  assert (Hstr : forall s,
            structure_articles E (PStr s)
            = match json_loads (int_max_str_digits E) (parse_depth E) s with
              | inl JSONDecodeError => Ok []
              | inl err => Raise (json_exn err)
              | inr v =>
                  bind (Ok (by_shape v))
                    (fun raw_results =>
                       bind (py_len raw_results)
                         (fun _ => bind (py_iter raw_results) (structure_loop E)))
              end).
  { intros s. unfold structure_articles, safe_parse_response.
    destruct (json_loads _ _ s) as [[]|[]]; reflexivity. }
  assert (Hnone : forall v,
            no_results v = true ->
            bind (Ok (by_shape v))
              (fun raw_results =>
                 bind (py_len raw_results)
                   (fun _ => bind (py_iter raw_results) (structure_loop E)))
            = Ok []).
  { intros [| | | | |l|d]; try reflexivity; try discriminate. cbn [no_results by_shape].
    destruct (dict_get d "results"); [discriminate|reflexivity]. }
  split.
  { unfold carries_no_results. destruct response as [| | | |s|l|d]; try reflexivity.
    - rewrite Hstr. destruct (json_loads _ _ s) as [[]|v]; try discriminate; [reflexivity|].
      apply Hnone.
    - discriminate.
    - cbn [no_results]. unfold structure_articles. cbn [safe_parse_response].
      destruct (dict_get d "results"); [discriminate|reflexivity]. }
  split; [intros s -> Hs; rewrite Hstr, (json_loads_no_value _ _ s Hs); reflexivity|].
  split; [intros v -> Hw Hn Hv; rewrite Hstr, (json_loads_write _ _ v Hw Hn);
          exact (Hnone v Hv)|].
  split.
  - intros s -> Hs. rewrite Hstr, (json_loads_integer _ _ s Hs).
    destruct (too_many_digits _ s); reflexivity.
  - intros n rest -> Hn. rewrite Hstr, (json_loads_too_deep _ _ n rest Hn). reflexivity.
Qed.

(** Prose, an empty JSON object and a status code hold no results. *)
Lemma structure_articles_without_results_witness :
  structure_articles (env_replying (Ok "{}")) (PStr "Service unavailable") = Ok []
  /\ structure_articles (env_replying (Ok "{}")) (PStr "{}") = Ok []
  /\ structure_articles (env_replying (Ok "{}")) (PInt 404) = Ok [].
Proof.
  split; [|split].
  - destruct (structure_articles_without_results (env_replying (Ok "{}"))
                (PStr "Service unavailable")) as (_ & Hprose & _).
    apply (Hprose "Service unavailable"); reflexivity.
  - destruct (structure_articles_without_results (env_replying (Ok "{}")) (PStr "{}"))
      as (_ & _ & Hwritten & _).
    apply (Hwritten (PDict [])); [reflexivity|reflexivity|vm_compute; lia|reflexivity].
  - destruct (structure_articles_without_results (env_replying (Ok "{}")) (PInt 404))
      as (Hshape & _).
    apply Hshape. reflexivity.
Defined.

Lemma structure_article_malformed (E : Env) raw :
  malformed raw = true -> raises (structure_article E raw).
Proof.
  intros Hbad. destruct (structure_article E raw) as [a|e] eqn:Ha; [|exists e; reflexivity].
  apply structure_article_shape in Ha as (d & u & _ & _ & _ & -> & Hu & _).
  cbn [malformed] in Hbad. destruct (dict_get d "url") as [[]|]; discriminate.
Qed.

Lemma structure_loop_raises (E : Env) raw_results :
  Exists (fun raw => raises (structure_article E raw)) raw_results ->
  raises (structure_loop E raw_results).
Proof.
  induction 1 as [raw rest [e He]|raw rest _ [e He]]; cbn [structure_loop].
  - rewrite He. exists e. reflexivity.
  - destruct (structure_article E raw) as [a|e']; [|exists e'; reflexivity].
    cbn [bind]. rewrite He. exists e. reflexivity.
Qed.

(** One malformed raw result, a value that is no dict or a dict whose [url]
    is not a string, makes the structurer raise on the whole response: no
    article of the response is structured, however many are well formed. *)
Theorem one_malformed_result_fails_the_response (E : Env) (raw_results : list pyval) :
  Exists (fun raw => malformed raw = true) raw_results ->
  raises (structure_articles E (PList raw_results)).
Proof.
  intros Hbad. unfold structure_articles. cbn [safe_parse_response py_len py_iter bind].
  apply structure_loop_raises. revert Hbad. apply Exists_impl.
  intros raw. apply structure_article_malformed.
Qed.

Lemma one_malformed_result_fails_the_response_witness :
  raises (structure_articles (env_replying (Ok "{}"))
            (PList [PDict [("url", PStr "https://swissre.com/report");
                           ("title", PStr "Flood Risk Update")];
                    PDict [("url", PNone)]])).
Proof.
  apply one_malformed_result_fails_the_response. right. left. reflexivity.
Defined.

(** ** The dashboard loader and the command-line run *)

(** *** Loading the articles *)

Lemma structure_articles_inv (E : Env) response out :
  structure_articles E response = Ok out ->
  Forall (fun a => exists raw, structure_article E raw = Ok a) out.
Proof.
  unfold structure_articles. intros Hout.
  destruct (safe_parse_response E response) as [raw_results|]; [|discriminate].
  cbn [bind] in Hout. destruct (py_len raw_results); [|discriminate]. cbn [bind] in Hout.
  destruct (py_iter raw_results) as [items|]; [|discriminate]. cbn [bind] in Hout.
  apply structure_loop_inv in Hout as [_ Hnth].
  apply list.Forall_forall. intros art Hart. apply list_elem_of_lookup in Hart as [i Hi].
  destruct (Hnth i art Hi) as (raw & _ & Hraw). exists raw. exact Hraw.
Qed.

(** An article of the structurer has a [url] that is a string. *)
Lemma structured_has_url (E : Env) raw a : structure_article E raw = Ok a -> has_url a.
Proof.
  intros Ha.
  apply structure_article_shape in Ha as (d & u & title & source & date & _ & _ & _ & _ & ->).
  eexists _, u. split; reflexivity.
Qed.

Lemma structured_is_structured (E : Env) raw a :
  structure_article E raw = Ok a -> is_structured_article a = true.
Proof.
  intros Ha. apply structure_article_inv in Ha as (d & a' & _ & _ & _ & H & _). exact H.
Qed.

Lemma enrich_all_length (E : Env) articles out :
  enrich_all E articles = Ok out -> length out = length articles.
Proof.
  revert out. induction articles as [|a rest IH]; intros out; cbn [enrich_all].
  - intros H. apply Ok_inj in H. subst out. reflexivity.
  - destruct (enrich_article_with_gpt_full E a); [|discriminate]. cbn [bind].
    destruct (enrich_all E rest) as [others|]; [|discriminate]. cbn [bind].
    intros H. apply Ok_inj in H. subst out. cbn [length]. rewrite (IH others eq_refl).
    reflexivity.
Qed.

Lemma enrich_all_total (E : Env) articles :
  Forall (fun a => is_structured_article a = true) articles ->
  exists out, enrich_all E articles = Ok out.
Proof.
  induction 1 as [|a rest Ha _ [others IH]]; [exists []; reflexivity|].
  destruct (enrich_structured_article E a Ha) as (d & prompt & r & _ & _ & Hr & _).
  cbn [enrich_all]. rewrite Hr, IH. cbn [bind]. eauto.
Qed.

Lemma enrich_all_ext (E : Env) l1 l2 :
  Forall2 (fun a b => enrich_article_with_gpt_full E a = enrich_article_with_gpt_full E b)
    l1 l2 ->
  enrich_all E l1 = enrich_all E l2.
Proof.
  induction 1 as [|a b l1 l2 Hab _ IH]; [reflexivity|].
  cbn [enrich_all]. rewrite Hab, IH. reflexivity.
Qed.

(** Enrichment does not see the tag of the Reference Enricher. *)
Lemma enrich_ignores_references (E : Env) d v :
  enrich_article_with_gpt_full E (PDict (dict_set d "research_references" v))
  = enrich_article_with_gpt_full E (PDict d).
Proof.
  assert (Hget : forall k, k <> "research_references" ->
                   dict_get (dict_set d "research_references" v) k = dict_get d k).
  { intros k Hk. apply dict_get_set_ne. congruence. }
  unfold enrich_article_with_gpt_full, build_prompt. cbn [py_get bind].
  rewrite !fallback_record_dict. rewrite !Hget by discriminate. reflexivity.
Qed.

(** The tagged articles, read back from the store, are enriched as the
    articles themselves. *)
Lemma enrich_all_after_tagging (E : Env) structured h' :
  Forall has_url structured ->
  enrich_articles_with_research_references (fst (allocate structured)) (snd (allocate structured))
  = (Ok (fst (allocate structured)), h') ->
  (forall a d url, a ∈ fst (allocate structured) -> snd (allocate structured) a = PDict d ->
     dict_get d "url" = Some (PStr url) ->
     h' a = PDict (dict_set d "research_references" (references_value url))) ->
  enrich_all E (map h' (fst (allocate structured))) = enrich_all E structured.
Proof.
  intros Hurl _ Htag. apply enrich_all_ext. cbn [allocate fst snd] in *.
  apply Forall2_same_length_lookup_2.
  - rewrite length_map, length_seq. reflexivity.
  - intros i x y Hx Hy. rewrite list_lookup_fmap in Hx.
    apply fmap_Some in Hx as (a & Ha & ->). pose proof Ha as Hin. apply lookup_seq in Ha as [-> Hlt].
    cbn [Nat.add] in *.
    rewrite list.Forall_forall in Hurl.
    destruct (Hurl y) as (d & url & -> & Hd); [eapply list_elem_of_lookup_2, Hy|].
    assert (Hi : i ∈ seq 0 (length structured)) by (eapply list_elem_of_lookup_2, Hin).
    assert (Hstored : match structured !! i with Some v => v | None => PNone end = PDict d)
      by (rewrite Hy; reflexivity).
    rewrite (Htag i d url Hi Hstored Hd). apply enrich_ignores_references.
Qed.


(** One malformed raw result, a value that is no dict or a dict whose [url]
    is not a string, empties the dashboard: nothing is loaded from the
    response, and the error is shown instead. *)
Theorem get_enriched_articles_all_or_nothing
    (E : Env) (tool_invoke : string -> result pyval) (raw_results : list pyval) :
  tool_invoke search_query = Ok (PList raw_results) ->
  Exists (fun raw => malformed raw = true) raw_results ->
  exists e, get_enriched_articles E tool_invoke = ([], [LoadError e]).
Proof.
  intros Htool Hbad. unfold get_enriched_articles. rewrite Htool. cbn [bind].
  destruct raw_results as [|raw rest]; [inversion Hbad|]. cbn [truthy negb].
  assert (Hraise : raises (structure_articles E (PList (raw :: rest)))).
  { unfold structure_articles. cbn [safe_parse_response py_len py_iter bind].
    apply structure_loop_raises. revert Hbad. apply Exists_impl.
    intros raw'. apply structure_article_malformed. }
  destruct Hraise as [e He]. rewrite He. exists e. reflexivity.
Qed.


Lemma get_enriched_articles_all_or_nothing_witness :
  exists e,
    get_enriched_articles (env_replying (Ok "{}"))
      (fun _ => Ok (PList [PDict [("url", PStr "https://swissre.com/report");
                                  ("title", PStr "Flood Risk Update")];
                           PDict [("url", PNone)]]))
    = ([], [LoadError e]).
Proof.
  apply (get_enriched_articles_all_or_nothing (env_replying (Ok "{}")) _
           [PDict [("url", PStr "https://swissre.com/report");
                   ("title", PStr "Flood Risk Update")];
            PDict [("url", PNone)]] eq_refl).
  right. left. reflexivity.
Defined.

(** *** Severity *)

Lemma firstn_map_pairs {A B : Type} (f : A -> B) n l :
  firstn n (map f l) = map f (firstn n l).
Proof.
  revert l. induction n as [|n IH]; intros [|x l]; cbn [firstn map]; try reflexivity.
  rewrite IH. reflexivity.
Qed.

(** Whatever the sentiment of an article is, its severity is one of
    [High Risk], [Low Risk] and [Neutral], and it is [Neutral] for every
    sentiment other than [Negative] and [Positive], so also for the
    [Unknown] of a failed enrichment.  Hence an article passes the test of
    the trending news exactly when its sentiment was [Negative], and the
    trending news are the first five articles of the period whose sentiment
    was [Negative], in their order, each as [High Risk]; the icon of an
    article is never the default one, and no region is ever critical. *)
Theorem severity_is_never_critical (sentiment : string) :
  (severity sentiment = "High Risk" /\ sentiment = "Negative"
   \/ severity sentiment = "Low Risk" /\ sentiment = "Positive"
   \/ severity sentiment = "Neutral" /\ sentiment <> "Negative" /\ sentiment <> "Positive")
  /\ is_trending (severity sentiment) = (sentiment =? "Negative")
  /\ icon (severity sentiment) <> "📰"
  /\ (forall rows : list (string * string),
        critical_regions (map (fun row => (fst row, severity (snd row))) rows) = [])
  /\ (forall rows : list (string * string),
        trending (map (fun row => (fst row, severity (snd row))) rows)
        = map (fun row => (fst row, "High Risk"))
            (firstn 5 (List.filter (fun row => snd row =? "Negative") rows)))
  /\ (forall rows : list (string * string),
        length (trending (map (fun row => (fst row, severity (snd row))) rows)) <= 5).
Proof.
  assert (Hcases : forall sentiment,
            severity sentiment = "High Risk" /\ sentiment = "Negative"
            \/ severity sentiment = "Low Risk" /\ sentiment = "Positive"
            \/ severity sentiment = "Neutral" /\ sentiment <> "Negative"
               /\ sentiment <> "Positive").
  { intros s. unfold severity, sentiment_remap. cbn [lookup].
    destruct (String.eqb_spec "Negative" s) as [<-|Hn]; [left; auto|].
    destruct (String.eqb_spec "Positive" s) as [<-|Hp]; [right; left; auto|].
    right. right. destruct ("Neutral" =? s); auto. }
  assert (Hrange : forall s, (severity s =? "Critical") = false).
  { intros s. unfold severity, sentiment_remap. cbn [lookup].
    destruct ("Negative" =? s); [reflexivity|]. destruct ("Positive" =? s); [reflexivity|].
    destruct ("Neutral" =? s); reflexivity. }
  assert (Htest : forall s, is_trending (severity s) = (s =? "Negative")).
  { intros s. destruct (Hcases s) as [[-> ->]|[[-> ->]|(-> & Hn & Hp)]]; try reflexivity.
    apply String.eqb_neq in Hn. rewrite Hn. reflexivity. }
  assert (Hrows : forall rows : list (string * string),
            trending (map (fun row => (fst row, severity (snd row))) rows)
            = map (fun row => (fst row, "High Risk"))
                (firstn 5 (List.filter (fun row => snd row =? "Negative") rows))).
  { intros rows. unfold trending. rewrite <- firstn_map_pairs. f_equal.
    induction rows as [|[title s] rows IH]; [reflexivity|].
    cbn [map List.filter fst snd]. rewrite Htest.
    destruct (String.eqb_spec s "Negative") as [->|_]; [|exact IH].
    cbn [map fst snd]. rewrite IH. reflexivity. }
  split; [exact (Hcases sentiment)|]. split; [exact (Htest sentiment)|]. split; [|split].
  - destruct (Hcases sentiment) as [[-> _]|[[-> _]|(-> & _)]]; discriminate.
  - intros rows. unfold critical_regions. induction rows as [|row rows IH]; [reflexivity|].
    cbn [map List.filter snd]. rewrite Hrange. exact IH.
  - split; [exact Hrows|]. intros rows. unfold trending. apply firstn_le_length.
Qed.

(** *** The command-line run *)

Lemma print_articles_structured structured :
  Forall (fun a => is_structured_article a = true) structured ->
  exists blocks,
    print_articles structured = (blocks, Ok tt)
    /\ Forall2 (fun a block =>
                  exists title date category,
                    py_getitem a "title" = Ok title /\ py_getitem a "date" = Ok date
                    /\ py_getitem a "category" = Ok category
                    /\ block = ArticleBlock title date category)
         structured blocks.
Proof.
  induction 1 as [|a rest Ha _ (blocks & Hrun & Hblocks)]; [exists []; split; constructor|].
  destruct (structured_article_fields a Ha) as (d & content & -> & _ & Hfields).
  unfold documented_fields in Hfields.
  assert (Hget : forall k, k ∈ ["title"; "date"; "category"] ->
                   exists v, py_getitem (PDict d) k = Ok v).
  { intros k Hk. rewrite list.Forall_forall in Hfields.
    destruct (Hfields k) as (v & Hv & _).
    - repeat (apply elem_of_cons in Hk as [->|Hk]; [repeat constructor|]); inversion Hk.
    - exists v. cbn [py_getitem]. rewrite Hv. reflexivity. }
  destruct (Hget "title") as [title Htitle]; [repeat constructor|].
  destruct (Hget "date") as [date Hdate]; [repeat constructor|].
  destruct (Hget "category") as [category Hcategory]; [repeat constructor|].
  exists (ArticleBlock title date category :: blocks).
  cbn [print_articles]. rewrite Htitle, Hdate, Hcategory. cbn [bind]. rewrite Hrun.
  split; [reflexivity|]. constructor; [|exact Hblocks].
  exists title, date, category. auto.
Qed.


